(** * rclone-commander: progress parsing, log retention and the copy queue

    A shallow embedding of the parts of [progress_parser.py],
    [rclone_wrapper.py] and [main.py] that carry the transfer engine,
    followed by the properties established about them.

    Python [str] values are modelled by [string]: a character is one of the
    code points 0..255 (Latin-1), which covers everything the patterns of
    the parser distinguish. *)

From Stdlib Require Import String Ascii List ZArith Bool Arith Lia.
From Stdlib Require Import Permutation Sorting.Sorted.
From Stdlib Require Import Numbers.DecimalString.
Import ListNotations.

Local Open Scope string_scope.
Local Open Scope list_scope.
Local Open Scope nat_scope.

(* ------------------------------------------------------------------ *)
(** ** Exceptions and results *)

Inductive exn : Type :=
| ValueError (msg : string)
| TypeError (msg : string)
| AttributeError (msg : string)
| OSError (msg : string)
| JSONDecodeError (msg : string)
| RecursionError (msg : string).

Inductive result (A : Type) : Type :=
| Ok (a : A)
| Raise (e : exn).

Arguments Ok {A} a.
Arguments Raise {A} e.

Definition bind {A B : Type} (r : result A) (k : A -> result B) : result B :=
  match r with
  | Ok a => k a
  | Raise e => Raise e
  end.

Notation "x <- r ;; k" := (bind r (fun x => k))
  (at level 61, r at next level, right associativity).

(* ------------------------------------------------------------------ *)
(** ** The string primitives of Python used by the sources *)

Module PyStr.

Definition code (c : ascii) : nat := nat_of_ascii c.

Definition between (lo hi : nat) (c : ascii) : bool :=
  (lo <=? code c) && (code c <=? hi).

(** [str.isspace] on one character, which is also the class [\s]. *)
Definition isspace (c : ascii) : bool :=
  between 9 13 c || between 28 32 c
  || (code c =? 133) || (code c =? 160).

(** The class [\d]: decimal digits. *)
Definition isdecimal (c : ascii) : bool := between 48 57 c.

(** [str.isalnum] on one character of the Latin-1 range. *)
Definition isalnum (c : ascii) : bool :=
  between 48 57 c || between 65 90 c || between 97 122 c
  || (code c =? 170) || (code c =? 178) || (code c =? 179)
  || (code c =? 181) || (code c =? 185) || (code c =? 186)
  || between 188 190 c || between 192 214 c || between 216 246 c
  || between 248 255 c.

(** The class [\w]. *)
Definition isword (c : ascii) : bool := isalnum c || (code c =? 95).

(** [s.lstrip()], [s.rstrip()] and [s.strip()] with no argument. *)
Fixpoint lstrip (s : string) : string :=
  match s with
  | String c s' => if isspace c then lstrip s' else s
  | EmptyString => EmptyString
  end.

Fixpoint rstrip (s : string) : string :=
  match s with
  | String c s' =>
      match rstrip s' with
      | EmptyString => if isspace c then EmptyString else String c EmptyString
      | t => String c t
      end
  | EmptyString => EmptyString
  end.

Definition strip (s : string) : string := rstrip (lstrip s).

(** [s.startswith(p)]. *)
Fixpoint startswith (p s : string) : bool :=
  match p, s with
  | EmptyString, _ => true
  | String a p', String b s' => Ascii.eqb a b && startswith p' s'
  | String _ _, EmptyString => false
  end.

(** [s.endswith(p)]. *)
Definition endswith (p s : string) : bool :=
  (String.length p <=? String.length s)
  && String.eqb
       (substring (String.length s - String.length p) (String.length p) s) p.

(** [p in s]. *)
Fixpoint contains (p s : string) : bool :=
  startswith p s
  || match s with
     | String _ s' => contains p s'
     | EmptyString => false
     end.

(** The line boundaries of [str.splitlines] below code point 256. *)
Definition islinebreak (c : ascii) : bool :=
  between 10 13 c || between 28 30 c || (code c =? 133).

(** [s.splitlines()]: [cur] is the line being read, reversed; a carriage
    return directly followed by a line feed is one boundary. *)
Fixpoint splitlines_go (s : string) (cur : list ascii) : list string :=
  match s with
  | EmptyString =>
      match cur with
      | [] => []
      | _ => [string_of_list_ascii (rev cur)]
      end
  | String c s' =>
      if islinebreak c then
        string_of_list_ascii (rev cur) ::
          (if code c =? 13 then
             match s' with
             | String c' s'' =>
                 if code c' =? 10 then splitlines_go s'' []
                 else splitlines_go s' []
             | EmptyString => splitlines_go s' []
             end
           else splitlines_go s' [])
      else splitlines_go s' (c :: cur)
  end.

Definition splitlines (s : string) : list string := splitlines_go s [].

(** [int(s)] on a string of decimal digits, which is all the parser hands
    to it. The interpreter refuses to convert more than
    [sys.get_int_max_str_digits()] digits, 4300 as it starts, leading zeros
    counted, and raises [ValueError]. On an empty string and on other
    characters the model answers with the [ValueError] of a malformed
    literal. *)
Fixpoint digits_value (s : string) (acc : Z) : option Z :=
  match s with
  | EmptyString => Some acc
  | String c s' =>
      if isdecimal c
      then digits_value s' (10 * acc + Z.of_nat (code c - 48))%Z
      else None
  end.

Definition int_max_str_digits : nat := 4300.

Definition limit_error : exn :=
  ValueError "Exceeds the limit (4300 digits) for integer string conversion".

Definition int (s : string) : result Z :=
  match s with
  | EmptyString => Raise (ValueError "invalid literal for int()")
  | _ =>
      match digits_value s 0%Z with
      | Some z =>
          if int_max_str_digits <? String.length s then Raise limit_error
          else Ok z
      | None => Raise (ValueError "invalid literal for int()")
      end
  end.

End PyStr.

(* ------------------------------------------------------------------ *)
(** ** The fragment of [re] used by the patterns: a backtracking matcher *)

Module Re.

(** One-character classes. *)
Inductive cls : Type :=
| CChar (c : ascii)   (* a literal character *)
| CSpace              (* \s *)
| CDigit              (* \d *)
| CWord               (* \w *)
| CAny.               (* .  (anything but a line feed) *)

Inductive atom : Type :=
| One (k : cls)
| OneOf (ks : list cls).   (* [...] *)

Inductive quant : Type :=
| Once | Plus | Star | PlusLazy | StarLazy.

Inductive node : Type :=
| Atom (a : atom) (q : quant)
| Open (n : nat)      (* opening parenthesis of group n *)
| Close (n : nat).    (* its closing parenthesis *)

Definition regex : Type := list node.

Definition cls_matches (k : cls) (c : ascii) : bool :=
  match k with
  | CChar c' => Ascii.eqb c' c
  | CSpace => PyStr.isspace c
  | CDigit => PyStr.isdecimal c
  | CWord => PyStr.isword c
  | CAny => negb (PyStr.code c =? 10)
  end.

Definition atom_matches (a : atom) (c : ascii) : bool :=
  match a with
  | One k => cls_matches k c
  | OneOf ks => existsb (fun k => cls_matches k c) ks
  end.

(** Marks: where each group was opened, and the span of each closed one. *)
Record marks : Type := mkMarks {
  opened : list (nat * nat);
  spans : list (nat * (nat * nat))
}.

Definition no_marks : marks := mkMarks [] [].

Fixpoint assoc {V : Type} (n : nat) (l : list (nat * V)) : option V :=
  match l with
  | [] => None
  | (k, v) :: l' => if k =? n then Some v else assoc n l'
  end.

Definition mark_open (n pos : nat) (st : marks) : marks :=
  mkMarks ((n, pos) :: opened st) (spans st).

Definition mark_close (n pos : nat) (st : marks) : marks :=
  match assoc n (opened st) with
  | Some b => mkMarks (opened st) ((n, (b, pos)) :: spans st)
  | None => st
  end.

Section Repeat.
Context {R : Type}.
Variable a : atom.
Variable cont : string -> nat -> option R.

(** Greedy repetition: take as many characters as match, then give
    them back one at a time. [need] says one more is required. *)
Fixpoint rep_greedy (s : string) (pos : nat) (need : bool) : option R :=
  let stop := if need then None else cont s pos in
  match s with
  | String c s' =>
      if atom_matches a c then
        match rep_greedy s' (S pos) false with
        | Some r => Some r
        | None => stop
        end
      else stop
  | EmptyString => stop
  end.

(** Lazy repetition: take as few as possible, then one more at a time. *)
Fixpoint rep_lazy (s : string) (pos : nat) (need : bool) : option R :=
  let more :=
    match s with
    | String c s' =>
        if atom_matches a c then rep_lazy s' (S pos) false else None
    | EmptyString => None
    end in
  if need then more
  else match cont s pos with
       | Some r => Some r
       | None => more
       end.
End Repeat.

(** Match [prog] at the head of [s], which starts at offset [pos] of the
    subject; the result is the end offset and the marks. *)
Fixpoint exec (prog : regex) (s : string) (pos : nat) (st : marks)
  {struct prog} : option (nat * marks) :=
  match prog with
  | [] => Some (pos, st)
  | Open n :: k => exec k s pos (mark_open n pos st)
  | Close n :: k => exec k s pos (mark_close n pos st)
  | Atom a Once :: k =>
      match s with
      | String c s' =>
          if atom_matches a c then exec k s' (S pos) st else None
      | EmptyString => None
      end
  | Atom a Plus :: k =>
      rep_greedy a (fun s' pos' => exec k s' pos' st) s pos true
  | Atom a Star :: k =>
      rep_greedy a (fun s' pos' => exec k s' pos' st) s pos false
  | Atom a PlusLazy :: k =>
      rep_lazy a (fun s' pos' => exec k s' pos' st) s pos true
  | Atom a StarLazy :: k =>
      rep_lazy a (fun s' pos' => exec k s' pos' st) s pos false
  end.

(** A match object: the subject and the spans of the groups. *)
Record re_match : Type := mkMatch {
  subject : string;
  m_start : nat;
  m_end : nat;
  m_marks : marks
}.

(** [m.group(n)] for a group that took part in the match. *)
Definition group (m : re_match) (n : nat) : string :=
  match assoc n (spans (m_marks m)) with
  | Some (b, e) => substring b (e - b) (subject m)
  | None => EmptyString
  end.

(** [pattern.search(s)]: the leftmost position at which [prog] matches. *)
Fixpoint search_from (prog : regex) (whole s : string) (pos : nat)
  : option re_match :=
  match exec prog s pos no_marks with
  | Some (e, st) => Some (mkMatch whole pos e st)
  | None =>
      match s with
      | String _ s' => search_from prog whole s' (S pos)
      | EmptyString => None
      end
  end.

Definition search (prog : regex) (s : string) : option re_match :=
  search_from prog s s 0.

(** Literal text as a sequence of nodes. *)
Fixpoint lit (s : string) : regex :=
  match s with
  | EmptyString => []
  | String c s' => Atom (One (CChar c)) Once :: lit s'
  end.

End Re.

(* ------------------------------------------------------------------ *)
(** ** Reading a pattern from its source text *)

Module ReSyntax.
Import Re.
Local Open Scope char_scope.

(** The class written [\c]: a category, or the escaped character. *)
Definition escaped (c : ascii) : cls :=
  match c with
  | "s" => CSpace
  | "d" => CDigit
  | "w" => CWord
  | _ => CChar c
  end.

(** The inside of a bracket, up to the closing one; ranges and negation
    are not part of the fragment. *)
Fixpoint parse_set (s : string) (acc : list cls)
  : option (list cls * string) :=
  match s with
  | EmptyString => None
  | String "]" r => Some (rev acc, r)
  | String "\" (String c r) => parse_set r (escaped c :: acc)
  | String "\" EmptyString => None
  | String "-" _ => None
  | String "^" _ => None
  | String c r => parse_set r (CChar c :: acc)
  end.

(** An atom at the head of the text. *)
Definition parse_atom (s : string) : option (atom * string) :=
  match s with
  | EmptyString => None
  | String "\" (String c r) => Some (One (escaped c), r)
  | String "\" EmptyString => None
  | String "." r => Some (One CAny, r)
  | String "[" r =>
      match parse_set r [] with
      | Some (ks, r') => Some (OneOf ks, r')
      | None => None
      end
  | String "+" _ | String "*" _ | String "?" _ | String "|" _
  | String "{" _ | String "}" _ | String "^" _ | String "$" _
  | String "]" _ | String "(" _ | String ")" _ => None
  | String c r => Some (One (CChar c), r)
  end.

(** The quantifier that follows an atom, if any. *)
Definition parse_quant (s : string) : option (quant * string) :=
  match s with
  | String "+" (String "?" r) => Some (PlusLazy, r)
  | String "*" (String "?" r) => Some (StarLazy, r)
  | String "+" r => Some (Plus, r)
  | String "*" r => Some (Star, r)
  | String "?" _ => None
  | String "{" _ => None
  | _ => Some (Once, s)
  end.

(** Groups are numbered by their opening parenthesis, from [next];
    [stack] holds the groups still open. *)
Fixpoint compile_go (fuel : nat) (s : string) (next : nat)
  (stack : list nat) : option regex :=
  match fuel with
  | O => None
  | S fuel' =>
      match s with
      | EmptyString =>
          match stack with
          | [] => Some []
          | _ => None
          end
      | String "(" r =>
          option_map (cons (Open next))
            (compile_go fuel' r (S next) (next :: stack))
      | String ")" r =>
          match stack with
          | n :: stack' =>
              match parse_quant r with
              | Some (Once, _) =>
                  option_map (cons (Close n)) (compile_go fuel' r next stack')
              | _ => None
              end
          | [] => None
          end
      | _ =>
          match parse_atom s with
          | Some (a, r) =>
              match parse_quant r with
              | Some (q, r') =>
                  option_map (cons (Atom a q))
                    (compile_go fuel' r' next stack)
              | None => None
              end
          | None => None
          end
      end
  end.

(** [re.compile(text)] on the fragment; [None] outside it. *)
Definition compile (text : string) : option regex :=
  compile_go (S (String.length text)) text 1%nat [].

End ReSyntax.

(* ------------------------------------------------------------------ *)
(** ** progress_parser.py *)

Module ProgressParser.
Import Re.

(** Progress data for a single file being transferred. *)
Record FileProgress : Type := mkFileProgress {
  filename : string;
  percentage : Z;
  size : string;
  speed : string;
  eta : string
}.

(** Structured progress data extracted from rclone logs. *)
Record ProgressData : Type := mkProgressData {
  transferred_str : string;
  total_str : string;
  overall_percentage : Z;
  overall_speed : string;
  overall_eta : string;
  files_transferred : Z;
  total_files : Z;
  transferring_files : list FileProgress
}.

(** [ProgressData()]: every field at its default. *)
Definition ProgressData_default : ProgressData :=
  mkProgressData "" "" 0 "" "" 0 0 [].

(** Values passed by keyword to [_replace]. *)
Inductive pyval : Type :=
| VStr (s : string)
| VInt (z : Z)
| VFiles (l : list FileProgress).

Definition _fields : list string :=
  [ "transferred_str"; "total_str"; "overall_percentage"; "overall_speed";
    "overall_eta"; "files_transferred"; "total_files";
    "transferring_files" ].

(** One keyword of [_replace] whose name is a field. The record is typed,
    so a value of another type than the field's has no place in it; no
    call in the sources passes one. *)
Definition set_field (p : ProgressData) (kv : string * pyval)
  : result ProgressData :=
  let bad := Raise (TypeError (fst kv)) in
  let (name, v) := kv in
  if String.eqb name "transferred_str" then
    match v with
    | VStr s =>
        Ok (mkProgressData s (total_str p) (overall_percentage p)
              (overall_speed p) (overall_eta p) (files_transferred p)
              (total_files p) (transferring_files p))
    | _ => bad
    end
  else if String.eqb name "total_str" then
    match v with
    | VStr s =>
        Ok (mkProgressData (transferred_str p) s (overall_percentage p)
              (overall_speed p) (overall_eta p) (files_transferred p)
              (total_files p) (transferring_files p))
    | _ => bad
    end
  else if String.eqb name "overall_percentage" then
    match v with
    | VInt z =>
        Ok (mkProgressData (transferred_str p) (total_str p) z
              (overall_speed p) (overall_eta p) (files_transferred p)
              (total_files p) (transferring_files p))
    | _ => bad
    end
  else if String.eqb name "overall_speed" then
    match v with
    | VStr s =>
        Ok (mkProgressData (transferred_str p) (total_str p)
              (overall_percentage p) s (overall_eta p)
              (files_transferred p) (total_files p) (transferring_files p))
    | _ => bad
    end
  else if String.eqb name "overall_eta" then
    match v with
    | VStr s =>
        Ok (mkProgressData (transferred_str p) (total_str p)
              (overall_percentage p) (overall_speed p) s
              (files_transferred p) (total_files p) (transferring_files p))
    | _ => bad
    end
  else if String.eqb name "files_transferred" then
    match v with
    | VInt z =>
        Ok (mkProgressData (transferred_str p) (total_str p)
              (overall_percentage p) (overall_speed p) (overall_eta p) z
              (total_files p) (transferring_files p))
    | _ => bad
    end
  else if String.eqb name "total_files" then
    match v with
    | VInt z =>
        Ok (mkProgressData (transferred_str p) (total_str p)
              (overall_percentage p) (overall_speed p) (overall_eta p)
              (files_transferred p) z (transferring_files p))
    | _ => bad
    end
  else if String.eqb name "transferring_files" then
    match v with
    | VFiles l =>
        Ok (mkProgressData (transferred_str p) (total_str p)
              (overall_percentage p) (overall_speed p) (overall_eta p)
              (files_transferred p) (total_files p) l)
    | _ => bad
    end
  else Raise (ValueError "Got unexpected field names").

Fixpoint set_fields (p : ProgressData) (kwds : list (string * pyval))
  : result ProgressData :=
  match kwds with
  | [] => Ok p
  | kv :: rest => p' <- set_field p kv ;; set_fields p' rest
  end.

(** [p._replace] with keywords [kwds], on a named tuple: the fields named are
    replaced, and a keyword that names no field is a [ValueError]. *)
Definition _replace (p : ProgressData) (kwds : list (string * pyval))
  : result ProgressData :=
  match filter (fun kv => negb (existsb (String.eqb (fst kv)) _fields)) kwds
  with
  | [] => set_fields p kwds
  | _ :: _ => Raise (ValueError "Got unexpected field names")
  end.

(** Regex patterns for parsing rclone output. *)

(* Transferred:\s+([\d.]+\s+\w+)\s+/\s+([\d.]+\s+\w+),\s+(\d+)%,\s+([\d.]+\s+\w+/s),\s+ETA\s+(.+) *)
Definition TRANSFERRED_PATTERN : regex :=
  lit "Transferred:" ++
  [ Atom (One CSpace) Plus;
    Open 1; Atom (OneOf [CDigit; CChar "."]) Plus; Atom (One CSpace) Plus;
            Atom (One CWord) Plus; Close 1;
    Atom (One CSpace) Plus ] ++ lit "/" ++
  [ Atom (One CSpace) Plus;
    Open 2; Atom (OneOf [CDigit; CChar "."]) Plus; Atom (One CSpace) Plus;
            Atom (One CWord) Plus; Close 2 ] ++ lit "," ++
  [ Atom (One CSpace) Plus;
    Open 3; Atom (One CDigit) Plus; Close 3 ] ++ lit "%," ++
  [ Atom (One CSpace) Plus;
    Open 4; Atom (OneOf [CDigit; CChar "."]) Plus; Atom (One CSpace) Plus;
            Atom (One CWord) Plus ] ++ lit "/s" ++ [ Close 4 ] ++ lit "," ++
  [ Atom (One CSpace) Plus ] ++ lit "ETA" ++
  [ Atom (One CSpace) Plus;
    Open 5; Atom (One CAny) Plus; Close 5 ].

(* Transferred:\s+(\d+)\s+/\s+(\d+),\s+\d+% *)
Definition FILES_PATTERN : regex :=
  lit "Transferred:" ++
  [ Atom (One CSpace) Plus;
    Open 1; Atom (One CDigit) Plus; Close 1;
    Atom (One CSpace) Plus ] ++ lit "/" ++
  [ Atom (One CSpace) Plus;
    Open 2; Atom (One CDigit) Plus; Close 2 ] ++ lit "," ++
  [ Atom (One CSpace) Plus; Atom (One CDigit) Plus ] ++ lit "%".

(* \*\s+(.+?):\s+(\d+)%\s+/([\d.]+\w+),\s+([\d.]+\s*\w+/s),\s+(.+) *)
Definition TRANSFERRING_PATTERN : regex :=
  lit "*" ++
  [ Atom (One CSpace) Plus;
    Open 1; Atom (One CAny) PlusLazy; Close 1 ] ++ lit ":" ++
  [ Atom (One CSpace) Plus;
    Open 2; Atom (One CDigit) Plus; Close 2 ] ++ lit "%" ++
  [ Atom (One CSpace) Plus ] ++ lit "/" ++
  [ Open 3; Atom (OneOf [CDigit; CChar "."]) Plus; Atom (One CWord) Plus;
    Close 3 ] ++ lit "," ++
  [ Atom (One CSpace) Plus;
    Open 4; Atom (OneOf [CDigit; CChar "."]) Plus; Atom (One CSpace) Star;
            Atom (One CWord) Plus ] ++ lit "/s" ++ [ Close 4 ] ++ lit "," ++
  [ Atom (One CSpace) Plus;
    Open 5; Atom (One CAny) Plus; Close 5 ].

(** Parse a single line from rclone log and update progress data. *)
Definition parse_progress_line (line : string)
  (current_data : option ProgressData) : result (option ProgressData) :=
  let current_data :=
    match current_data with
    | None => ProgressData_default
    | Some d => d
    end in
  let line := PyStr.strip line in
  (* Try to match the transferred bytes line *)
  match search TRANSFERRED_PATTERN line with
  | Some m =>
      pct <- PyStr.int (group m 3) ;;
      d <- _replace current_data
             [ ("transferred_str", VStr (group m 1));
               ("total_str", VStr (group m 2));
               ("overall_percentage", VInt pct);
               ("overall_speed", VStr (group m 4));
               ("overall_eta", VStr (group m 5)) ] ;;
      Ok (Some d)
  | None =>
  (* Try to match the files transferred line *)
  match search FILES_PATTERN line with
  | Some m =>
      done <- PyStr.int (group m 1) ;;
      total <- PyStr.int (group m 2) ;;
      d <- _replace current_data
             [ ("files_transferred", VInt done);
               ("total_files", VInt total) ] ;;
      Ok (Some d)
  | None =>
  (* Try to match the current file transfer line *)
  match search TRANSFERRING_PATTERN line with
  | Some m =>
      pct <- PyStr.int (group m 2) ;;
      d <- _replace current_data
             [ ("current_file", VStr (PyStr.strip (group m 1)));
               ("file_percentage", VInt pct);
               ("file_size", VStr (group m 3));
               ("file_speed", VStr (group m 4));
               ("file_eta", VStr (PyStr.strip (group m 5))) ] ;;
      Ok (Some d)
  | None =>
      (* Line didn't match any pattern *)
      Ok None
  end end end.

(** The variables of the loop of [parse_log_content]. *)
Record loop_state : Type := mkLoop {
  progress : ProgressData;
  found_any : bool;
  files : list FileProgress   (* the local [transferring_files] *)
}.

(** One turn of the [while] loop, on the line at index [i]. *)
Definition loop_body (st : loop_state) (raw : string) : result loop_state :=
  let line := PyStr.strip raw in
  (* Try to match the transferred bytes line *)
  match search TRANSFERRED_PATTERN line with
  | Some m =>
      pct <- PyStr.int (group m 3) ;;
      p <- _replace (progress st)
             [ ("transferred_str", VStr (group m 1));
               ("total_str", VStr (group m 2));
               ("overall_percentage", VInt pct);
               ("overall_speed", VStr (group m 4));
               ("overall_eta", VStr (group m 5)) ] ;;
      Ok (mkLoop p true (files st))
  | None =>
  (* Try to match the files transferred line *)
  match search FILES_PATTERN line with
  | Some m =>
      done <- PyStr.int (group m 1) ;;
      total <- PyStr.int (group m 2) ;;
      p <- _replace (progress st)
             [ ("files_transferred", VInt done);
               ("total_files", VInt total) ] ;;
      Ok (mkLoop p true (files st))
  | None =>
  (* Check for "Transferring:" section header *)
  if PyStr.startswith "Transferring:" line
     || PyStr.contains "Transferring:" line
  then
    (* Clear previous transferring files when we see a new section *)
    Ok (mkLoop (progress st) (found_any st) [])
  else
  (* Try to match individual file transfer lines *)
  match search TRANSFERRING_PATTERN line with
  | Some m =>
      pct <- PyStr.int (group m 2) ;;
      let file_progress :=
        mkFileProgress (PyStr.strip (group m 1)) pct (group m 3)
          (group m 4) (PyStr.strip (group m 5)) in
      (* Remove any existing entry with same filename first *)
      let kept :=
        filter (fun f => negb (String.eqb (filename f)
                                 (filename file_progress))) (files st) in
      Ok (mkLoop (progress st) true (kept ++ [file_progress]))
  | None => Ok st
  end end end.

(** The [while i < len(lines)] loop: every branch advances [i] by one. *)
Fixpoint loop (lines : list string) (st : loop_state) : result loop_state :=
  match lines with
  | [] => Ok st
  | raw :: rest => st' <- loop_body st raw ;; loop rest st'
  end.

(** Parse multiple lines from rclone log and extract the latest progress. *)
Definition parse_log_content (content : string)
  : result (option ProgressData) :=
  let lines := PyStr.splitlines content in
  st <- loop lines (mkLoop ProgressData_default false []) ;;
  (* Update progress with the collected transferring files *)
  p <- match files st with
       | [] => Ok (progress st)
       | _ :: _ =>
           _replace (progress st) [ ("transferring_files", VFiles (files st)) ]
       end ;;
  Ok (if found_any st then Some p else None).

(** *** Reading the log file *)

(** What [open(log_path, 'r')] finds at a path. *)
Inductive file : Type :=
| Absent                          (* FileNotFoundError *)
| Unreadable                      (* any other error on opening *)
| Content (data : list Byte.byte).

(** Text mode translates the line endings on reading: a carriage return,
    alone or followed by a line feed, becomes one line feed. *)
Fixpoint universal_newlines (s : string) : string :=
  match s with
  | EmptyString => EmptyString
  | String c s' =>
      if PyStr.code c =? 13 then
        String (ascii_of_nat 10)
          match s' with
          | String c' s'' =>
              if PyStr.code c' =? 10 then universal_newlines s''
              else universal_newlines s'
          | EmptyString => EmptyString
          end
      else String c (universal_newlines s')
  end.

(** The positions of a file are [off_t] values: below 2^63. *)
Definition off_t_limit : Z := 2 ^ 63.

Section Tail.
(** The file system, and the decoder of the text layer ([None] when the
    bytes are not valid in the encoding of the locale). *)
Variable fs : string -> file.
Variable codec : list Byte.byte -> option string.
(** From 2^63 on an integer is not a plain offset for the text layer:
    [f.seek] takes its low 64 bits for the position and the bits above for
    a state of the decoder to restore, or raises. What [f.seek], [f.read]
    and [f.tell] then give on the bytes of the file depends on the decoder
    and is left open: [restore last_position data] is the pair that the
    function returns there. *)
Variable restore : Z -> list Byte.byte -> string * Z.

(** Read new content from a log file since last position. [f.read()]
    takes every byte from the position to the end of the file and
    [f.tell()] is then the position reached; seeking past the end is
    allowed and reads nothing. The size of a file is an [off_t] as well:
    [data] of 2^63 bytes or more is the content of no file, and the model
    answers as for a file that cannot be read. *)
Definition tail_log_file (log_path : string) (last_position : Z)
  : string * Z :=
  match fs log_path with
  | Content data =>
      if (off_t_limit <=? Z.of_nat (List.length data))%Z then
        ("", last_position)
      else if (last_position <? 0)%Z then
        (* f.seek raises ValueError, caught by [except Exception] *)
        ("", last_position)
      else if (off_t_limit <=? last_position)%Z then
        restore last_position data
      else
        let raw := skipn (Z.to_nat last_position) data in
        match codec raw with
        | Some text =>
            let new_content := universal_newlines text in
            let new_position :=
              (last_position + Z.of_nat (List.length raw))%Z in
            (new_content, new_position)
        | None =>
            (* UnicodeDecodeError, caught by [except Exception] *)
            ("", last_position)
        end
  | Absent =>
      (* Log file doesn't exist yet *)
      ("", last_position)
  | Unreadable => ("", last_position)
  end.
End Tail.

(** The Latin-1 decoder: each byte is the character of the same code. *)
Definition latin1 (raw : list Byte.byte) : option string :=
  Some (string_of_list_byte raw).

End ProgressParser.

(* ------------------------------------------------------------------ *)
(** ** rclone_wrapper.py *)

Module RcloneWrapper.

(** Represents a file or directory entry. *)
Record FileEntry : Type := mkFileEntry {
  name : string;
  path : string;
  size : Z;
  modified : string;
  is_dir : bool;
  mime_type : string
}.

(** [subprocess.CompletedProcess], as far as the wrapper reads it. *)
Record CompletedProcess : Type := mkCompleted {
  returncode : Z;
  stdout : string;
  stderr : string
}.

(** What [json.loads] returns. *)
#[local] Set Warnings "-register-all".
Inductive json : Type :=
| JNull
| JBool (b : bool)
| JInt (z : Z)
| JFloat (text : string)
| JStr (s : string)
| JArr (items : list json)
| JObj (members : list (string * json)).

(** What [FileEntry(...)] holds when the comprehension of [list_directory]
    builds it of a listed item: the six values as they were decoded, of
    whatever JSON type, since a NamedTuple does not check its fields.
    [FileEntry] above is the entry whose fields have the annotated types,
    those that rclone writes. *)
Record ListedEntry : Type := mkListed {
  listed_name : json;
  listed_path : json;
  listed_size : json;
  listed_modified : json;
  listed_is_dir : json;
  listed_mime_type : json
}.

(** [extra_flags.split()]: the words between runs of white space. *)
Fixpoint split_go (s : string) (cur : list ascii) : list string :=
  let flush :=
    match cur with
    | [] => []
    | _ => [string_of_list_ascii (rev cur)]
    end in
  match s with
  | EmptyString => flush
  | String c s' =>
      if PyStr.isspace c then flush ++ split_go s' []
      else split_go s' (c :: cur)
  end.

Definition split (s : string) : list string := split_go s [].

(** Truth value of an optional string: false for [None] and for [""]. *)
Definition truthy (o : option string) : bool :=
  match o with
  | Some (String _ _) => true
  | _ => false
  end.

(** [d.get(key, default)] on a decoded object; of two members with one
    key the decoder keeps the later. *)
Fixpoint dict_get (members : list (string * json)) (key : string)
  (default : json) : json :=
  match members with
  | [] => default
  | (k, v) :: rest =>
      if existsb (fun kv => String.eqb (fst kv) key) rest
      then dict_get rest key default
      else if String.eqb k key then v else default
  end.

Section Wrapper.
(** The external tool: what running a command line gives, or the error
    of starting it. *)
Variable subprocess_run : list string -> result CompletedProcess.
(** The JSON decoder, [json.loads]: the value decoded, or the error it
    raises, which is a [JSONDecodeError] on a text that it finds malformed
    and can be of another class (a [ValueError] on a number of more than
    4300 digits, a [RecursionError] on a nesting too deep). *)
Variable json_loads : string -> result json.

(** Run an rclone command. *)
Definition run_rclone_command (rclone_path : string)
  (config_path : option string) (args : list string)
  (extra_flags : string) : result CompletedProcess :=
  let cmd := [rclone_path] in
  let cmd :=
    if truthy config_path
    then cmd ++ ["--config"; match config_path with
                             | Some c => c
                             | None => ""
                             end]
    else cmd in
  (* Add extra flags if provided *)
  let cmd :=
    match extra_flags with
    | String _ _ => cmd ++ split extra_flags
    | EmptyString => cmd
    end in
  let cmd := cmd ++ args in
  subprocess_run cmd.

(** The body of the comprehension: [entry.get] exists on objects only,
    and gives the member or the default, unchecked. *)
Definition entry_of_json (entry : json) : result ListedEntry :=
  match entry with
  | JObj members =>
      Ok (mkListed (dict_get members "Name" (JStr ""))
            (dict_get members "Path" (JStr ""))
            (dict_get members "Size" (JInt 0))
            (dict_get members "ModTime" (JStr ""))
            (dict_get members "IsDir" (JBool false))
            (dict_get members "MimeType" (JStr "")))
  | _ => Raise (AttributeError "object has no attribute 'get'")
  end.

Fixpoint entries_of_items (items : list json)
  : result (list ListedEntry) :=
  match items with
  | [] => Ok []
  | entry :: rest =>
      e <- entry_of_json entry ;;
      es <- entries_of_items rest ;;
      Ok (e :: es)
  end.

(** [for entry in entries] over whatever was decoded: an array gives its
    items, an object its keys, a string its characters; the rest is not
    iterable. *)
Definition iterate (entries : json) : result (list json) :=
  match entries with
  | JArr items => Ok items
  | JObj members => Ok (map (fun kv => JStr (fst kv)) members)
  | JStr s =>
      Ok (map (fun c => JStr (String c EmptyString))
            (list_ascii_of_string s))
  | _ => Raise (TypeError "object is not iterable")
  end.

(** List files and directories in a remote path. *)
Definition list_directory (rclone_path : string)
  (config_path : option string) (remote : string) (path : string)
  (extra_flags : string) : result (list ListedEntry) :=
  let remote_path :=
    match path with
    | String _ _ => (remote ++ ":" ++ path)%string
    | EmptyString => (remote ++ ":")%string
    end in
  res <- run_rclone_command rclone_path config_path
           ["lsjson"; "--no-mimetype"; "--no-modtime"; remote_path]
           extra_flags ;;
  if negb (returncode res =? 0)%Z then Ok []
  else
    match json_loads (stdout res) with
    | Ok entries =>
        items <- iterate entries ;;
        entries_of_items items
    | Raise (JSONDecodeError _) => Ok []    (* except json.JSONDecodeError *)
    | Raise e => Raise e
    end.

(** Get size information for a directory using rclone size --json. *)
Definition get_directory_size (rclone_path : string)
  (config_path : option string) (path : string) (extra_flags : string)
  : result (option json) :=
  res <- run_rclone_command rclone_path config_path
           ["size"; "--json"; path] extra_flags ;;
  if negb (returncode res =? 0)%Z then Ok None
  else
    match json_loads (stdout res) with
    | Ok size_info =>
        (* the debug line reads size_info.get('count') *)
        match size_info with
        | JObj _ => Ok (Some size_info)
        | _ => Raise (AttributeError "object has no attribute 'get'")
        end
    | Raise (JSONDecodeError _) => Ok None    (* except json.JSONDecodeError *)
    | Raise e => Raise e
    end.
End Wrapper.

(** *** Log retention *)

(** One name in the logs directory: what [os.path.getmtime] gives for it
    ([None] when it raises) and whether [os.remove] succeeds on it. The
    time is compared, never computed with. *)
Record dirent : Type := mkDirent {
  d_name : string;
  d_mtime : option Z;
  d_removable : bool
}.

(** The logs directory, in the order of [os.listdir]; [None] when the path
    does not exist. *)
Definition directory : Type := option (list dirent).

(** [log_files.sort(key=lambda x: x[1], reverse=True)]: newest first, and
    of two files with one time the one listed first stays first. *)
Fixpoint insert_desc (x : string * Z) (l : list (string * Z))
  : list (string * Z) :=
  match l with
  | [] => [x]
  | y :: l' =>
      if (snd x <? snd y)%Z then y :: insert_desc x l' else x :: l
  end.

Definition sort_desc (l : list (string * Z)) : list (string * Z) :=
  fold_right insert_desc [] l.

(** [l[k:]] for any integer [k]. *)
Definition slice_from {A : Type} (k : Z) (l : list A) : list A :=
  if (0 <=? k)%Z then skipn (Z.to_nat k) l
  else skipn (Z.to_nat (Z.max 0 (Z.of_nat (List.length l) + k))) l.

(** Get all .log files in the directory with their modification time;
    [None] when a [getmtime] raises. *)
Fixpoint collect_logs (entries : list dirent)
  : option (list (string * Z)) :=
  match entries with
  | [] => Some []
  | e :: rest =>
      if PyStr.endswith ".log" (d_name e) then
        match d_mtime e with
        | Some mtime =>
            match collect_logs rest with
            | Some l => Some ((d_name e, mtime) :: l)
            | None => None
            end
        | None => None
        end
      else collect_logs rest
  end.

(** [os.remove(filepath)] inside its [try]: the entry goes when the
    removal succeeds, and stays (the failure is logged) when it does not. *)
Definition remove (filename : string) (entries : list dirent)
  : list dirent :=
  filter (fun e => negb (String.eqb (d_name e) filename
                         && d_removable e)) entries.

(** Clean up old rclone log files, keeping only the most recent ones. The
    result is the directory afterwards. *)
Definition cleanup_old_logs (logs_dir : directory) (keep_count : Z)
  : directory :=
  match logs_dir with
  | None => None
  | Some entries =>
      match collect_logs entries with
      | Some log_files =>
          let log_files := sort_desc log_files in
          Some (fold_left (fun dir f => remove (fst f) dir)
                  (slice_from keep_count log_files) entries)
      | None => Some entries    (* the outer [except Exception] *)
      end
  end.

End RcloneWrapper.

(* ------------------------------------------------------------------ *)
(** ** main.py: the copy queue *)

Module Main.
Import RcloneWrapper.

(** [os.path.join(a, b)] with the POSIX separator. *)
Definition os_path_join (a b : string) : string :=
  if PyStr.startswith "/" b then b
  else
    match a with
    | EmptyString => b
    | _ => if PyStr.endswith "/" a then (a ++ b)%string
           else (a ++ "/" ++ b)%string
    end.

(** Build a full rclone path. *)
Definition build_path (remote current_path filename : string) : string :=
  match filename with
  | String _ _ =>
      (remote ++ ":" ++ os_path_join current_path filename)%string
  | EmptyString => (remote ++ ":" ++ current_path)%string
  end.

(** A panel, as the queue reads it: [panel.remote] and
    [panel.file_list.current_path]. *)
Record FilePanel : Type := mkPanel {
  remote : string;
  current_path : string
}.

(** [str(n)] for a length. *)
Definition str_of_nat (n : nat) : string :=
  NilEmpty.string_of_uint (Nat.to_uint n).

(** What the queue does to the outside, in order: each event is one call.
    [UpdateStatus] is the call of [update_status], the status interface of
    the application (its body in main.py is empty since the status bar was
    removed). *)
Inductive event : Type :=
| PushProgressModal (title : string) (total : nat)
| CleanupOldLogs (logs_dir : string)
| UpdateProgress (filename : string) (file_num : nat)
| RunRcloneWithProgress (args : list string)
| StartMonitor (file_num : nat)
| StopMonitor
| PopScreen
| CleanupPartialFile (dst_path filename : string) (is_directory : bool)
| RefreshPanel (panel : FilePanel)
| UpdateStatus (message : string).

(** How the call of the coroutine ends. *)
Inductive outcome : Type :=
| Returned
| Raised (e : exn).

(** How the user's cancellation comes to one item: it is visible from
    the check numbered [seen_at] on, and the call of
    [_cleanup_partial_file] that the queue then makes ends as
    [cleanup_ends] says (it raises when its listing of the destination
    raises). *)
Record cancellation : Type := mkCancel {
  seen_at : nat;
  cleanup_ends : outcome
}.

(** What happens to the process of one item: starting it fails, or it
    runs, answers [None] to [pending] polls and then exits with
    [exit_code]; [cancel_seen] is the cancellation, if there is one. *)
Inductive behaviour : Type :=
| LaunchFails (e : exn)
| Runs (cancel_seen : option cancellation) (pending : nat) (exit_code : Z).

Definition cancelled (cancel_seen : option cancellation) (check : nat)
  : bool :=
  match cancel_seen with
  | Some c => seen_at c <=? check
  | None => false
  end.

(** How the call of the cleaner ends in the cancellation branch. *)
Definition cleanup_outcome (cancel_seen : option cancellation) : outcome :=
  match cancel_seen with
  | Some c => cleanup_ends c
  | None => Returned
  end.

(** The [while return_code is None] loop: [true] when it leaves through
    the cancellation branch, [false] when the process has exited. *)
Fixpoint poll_loop (cancel_seen : option cancellation)
  (pending check : nat) : bool :=
  if cancelled cancel_seen check then true
  else
    match pending with
    | O => false
    | S pending' => poll_loop cancel_seen pending' (S check)
    end.

Section Copy.
(** The behaviour of the process of each item, by its number from 1. *)
Variable world : nat -> behaviour.
Variables src_panel dst_panel : FilePanel.

(** The arguments of the command that copies one entry. *)
Definition copy_args (entry : FileEntry) : list string :=
  let src_path :=
    build_path (remote src_panel) (current_path src_panel) (name entry) in
  (* For directories, include the dir name in destination; for files,
     just use the destination directory *)
  let dst_path :=
    if is_dir entry
    then build_path (remote dst_panel) (current_path dst_panel)
           (name entry)
    else build_path (remote dst_panel) (current_path dst_panel) "" in
  ["copy"; src_path; dst_path].

(** The [for i, entry in enumerate(entries, 1)] loop and what follows
    it; [total] is [len(entries)] of the whole queue. *)
Fixpoint copy_loop (total i : nat) (entries : list FileEntry)
  : list event * outcome :=
  match entries with
  | [] =>
      (* Success - dismiss modal *)
      ([ PopScreen;
         UpdateStatus ("Copied " ++ str_of_nat total ++ " item(s)")%string;
         RefreshPanel dst_panel ], Returned)
  | entry :: rest =>
      let partial_file_path :=
        build_path (remote dst_panel) (current_path dst_panel)
          (name entry) in
      let started :=
        [ UpdateProgress (name entry) i;
          RunRcloneWithProgress (copy_args entry) ] in
      match world i with
      | LaunchFails e =>
          (* except Exception: pop_screen(); raise *)
          (started ++ [ PopScreen ], Raised e)
      | Runs cancel_seen pending return_code =>
          let started := started ++ [ StartMonitor i ] in
          if poll_loop cancel_seen pending 0 then
            let dismissed :=
              started ++
              [ StopMonitor; PopScreen;
                CleanupPartialFile partial_file_path (name entry)
                  (is_dir entry) ] in
            match cleanup_outcome cancel_seen with
            | Returned =>
                (dismissed ++
                 [ RefreshPanel dst_panel;
                   UpdateStatus "Copy cancelled" ], Returned)
            | Raised e =>
                (* except Exception: pop_screen(); raise *)
                (dismissed ++ [ PopScreen ], Raised e)
            end
          else if negb (return_code =? 0)%Z then
            (started ++
             [ StopMonitor; PopScreen; RefreshPanel dst_panel;
               UpdateStatus ("Failed to copy " ++ name entry)%string ],
             Returned)
          else
            let (later, out) := copy_loop total (S i) rest in
            (started ++ [ StopMonitor ] ++ later, out)
      end
  end.

(** Perform the actual copy operation with real-time progress. *)
Definition _do_copy_operation_async (entries : list FileEntry)
  : list event * outcome :=
  let (trace, out) := copy_loop (List.length entries) 1 entries in
  ([ PushProgressModal "Copying Files" (List.length entries);
     CleanupOldLogs "logs" ] ++ trace, out).
End Copy.

(** The commands started, and the status messages, of a run. *)
Definition launched (trace : list event) : list (list string) :=
  flat_map (fun ev => match ev with
                      | RunRcloneWithProgress args => [args]
                      | _ => []
                      end) trace.

Definition statuses (trace : list event) : list string :=
  flat_map (fun ev => match ev with
                      | UpdateStatus message => [message]
                      | _ => []
                      end) trace.

End Main.

(* ------------------------------------------------------------------ *)
(** ** Vocabulary of the properties *)

Module Vocabulary.
Import Re ProgressParser.

(** Every character of [s] satisfies [f]. *)
Fixpoint all_chars (f : ascii -> bool) (s : string) : bool :=
  match s with
  | EmptyString => true
  | String c s' => f c && all_chars f s'
  end.

(** Group [n] is opened or closed by the node. *)
Definition node_mentions (n : nat) (x : node) : bool :=
  match x with
  | Open m | Close m => m =? n
  | Atom _ _ => false
  end.

Definition mentions (n : nat) (prog : regex) : bool :=
  existsb (node_mentions n) prog.

(** Group [n] of [prog] is written [(\d+)], and [n] names no other
    parenthesis of [prog]. *)
Fixpoint digit_group (n : nat) (prog : regex) : bool :=
  match prog with
  | [] => false
  | x :: k =>
      if node_mentions n x then
        match x, k with
        | Open _, Atom (One CDigit) Plus :: Close n' :: post =>
            (n' =? n) && negb (mentions n post)
        | _, _ => false
        end
      else digit_group n k
  end.

(** The branch of the loop of [parse_log_content] that a line takes. *)
Inductive kind : Type :=
| KOverall                       (* an overall-transferred line *)
| KFiles                         (* a files-count line *)
| KHeader                        (* a Transferring: section header *)
| KFile (fp : FileProgress)      (* a per-file line, with what it says *)
| KOther.                        (* anything else *)

Definition classify (raw : string) : kind :=
  let line := PyStr.strip raw in
  match search TRANSFERRED_PATTERN line with
  | Some _ => KOverall
  | None =>
  match search FILES_PATTERN line with
  | Some _ => KFiles
  | None =>
  if PyStr.startswith "Transferring:" line
     || PyStr.contains "Transferring:" line
  then KHeader
  else
  match search TRANSFERRING_PATTERN line with
  | Some m =>
      match PyStr.int (group m 2) with
      | Ok pct =>
          KFile (mkFileProgress (PyStr.strip (group m 1)) pct (group m 3)
                   (group m 4) (PyStr.strip (group m 5)))
      | Raise _ => KOther
      end
  | None => KOther
  end end end.

(** No number that the branch taken by a line hands to [int] has more
    digits than [int] converts. *)
Definition converts (raw : string) : bool :=
  let line := PyStr.strip raw in
  let fits := fun digits : string =>
    String.length digits <=? PyStr.int_max_str_digits in
  match search TRANSFERRED_PATTERN line with
  | Some m => fits (group m 3)
  | None =>
  match search FILES_PATTERN line with
  | Some m => fits (group m 1) && fits (group m 2)
  | None =>
  if PyStr.startswith "Transferring:" line
     || PyStr.contains "Transferring:" line
  then true
  else
  match search TRANSFERRING_PATTERN line with
  | Some m => fits (group m 2)
  | None => true
  end end end.

(** The line sets [found_any]. *)
Definition recognized (k : kind) : bool :=
  match k with
  | KOverall | KFiles | KFile _ => true
  | KHeader | KOther => false
  end.

Definition is_header (k : kind) : bool :=
  match k with
  | KHeader => true
  | _ => false
  end.


(** Two entries are about one file. *)
Definition same_file (f g : FileProgress) : bool :=
  String.eqb (filename f) (filename g).

(** What the per-file lines with no header after them say, in order. *)
Fixpoint file_lines (ks : list kind) : list FileProgress :=
  match ks with
  | [] => []
  | k :: rest =>
      if existsb is_header rest then file_lines rest
      else
        match k with
        | KFile fp => fp :: file_lines rest
        | _ => file_lines rest
        end
  end.

(** Of the entries about one file only the last is kept, in place. *)
Fixpoint keep_last (l : list FileProgress) : list FileProgress :=
  match l with
  | [] => []
  | f :: rest =>
      if existsb (same_file f) rest then keep_last rest
      else f :: keep_last rest
  end.

(** How a line changes the local list [transferring_files]. *)
Definition step_files (fs : list FileProgress) (k : kind)
  : list FileProgress :=
  match k with
  | KHeader => []
  | KFile fp =>
      filter (fun f => negb (String.eqb (filename f) (filename fp))) fs
      ++ [fp]
  | _ => fs
  end.

(** The kinds of the lines of a chunk. *)
Definition kinds (content : string) : list kind :=
  map classify (PyStr.splitlines content).

(** A chunk with these lines, a line feed between two of them. *)
Definition unlines (ls : list string) : string :=
  String.concat (String (ascii_of_nat 10) "") ls.

(** The process of item [i] exits with status [code], and the poll loop of
    the queue sees no cancellation before it does. *)
Definition exits_with (world : nat -> Main.behaviour) (i : nat) (code : Z)
  : Prop :=
  exists cancel_seen pending,
    world i = Main.Runs cancel_seen pending code
    /\ Main.poll_loop cancel_seen pending 0 = false.

(** The name is that of a log file. *)
Definition is_log (e : RcloneWrapper.dirent) : bool :=
  PyStr.endswith ".log" (RcloneWrapper.d_name e).

(** The modification time [t] is later than that of [e]. *)
Definition older_than (t : Z) (e : RcloneWrapper.dirent) : bool :=
  match RcloneWrapper.d_mtime e with
  | Some te => (te <? t)%Z
  | None => false
  end.

(** How many log files of the directory were modified after [e]. *)
Definition newer_logs (entries : list RcloneWrapper.dirent)
  (e : RcloneWrapper.dirent) : nat :=
  List.length
    (filter (fun x => is_log x
                      && match RcloneWrapper.d_mtime x with
                         | Some tx => older_than tx e
                         | None => false
                         end) entries).

(** The pair that [cleanup_old_logs] keeps of a log file. *)
Definition log_key (e : RcloneWrapper.dirent) : string * Z :=
  (RcloneWrapper.d_name e,
   match RcloneWrapper.d_mtime e with
   | Some t => t
   | None => 0%Z
   end).

(** How many pairs of [l] have a later time than [x]. *)
Definition newer_keys (l : list (string * Z)) (x : string * Z) : nat :=
  List.length (filter (fun y => (snd x <? snd y)%Z) l).

(** [a] is strictly newer than [b]. *)
Definition newer_first (a b : string * Z) : Prop := (snd b < snd a)%Z.

(** The log files of a directory as [cleanup_old_logs] sorts them. *)
Definition sorted_logs (entries : list RcloneWrapper.dirent)
  : list (string * Z) :=
  RcloneWrapper.sort_desc (map log_key (filter is_log entries)).

(** [e] is a log file among the [keep] most recently modified ones. *)
Definition among_newest (keep : Z) (entries : list RcloneWrapper.dirent)
  (e : RcloneWrapper.dirent) : bool :=
  (Z.of_nat (newer_logs entries e) <? keep)%Z.

End Vocabulary.

(* ------------------------------------------------------------------ *)
(** ** More string and path primitives of Python *)

Module PyPath.

(** [s.rstrip(c)] for a one-character argument. *)
Fixpoint rstrip_char (c : ascii) (s : string) : string :=
  match s with
  | EmptyString => EmptyString
  | String a s' =>
      match rstrip_char c s' with
      | EmptyString => if Ascii.eqb a c then EmptyString else String a EmptyString
      | t => String a t
      end
  end.

(** [s.split(sep)] for a one-character separator: never empty. *)
Fixpoint split_on (sep : ascii) (s : string) : list string :=
  match s with
  | EmptyString => [EmptyString]
  | String a s' =>
      if Ascii.eqb a sep then EmptyString :: split_on sep s'
      else
        match split_on sep s' with
        | part :: parts => String a part :: parts
        | [] => [String a EmptyString]
        end
  end.

(** [s.split(sep, 1)]: cut at the first separator only. *)
Fixpoint split_once (sep : ascii) (s : string) : list string :=
  match s with
  | EmptyString => [EmptyString]
  | String a s' =>
      if Ascii.eqb a sep then [EmptyString; s']
      else
        match split_once sep s' with
        | part :: parts => String a part :: parts
        | [] => [String a EmptyString]
        end
  end.

(** [sep.join(parts)]. *)
Definition join (sep : string) (parts : list string) : string :=
  String.concat sep parts.

(** [c in s] for a character. *)
Fixpoint has_char (c : ascii) (s : string) : bool :=
  match s with
  | EmptyString => false
  | String a s' => Ascii.eqb a c || has_char c s'
  end.

(** [s[:s.rfind(c) + 1]]: up to the last [c], included. *)
Fixpoint upto_last (c : ascii) (s : string) : string :=
  match s with
  | EmptyString => EmptyString
  | String a s' =>
      if has_char c s' then String a (upto_last c s')
      else if Ascii.eqb a c then String a EmptyString
      else EmptyString
  end.

Fixpoint all_are (c : ascii) (s : string) : bool :=
  match s with
  | EmptyString => true
  | String a s' => Ascii.eqb a c && all_are c s'
  end.

(** [os.path.dirname(p)] with the POSIX separator. *)
Definition dirname (p : string) : string :=
  let head := upto_last "/" p in
  match head with
  | EmptyString => head
  | _ => if all_are "/" head then head else rstrip_char "/" head
  end.

End PyPath.

(* ------------------------------------------------------------------ *)
(** ** rclone_wrapper.py: the one-shot commands and the launcher *)

Module Commands.
Import RcloneWrapper.

Section OneShot.
Variable subprocess_run : list string -> result CompletedProcess.

(** Copy a file or directory using rclone. *)
Definition copy_file (rclone_path : string) (config_path : option string)
  (source dest extra_flags : string) : result bool :=
  res <- run_rclone_command subprocess_run rclone_path config_path
           ["copy"; source; dest] extra_flags ;;
  Ok (returncode res =? 0)%Z.

(** Move a file or directory using rclone. *)
Definition move_file (rclone_path : string) (config_path : option string)
  (source dest extra_flags : string) : result bool :=
  res <- run_rclone_command subprocess_run rclone_path config_path
           ["move"; source; dest] extra_flags ;;
  Ok (returncode res =? 0)%Z.

(** Delete a file or directory using rclone. *)
Definition delete_file (rclone_path : string) (config_path : option string)
  (path : string) (is_dir : bool) (extra_flags : string) : result bool :=
  let cmd := if is_dir then ["purge"; path] else ["delete"; path] in
  res <- run_rclone_command subprocess_run rclone_path config_path cmd
           extra_flags ;;
  Ok (returncode res =? 0)%Z.

(** Create a directory. *)
Definition make_directory (rclone_path : string)
  (config_path : option string) (path extra_flags : string) : result bool :=
  res <- run_rclone_command subprocess_run rclone_path config_path
           ["mkdir"; path] extra_flags ;;
  Ok (returncode res =? 0)%Z.
End OneShot.

(** The name of the log file of a launch: [timestamp] is what
    [datetime.now().strftime] gives at the call. *)
Definition log_filename (args : list string) (timestamp : string) : string :=
  let operation :=
    match args with
    | a :: _ => a
    | [] => "operation"
    end in
  ("rclone_" ++ operation ++ "_" ++ timestamp ++ ".log")%string.

Section Launch.
Variable process : Type.
(** [os.makedirs(path, exist_ok=True)]: done, or its error. *)
Variable makedirs : string -> result unit.
(** [subprocess.Popen] on a command line: the process, or the error of
    starting it. *)
Variable popen : list string -> result process.

(** Run an rclone command with progress logging; [timestamp] is the time
    of the call, as [strftime] writes it. *)
Definition run_rclone_with_progress (rclone_path : string)
  (config_path : option string) (args : list string)
  (extra_flags stats_interval timestamp : string)
  : result (process * string) :=
  (* Create logs directory if it doesn't exist *)
  let logs_dir := "logs" in
  _ <- makedirs logs_dir ;;
  let log_path := Main.os_path_join logs_dir (log_filename args timestamp) in
  let cmd := [rclone_path] in
  let cmd :=
    if truthy config_path
    then cmd ++ ["--config"; match config_path with
                             | Some c => c
                             | None => ""
                             end]
    else cmd in
  let cmd :=
    match extra_flags with
    | String _ _ => cmd ++ split extra_flags
    | EmptyString => cmd
    end in
  (* Add progress-specific flags *)
  let cmd :=
    cmd ++ [ "--stats"; stats_interval; "--log-file"; log_path;
             "--log-level"; "INFO"; "--no-update-modtime" ] in
  let cmd := cmd ++ args in
  p <- popen cmd ;;
  Ok (p, log_path).
End Launch.

End Commands.

(* ------------------------------------------------------------------ *)
(** ** main.py: the progress monitor *)

Module Monitor.
Import ProgressParser.

(** What the monitor asks of the application, in order. *)
Inductive monitor_event : Type :=
| UpdateFromProgressData (progress_data : ProgressData) (file_num : nat)
| RefreshApp.

(** What one turn of the loop sees: the stop event at the test of the
    loop, and the file system at the read. *)
Record cycle : Type := mkCycle {
  stop_is_set : bool;
  files_now : string -> file
}.

(** How the observation ends: the stop event was set, the monitor gave
    up waiting for the log, or the turns observed are over and the loop
    is still going. *)
Inductive ending : Type :=
| Stopped
| GaveUp
| StillRunning.

Definition max_wait : nat := 10.

Section Loop.
Variable codec : list Byte.byte -> option string.
Variable restore : Z -> list Byte.byte -> string * Z.
Variable log_path : string.
Variable file_num : nat.

(** The [while not stop_event.is_set()] loop, one element of [cycles] for
    each turn. The two calls into the application are taken to return. An
    exception of the parser is caught, logged, and the loop goes on. *)
Fixpoint monitor_loop (cycles : list cycle) (last_position : Z)
  (wait_count : nat) : list monitor_event * (ending * Z) :=
  match cycles with
  | [] => ([], (StillRunning, last_position))
  | c :: rest =>
      if stop_is_set c then ([], (Stopped, last_position))
      else
        (* Read new content from log file *)
        let (new_content, last_position) :=
          tail_log_file (files_now c) codec restore log_path
            last_position in
        match new_content with
        | String _ _ =>
            (* Reset wait counter if we got data *)
            let wait_count := 0 in
            match parse_log_content new_content with
            | Ok (Some progress_data) =>
                let (events, fin) :=
                  monitor_loop rest last_position wait_count in
                (UpdateFromProgressData progress_data file_num
                 :: RefreshApp :: events, fin)
            | Ok None => monitor_loop rest last_position wait_count
            | Raise _ => monitor_loop rest last_position wait_count
            end
        | EmptyString =>
            (* No new content - check if we should keep waiting *)
            let wait_count := S wait_count in
            if (max_wait <? wait_count) && (last_position =? 0)%Z
            then ([], (GaveUp, last_position))
            else monitor_loop rest last_position wait_count
        end
  end.

(** Monitor rclone log file and update progress modal. *)
Definition monitor_progress_log (cycles : list cycle)
  : list monitor_event * (ending * Z) :=
  monitor_loop cycles 0 0.
End Loop.

End Monitor.

(* ------------------------------------------------------------------ *)
(** ** main.py: going up, and the move and delete queues *)

Module Browser.
Import RcloneWrapper Main.

(** Navigate up one directory level. *)
Definition navigate_up (current_path : string) : string :=
  let parts := PyPath.split_on "/" (PyPath.rstrip_char "/" current_path) in
  if 1 <? List.length parts then PyPath.join "/" (removelast parts)
  else "".

(** The directory name remembered on going up: [dir_parts[-1]]. *)
Definition last_dir_entered (current_path : string) : string :=
  last (PyPath.split_on "/" (PyPath.rstrip_char "/" current_path)) "".

Section Move.
Variable world : nat -> behaviour.
Variables src_panel dst_panel : FilePanel.

(** The arguments of the command that moves one entry. *)
Definition move_args (entry : FileEntry) : list string :=
  let src_path :=
    build_path (remote src_panel) (current_path src_panel) (name entry) in
  let dst_path :=
    if is_dir entry
    then build_path (remote dst_panel) (current_path dst_panel)
           (name entry)
    else build_path (remote dst_panel) (current_path dst_panel) "" in
  ["move"; src_path; dst_path].

Fixpoint move_loop (total i : nat) (entries : list FileEntry)
  : list event * outcome :=
  match entries with
  | [] =>
      ([ PopScreen;
         UpdateStatus ("Moved " ++ str_of_nat total ++ " item(s)")%string;
         RefreshPanel src_panel; RefreshPanel dst_panel ], Returned)
  | entry :: rest =>
      let partial_file_path :=
        build_path (remote dst_panel) (current_path dst_panel)
          (name entry) in
      let started :=
        [ UpdateProgress (name entry) i;
          RunRcloneWithProgress (move_args entry) ] in
      match world i with
      | LaunchFails e => (started ++ [ PopScreen ], Raised e)
      | Runs cancel_seen pending return_code =>
          let started := started ++ [ StartMonitor i ] in
          if poll_loop cancel_seen pending 0 then
            let dismissed :=
              started ++
              [ StopMonitor; PopScreen;
                CleanupPartialFile partial_file_path (name entry)
                  (is_dir entry) ] in
            match cleanup_outcome cancel_seen with
            | Returned =>
                (dismissed ++
                 [ RefreshPanel src_panel; RefreshPanel dst_panel;
                   UpdateStatus "Move cancelled" ], Returned)
            | Raised e =>
                (* except Exception: pop_screen(); raise *)
                (dismissed ++ [ PopScreen ], Raised e)
            end
          else if negb (return_code =? 0)%Z then
            (started ++
             [ StopMonitor; PopScreen;
               RefreshPanel src_panel; RefreshPanel dst_panel;
               UpdateStatus ("Failed to move " ++ name entry)%string ],
             Returned)
          else
            let (later, out) := move_loop total (S i) rest in
            (started ++ [ StopMonitor ] ++ later, out)
      end
  end.

(** Perform the actual move operation with real-time progress. *)
Definition _do_move_operation_async (entries : list FileEntry)
  : list event * outcome :=
  let (trace, out) := move_loop (List.length entries) 1 entries in
  ([ PushProgressModal "Moving Files" (List.length entries);
     CleanupOldLogs "logs" ] ++ trace, out).
End Move.

(** What the delete queue does to the outside, in order. [DeleteFile] is
    the call of [rclone_wrapper.delete_file]. *)
Inductive delete_event : Type :=
| DPushProgressModal (title : string) (total : nat)
| DUpdateProgress (filename : string) (file_num : nat)
| DeleteFile (file_path : string) (is_dir : bool)
| DPopScreen
| DUpdateStatus (message : string)
| DRefreshPanel
| DMoveCursor (row : Z).

Section Delete.
Variable subprocess_run : list string -> result CompletedProcess.
Variable rclone_path : string.
Variable config_path : option string.
Variable extra_flags : string.
(** The active panel, the row of the cursor before the deletion, and the
    number of rows of the list once the panel is refreshed. *)
Variable active_panel : FilePanel.
Variable old_cursor_row : Z.
Variable row_count : Z.

Fixpoint delete_loop (total i : nat) (entries : list FileEntry)
  : list delete_event * option outcome :=
  match entries with
  | [] =>
      (* Success - dismiss modal; what follows the [try] comes next *)
      ([ DPopScreen;
         DUpdateStatus ("Deleted " ++ str_of_nat total ++ " item(s)")%string ],
       None)
  | entry :: rest =>
      let file_path :=
        build_path (remote active_panel) (current_path active_panel)
          (name entry) in
      let started :=
        [ DUpdateProgress (name entry) i;
          DeleteFile file_path (is_dir entry) ] in
      match Commands.delete_file subprocess_run rclone_path config_path
              file_path (is_dir entry) extra_flags with
      | Raise e => (started ++ [ DPopScreen ], Some (Raised e))
      | Ok false =>
          (started ++
           [ DPopScreen;
             DUpdateStatus ("Failed to delete " ++ name entry)%string ],
           Some Returned)
      | Ok true =>
          let (later, out) := delete_loop total (S i) rest in
          (started ++ later, out)
      end
  end.

(** Perform the actual delete operation. *)
Definition _do_delete_operation (entries : list FileEntry)
  : list delete_event * outcome :=
  let (trace, out) := delete_loop (List.length entries) 1 entries in
  let trace := DPushProgressModal "Deleting Files" (List.length entries)
               :: trace in
  match out with
  | Some o => (trace, o)
  | None =>
      (* Refresh panel, then restore the cursor *)
      (trace ++ DRefreshPanel ::
         (if (0 <? row_count)%Z
          then [ DMoveCursor (Z.min old_cursor_row (row_count - 1)) ]
          else []),
       Returned)
  end.
End Delete.

End Browser.

(* ------------------------------------------------------------------ *)
(** ** main.py: the partial files left by a cancelled transfer *)

Module Partial.
Import RcloneWrapper Main.

(** What a scan meets: the answer of [list_directory] for a directory,
    an error or entries whose fields have the annotated types, and, beside
    each entry that is a directory, the answer for that directory, and so
    on; beside a file the answer is not asked for. A scan that ends is such
    a tree. *)
#[local] Unset Elimination Schemes.
Inductive listing : Type :=
| Fails (e : exn)
| Lists (items : list (FileEntry * listing)).
#[local] Set Elimination Schemes.

(** Recursively find all .partial files in a directory: the pairs of the
    name and the full rclone path of each. An error of a listing is caught
    and the directory gives nothing. *)
Fixpoint _find_partial_files_recursive (remote dir_path : string)
  (scan : listing) : list (string * string) :=
  match scan with
  | Fails _ => []
  | Lists items =>
      flat_map
        (fun item =>
           match item with
           | (entry, sub) =>
               if is_dir entry then
                 (* Recursively search subdirectories *)
                 let subdir_path :=
                   match dir_path with
                   | String _ _ => os_path_join dir_path (name entry)
                   | EmptyString => name entry
                   end in
                 _find_partial_files_recursive remote subdir_path sub
               else if PyStr.endswith ".partial" (name entry) then
                 (* Found a partial file *)
                 let file_path :=
                   match dir_path with
                   | String _ _ => os_path_join dir_path (name entry)
                   | EmptyString => name entry
                   end in
                 [(name entry, (remote ++ ":" ++ file_path)%string)]
               else []
           end) items
  end.

(** What the cleaner does to the outside, in order. *)
Inductive cleanup_event : Type :=
| CPushConfirmation (title : string) (count : nat)
| CDeleteFile (path : string) (is_dir : bool)
| CUpdateStatus (message : string).

Section Cleanup.
Variable subprocess_run : list string -> result CompletedProcess.
Variable json_loads : string -> result json.
Variable rclone_path : string.
Variable config_path : option string.
Variable extra_flags : string.
(** What the scan of the destination meets, for a directory. *)
Variable scan : listing.
(** The answer of the user to the confirmation; [None] when the modal is
    dismissed without one. *)
Variable confirmed : option bool.

(** Find partial files matching pattern: filename.*.partial. A name that
    is not a string has no [startswith]. *)
Fixpoint matching_partial_files (remote dir_path filename : string)
  (entries : list ListedEntry) : result (list (string * string)) :=
  match entries with
  | [] => Ok []
  | entry :: rest =>
      match listed_name entry with
      | JStr entry_name =>
          found <- matching_partial_files remote dir_path filename rest ;;
          Ok ((if PyStr.startswith (filename ++ ".") entry_name
                  && PyStr.endswith ".partial" entry_name
               then
                 [(entry_name,
                   match dir_path with
                   | String _ _ =>
                       (remote ++ ":"
                        ++ os_path_join dir_path entry_name)%string
                   | EmptyString => (remote ++ ":" ++ entry_name)%string
                   end)]
               else []) ++ found)
      | _ => Raise (AttributeError "object has no attribute 'startswith'")
      end
  end.

(** For file copies, look for partial files in the same directory. *)
Definition partial_files_beside (remote full_path filename : string)
  : result (list (string * string)) :=
  let dir_path :=
    match full_path with
    | String _ _ => PyPath.dirname full_path
    | EmptyString => ""
    end in
  entries <- list_directory subprocess_run json_loads rclone_path
               config_path remote dir_path extra_flags ;;
  matching_partial_files remote dir_path filename entries.

(** The loop of [handle_cleanup] and the status that follows it. *)
Fixpoint handle_cleanup_loop (partial_files : list (string * string))
  (deleted_count : nat) : list cleanup_event * outcome :=
  match partial_files with
  | [] =>
      ([ CUpdateStatus
           (if 0 <? deleted_count
            then ("Deleted " ++ str_of_nat deleted_count
                  ++ " partial file(s)")%string
            else "Failed to delete partial files") ], Returned)
  | (_, partial_path) :: rest =>
      match Commands.delete_file subprocess_run rclone_path config_path
              partial_path false extra_flags with
      | Raise e => ([ CDeleteFile partial_path false ], Raised e)
      | Ok success =>
          let (later, out) :=
            handle_cleanup_loop rest
              (if success then S deleted_count else deleted_count) in
          (CDeleteFile partial_path false :: later, out)
      end
  end.

Definition handle_cleanup (partial_files : list (string * string))
  : list cleanup_event * outcome :=
  match confirmed with
  | Some true => handle_cleanup_loop partial_files 0
  | _ => ([], Returned)    (* the user chose to keep the partial files *)
  end.

(** Ask user if they want to delete the partial file after cancellation.
    The result is what the call and then the callback of the confirmation
    do, and how they end. *)
Definition _cleanup_partial_file (file_path : option string)
  (filename : string) (is_directory : bool)
  : list cleanup_event * outcome :=
  match file_path with
  | None | Some EmptyString => ([], Returned)
  | Some file_path =>
      (* Format: remote:path/to/file or remote: *)
      match PyPath.split_once ":" file_path with
      | [remote; full_path] =>
          let found :=
            if is_directory
            then Ok (_find_partial_files_recursive remote full_path scan)
            else partial_files_beside remote full_path filename in
          match found with
          | Raise e => ([], Raised e)
          | Ok [] => ([], Returned)
          | Ok partial_files =>
              let (trace, out) := handle_cleanup partial_files in
              (CPushConfirmation "Delete Partial File"
                 (List.length partial_files) :: trace, out)
          end
      | _ => ([], Returned)
      end
  end.
End Cleanup.

End Partial.

(* ------------------------------------------------------------------ *)
(** ** main.py: the selection of a file list *)

Module Selection.
Import RcloneWrapper.

(** What the two methods read and write of a [FileListView]. The set
    [selected_items] is kept as the list of its members: the methods ask
    whether it is empty and whether a name is in it, add a name that is not
    in it and remove one that is. *)
Record FileListView : Type := mkView {
  entries : list FileEntry;
  selected_items : list string;
  cursor_row : Z;
  current_path : string
}.

(** [name in self.selected_items]. *)
Definition is_selected (selected : list string) (name : string) : bool :=
  existsb (String.eqb name) selected.

Definition set_add (name : string) (selected : list string) : list string :=
  name :: selected.

Definition set_remove (name : string) (selected : list string)
  : list string :=
  filter (fun n => negb (String.eqb name n)) selected.

(** [1 if self.current_path else 0]: the row of the parent directory. *)
Definition offset (v : FileListView) : Z :=
  match current_path v with
  | String _ _ => 1
  | EmptyString => 0
  end.

Definition with_selected (v : FileListView) (selected : list string)
  : FileListView :=
  mkView (entries v) selected (cursor_row v) (current_path v).

(** Toggle selection of current item. *)
Definition toggle_selection (v : FileListView) : FileListView :=
  match entries v with
  | [] => v
  | _ =>
  if (cursor_row v <? 0)%Z then v
  else
    (* Don't allow selection on the parent row *)
    if negb (String.eqb (current_path v) "") && (cursor_row v =? 0)%Z then v
    else
      let actual_index := (cursor_row v - offset v)%Z in
      if (actual_index <? 0)%Z
         || (Z.of_nat (List.length (entries v)) <=? actual_index)%Z
      then v
      else
        match nth_error (entries v) (Z.to_nat actual_index) with
        | Some entry =>
            if is_selected (selected_items v) (name entry)
            then with_selected v (set_remove (name entry) (selected_items v))
            else with_selected v (set_add (name entry) (selected_items v))
        | None => v    (* not reached: the index is within the list *)
        end
  end.

(** Get all selected entries, or current entry if none selected. *)
Definition get_selected_entries (v : FileListView) : list FileEntry :=
  match selected_items v with
  | _ :: _ =>
      filter (fun e => is_selected (selected_items v) (name e)) (entries v)
  | [] =>
      (* If nothing selected, return current entry *)
      match entries v with
      | [] => []
      | _ =>
      if (cursor_row v <? 0)%Z then []
      else
        let actual_index := (cursor_row v - offset v)%Z in
        if (0 <=? actual_index)%Z
           && (actual_index <? Z.of_nat (List.length (entries v)))%Z
        then
          match nth_error (entries v) (Z.to_nat actual_index) with
          | Some entry => [entry]
          | None => []    (* not reached: the index is within the list *)
          end
        else []
      end
  end.

End Selection.

(* ------------------------------------------------------------------ *)
(** ** Vocabulary of the further properties *)

Module Vocabulary2.

(** The characters of [s] that are not white space. *)
Fixpoint without_spaces (s : string) : string :=
  match s with
  | EmptyString => EmptyString
  | String c s' =>
      if PyStr.isspace c then without_spaces s'
      else String c (without_spaces s')
  end.

(** The events of a queue that show or dismiss the progress modal. *)
Definition is_push (ev : Main.event) : bool :=
  match ev with
  | Main.PushProgressModal _ _ => true
  | _ => false
  end.

Definition is_pop (ev : Main.event) : bool :=
  match ev with
  | Main.PopScreen => true
  | _ => false
  end.

(** The events of a queue that start or stop a monitor. *)
Definition is_monitor_event (ev : Main.event) : bool :=
  match ev with
  | Main.StartMonitor _ | Main.StopMonitor => true
  | _ => false
  end.

(** The commands the delete queue asks for, and its status messages. *)
Definition deletions (trace : list Browser.delete_event)
  : list (string * bool) :=
  flat_map (fun ev => match ev with
                      | Browser.DeleteFile p d => [(p, d)]
                      | _ => []
                      end) trace.

Definition delete_statuses (trace : list Browser.delete_event)
  : list string :=
  flat_map (fun ev => match ev with
                      | Browser.DUpdateStatus m => [m]
                      | _ => []
                      end) trace.

Definition is_refresh (ev : Browser.delete_event) : bool :=
  match ev with
  | Browser.DRefreshPanel => true
  | _ => false
  end.

(** The rows to which the delete queue moves the cursor. *)
Definition cursor_moves (trace : list Browser.delete_event) : list Z :=
  flat_map (fun ev => match ev with
                      | Browser.DMoveCursor row => [row]
                      | _ => []
                      end) trace.

(** What the delete queue deletes for an entry of a panel, and what the
    call of [delete_file] for it gives. *)
Definition delete_target (panel : Main.FilePanel)
  (entry : RcloneWrapper.FileEntry) : string * bool :=
  (Main.build_path (Main.remote panel) (Main.current_path panel)
     (RcloneWrapper.name entry),
   RcloneWrapper.is_dir entry).

Definition delete_result
  (subprocess_run : list string -> result RcloneWrapper.CompletedProcess)
  (rclone_path : string) (config_path : option string)
  (extra_flags : string) (panel : Main.FilePanel)
  (entry : RcloneWrapper.FileEntry) : result bool :=
  Commands.delete_file subprocess_run rclone_path config_path
    (fst (delete_target panel entry)) (snd (delete_target panel entry))
    extra_flags.

(** The monitor is started for item [first], stopped, started for the
    next item, stopped, and so on for [count] items. *)
Definition monitor_turns (first count : nat) : list Main.event :=
  flat_map (fun i => [Main.StartMonitor i; Main.StopMonitor])
    (seq first count).

(** The command of a copy, with the verb of a move. *)
Definition as_move (args : list string) : list string :=
  "move" :: tl args.

(** The paths that the cleaner asks to delete. *)
Definition cleaned (trace : list Partial.cleanup_event)
  : list (string * bool) :=
  flat_map (fun ev => match ev with
                      | Partial.CDeleteFile p d => [(p, d)]
                      | _ => []
                      end) trace.

(** The confirmations that the cleaner asks for. *)
Definition confirmations (trace : list Partial.cleanup_event) : list nat :=
  flat_map (fun ev => match ev with
                      | Partial.CPushConfirmation _ n => [n]
                      | _ => []
                      end) trace.

(** The selection holds the same names. *)
Definition same_names (a b : list string) : Prop :=
  forall name, Selection.is_selected a name = Selection.is_selected b name.

End Vocabulary2.

(* ------------------------------------------------------------------ *)
(** ** Facts about the matcher *)

Module ReFacts.
Import Re Vocabulary.
Local Open Scope string_scope.

Lemma append_assoc (a b c : string) : (a ++ b) ++ c = a ++ b ++ c.
Proof. induction a; simpl; congruence. Qed.

Lemma length_append (a b : string) :
  String.length (a ++ b) = String.length a + String.length b.
Proof. induction a; simpl; congruence. Qed.

Lemma substring_middle (a b c : string) :
  substring (String.length a) (String.length b) (a ++ b ++ c) = b.
Proof.
  induction a as [|x a IH]; simpl.
  - induction b as [|y b IHb]; simpl.
    + destruct c; reflexivity.
    + now rewrite IHb.
  - exact IH.
Qed.

Section Repeat.
Context {R : Type}.
Variable a : atom.
Variable cont : string -> nat -> option R.

(** A repetition that succeeds has consumed characters of its class,
    at least one when one is needed, and then run its continuation. *)
Lemma rep_greedy_inv (s : string) :
  forall pos need r,
    rep_greedy a cont s pos need = Some r ->
    exists pre s',
      s = pre ++ s'
      /\ all_chars (atom_matches a) pre = true
      /\ (need = true -> pre <> "")
      /\ cont s' (pos + String.length pre) = Some r.
Proof.
  induction s as [|c s IH]; intros pos need r H; simpl in H.
  - destruct need; [discriminate|].
    exists "", ""; repeat split; auto; try discriminate.
    now rewrite Nat.add_0_r.
  - destruct (atom_matches a c) eqn:Hc.
    + destruct (rep_greedy a cont s (S pos) false) as [r'|] eqn:Hr.
      * injection H as <-.
        destruct (IH _ _ _ Hr) as (pre & s' & -> & Hall & _ & Hk).
        exists (String c pre), s'; repeat split; simpl.
        -- now rewrite Hc, Hall.
        -- discriminate.
        -- now rewrite <- Hk; f_equal; lia.
      * destruct need; [discriminate|].
        exists "", (String c s); repeat split; auto; try discriminate.
        now rewrite Nat.add_0_r.
    + destruct need; [discriminate|].
      exists "", (String c s); repeat split; auto; try discriminate.
      now rewrite Nat.add_0_r.
Qed.

Lemma rep_lazy_inv (s : string) :
  forall pos need r,
    rep_lazy a cont s pos need = Some r ->
    exists pre s',
      s = pre ++ s'
      /\ all_chars (atom_matches a) pre = true
      /\ (need = true -> pre <> "")
      /\ cont s' (pos + String.length pre) = Some r.
Proof.
  induction s as [|c s IH]; intros pos need r H.
  - simpl in H. destruct need; [discriminate|].
    destruct (cont "" pos) eqn:Hk; [|discriminate].
    injection H as <-.
    exists "", ""; repeat split; auto; try discriminate.
    now rewrite Nat.add_0_r.
  - assert (Hmore :
      (if atom_matches a c then rep_lazy a cont s (S pos) false else None)
      = Some r ->
      exists pre s',
        String c s = pre ++ s'
        /\ all_chars (atom_matches a) pre = true
        /\ (need = true -> pre <> "")
        /\ cont s' (pos + String.length pre) = Some r).
    { intros Hm. destruct (atom_matches a c) eqn:Hc; [|discriminate].
      destruct (IH _ _ _ Hm) as (pre & s' & -> & Hall & _ & Hk).
      exists (String c pre), s'; repeat split; simpl.
      - now rewrite Hc, Hall.
      - discriminate.
      - now rewrite <- Hk; f_equal; lia. }
    simpl in H. destruct need; [now apply Hmore|].
    destruct (cont (String c s) pos) eqn:Hk.
    + injection H as <-.
      exists "", (String c s); repeat split; auto; try discriminate.
      now rewrite Nat.add_0_r.
    + now apply Hmore.
Qed.
End Repeat.

(** One node of a successful match: the characters it took, and the run
    of the rest of the pattern after it. *)
Lemma exec_cons (x : node) (k : regex) (s : string) (pos : nat)
  (st : marks) (res : nat * marks) :
  exec (x :: k) s pos st = Some res ->
  exists pre s',
    s = pre ++ s'
    /\ exec k s' (pos + String.length pre)
         match x with
         | Open n => mark_open n pos st
         | Close n => mark_close n pos st
         | Atom _ _ => st
         end = Some res
    /\ match x with
       | Atom a q =>
           all_chars (atom_matches a) pre = true
           /\ match q with
              | Plus | PlusLazy => pre <> ""
              | _ => True
              end
       | _ => pre = ""
       end.
Proof.
  intros H. destruct x as [a q|n|n]; simpl in H.
  - destruct q.
    + destruct s as [|c s]; [discriminate|].
      destruct (atom_matches a c) eqn:Hc; [|discriminate].
      exists (String c ""), s; repeat split; simpl.
      * now rewrite <- H; f_equal; lia.
      * now rewrite Hc.
    + apply rep_greedy_inv in H.
      destruct H as (pre & s' & -> & Hall & Hne & Hk).
      exists pre, s'; repeat split; auto.
    + apply rep_greedy_inv in H.
      destruct H as (pre & s' & -> & Hall & Hne & Hk).
      exists pre, s'; repeat split; auto.
    + apply rep_lazy_inv in H.
      destruct H as (pre & s' & -> & Hall & Hne & Hk).
      exists pre, s'; repeat split; auto.
    + apply rep_lazy_inv in H.
      destruct H as (pre & s' & -> & Hall & Hne & Hk).
      exists pre, s'; repeat split; auto.
  - exists "", s; repeat split; auto. now rewrite Nat.add_0_r.
  - exists "", s; repeat split; auto. now rewrite Nat.add_0_r.
Qed.

(** A pattern leaves the span of a group it does not mention alone. *)
Lemma exec_spans_other (n : nat) (prog : regex) :
  forall s pos st e st',
    mentions n prog = false ->
    exec prog s pos st = Some (e, st') ->
    assoc n (spans st') = assoc n (spans st).
Proof.
  induction prog as [|x k IH]; intros s pos st e st' Hm H.
  - simpl in H. now injection H as _ <-.
  - unfold mentions in Hm. simpl in Hm.
    apply orb_false_iff in Hm as [Hx Hk].
    apply exec_cons in H. destruct H as (pre & s' & _ & H & _).
    apply IH in H; [|exact Hk]. rewrite H.
    destruct x as [a q|m|m]; simpl in *; auto.
    unfold mark_close. destruct (assoc m (opened st)); simpl; auto.
    now rewrite Hx.
Qed.

(** The text of a group written [(\d+)] in a match: digits, at least one. *)
Lemma exec_digit_group (n : nat) (prog : regex) :
  forall s pos st e st',
    digit_group n prog = true ->
    exec prog s pos st = Some (e, st') ->
    exists skipped digits rest,
      s = skipped ++ digits ++ rest
      /\ digits <> ""
      /\ all_chars PyStr.isdecimal digits = true
      /\ assoc n (spans st')
         = Some (pos + String.length skipped,
                 pos + String.length skipped + String.length digits).
Proof.
  induction prog as [|x k IH]; intros s pos st e st' Hg H;
    [discriminate|].
  simpl in Hg. destruct (node_mentions n x) eqn:Hx.
  - destruct x as [a q|m|m]; try discriminate.
    destruct k as [|[[[]|] []|m1|m1] [|[a2 q2|m2|m2] post]];
      try discriminate.
    simpl in Hx. apply Nat.eqb_eq in Hx. subst m.
    apply andb_true_iff in Hg as [Hn Hpost].
    apply Nat.eqb_eq in Hn. subst m2.
    apply negb_true_iff in Hpost.
    apply exec_cons in H. destruct H as (p0 & s0 & -> & H & ->).
    apply exec_cons in H. destruct H as (digits & s1 & -> & H & Hall & Hne).
    apply exec_cons in H. destruct H as (p2 & s2 & -> & H & ->).
    apply (exec_spans_other n) in H; [|exact Hpost].
    exists "", digits, s2. simpl. repeat split; auto.
    rewrite H. unfold mark_close, mark_open. simpl.
    rewrite Nat.eqb_refl. simpl. rewrite Nat.eqb_refl.
    f_equal. f_equal; lia.
  - apply exec_cons in H. destruct H as (pre & s' & -> & H & _).
    destruct (IH _ _ _ _ _ Hg H)
      as (skipped & digits & rest & -> & Hne & Hall & Hsp).
    exists (pre ++ skipped), digits, rest. repeat split; auto.
    + now rewrite append_assoc.
    + rewrite Hsp, length_append. f_equal. f_equal; lia.
Qed.

Lemma found_digit_group (n : nat) (prog : regex) (whole s prefix : string)
  (e : nat) (st : marks) :
  digit_group n prog = true ->
  whole = prefix ++ s ->
  exec prog s (String.length prefix) no_marks = Some (e, st) ->
  let m := mkMatch whole (String.length prefix) e st in
  group m n <> "" /\ all_chars PyStr.isdecimal (group m n) = true.
Proof.
  intros Hg Hw He m.
  destruct (exec_digit_group _ _ _ _ _ _ _ Hg He)
    as (skipped & digits & rest & Hs & Hne & Hall & Hsp).
  subst s whole. unfold group, m. simpl. rewrite Hsp.
  replace (String.length prefix + String.length skipped
           + String.length digits
           - (String.length prefix + String.length skipped))
    with (String.length digits) by lia.
  rewrite <- append_assoc, <- length_append, substring_middle.
  now split.
Qed.

Lemma search_from_digit_group (n : nat) (prog : regex) (whole : string) :
  forall s prefix m,
    digit_group n prog = true ->
    whole = prefix ++ s ->
    search_from prog whole s (String.length prefix) = Some m ->
    group m n <> "" /\ all_chars PyStr.isdecimal (group m n) = true.
Proof.
  induction s as [|c s IH]; intros prefix m Hg Hw H; simpl in H.
  - destruct (exec prog "" (String.length prefix) no_marks)
      as [[e st]|] eqn:He; [|discriminate].
    injection H as <-. now apply (found_digit_group n prog whole "" prefix).
  - destruct (exec prog (String c s) (String.length prefix) no_marks)
      as [[e st]|] eqn:He.
    + injection H as <-.
      now apply (found_digit_group n prog whole (String c s) prefix).
    + apply (IH (prefix ++ String c "") m Hg).
      * now rewrite Hw, append_assoc.
      * rewrite length_append. simpl.
        now replace (String.length prefix + 1) with (S (String.length prefix))
          by lia.
Qed.

Lemma digits_value_some (s : string) :
  forall acc,
    all_chars PyStr.isdecimal s = true ->
    exists z, PyStr.digits_value s acc = Some z.
Proof.
  induction s as [|c s IH]; intros acc H; simpl in *.
  - now exists acc.
  - apply andb_true_iff in H as [Hc Hs]. rewrite Hc. now apply IH.
Qed.

(** On a group written [(\d+)], [int] raises only at the limit on the
    number of digits. *)
Lemma int_of_digit_group (n : nat) (prog : regex) (line : string)
  (m : re_match) :
  digit_group n prog = true ->
  search prog line = Some m ->
  exists z,
    PyStr.int (group m n)
    = if (String.length (group m n) <=? PyStr.int_max_str_digits)%nat
      then Ok z else Raise PyStr.limit_error.
Proof.
  intros Hg H. unfold search in H.
  destruct (search_from_digit_group n prog line line "" m Hg)
    as [Hne Hall]; auto.
  destruct (digits_value_some _ 0%Z Hall) as [z Hz].
  exists z. unfold PyStr.int. rewrite Hz.
  destruct (group m n) as [|c s] eqn:E; [contradiction|].
  rewrite Nat.ltb_antisym.
  now destruct (String.length (String c s) <=? PyStr.int_max_str_digits)%nat.
Qed.

End ReFacts.

(* ------------------------------------------------------------------ *)
(** ** Facts about the parser *)

Module ParserFacts.
Import Re ProgressParser Vocabulary ReFacts.

(** The three patterns are what their source texts denote. *)
Lemma transferred_pattern_text :
  ReSyntax.compile
    "Transferred:\s+([\d.]+\s+\w+)\s+/\s+([\d.]+\s+\w+),\s+(\d+)%,\s+([\d.]+\s+\w+/s),\s+ETA\s+(.+)"
  = Some TRANSFERRED_PATTERN.
Proof. reflexivity. Qed.

Lemma files_pattern_text :
  ReSyntax.compile "Transferred:\s+(\d+)\s+/\s+(\d+),\s+\d+%"
  = Some FILES_PATTERN.
Proof. reflexivity. Qed.

Lemma transferring_pattern_text :
  ReSyntax.compile
    "\*\s+(.+?):\s+(\d+)%\s+/([\d.]+\w+),\s+([\d.]+\s*\w+/s),\s+(.+)"
  = Some TRANSFERRING_PATTERN.
Proof. reflexivity. Qed.

Lemma digit_group_transferred : digit_group 3 TRANSFERRED_PATTERN = true.
Proof. reflexivity. Qed.

Lemma digit_group_files_1 : digit_group 1 FILES_PATTERN = true.
Proof. reflexivity. Qed.

Lemma digit_group_files_2 : digit_group 2 FILES_PATTERN = true.
Proof. reflexivity. Qed.

Lemma digit_group_transferring : digit_group 2 TRANSFERRING_PATTERN = true.
Proof. reflexivity. Qed.

(** The three calls of [_replace] in [parse_log_content] name fields. *)
Lemma replace_overall (p : ProgressData) (a b : string) (z : Z)
  (c d : string) :
  _replace p [ ("transferred_str", VStr a); ("total_str", VStr b);
               ("overall_percentage", VInt z); ("overall_speed", VStr c);
               ("overall_eta", VStr d) ]
  = Ok (mkProgressData a b z c d (files_transferred p) (total_files p)
          (transferring_files p)).
Proof. reflexivity. Qed.

Lemma replace_files (p : ProgressData) (x y : Z) :
  _replace p [ ("files_transferred", VInt x); ("total_files", VInt y) ]
  = Ok (mkProgressData (transferred_str p) (total_str p)
          (overall_percentage p) (overall_speed p) (overall_eta p) x y
          (transferring_files p)).
Proof. reflexivity. Qed.

Lemma replace_transferring (p : ProgressData) (l : list FileProgress) :
  _replace p [ ("transferring_files", VFiles l) ]
  = Ok (mkProgressData (transferred_str p) (total_str p)
          (overall_percentage p) (overall_speed p) (overall_eta p)
          (files_transferred p) (total_files p) l).
Proof. reflexivity. Qed.

(** One turn of the loop raises only at the limit of [int], and otherwise
    does to the list of files and to [found_any] what the kind of its line
    says. *)
Lemma loop_body_spec (st : loop_state) (raw : string) :
  if converts raw then
    exists st',
      loop_body st raw = Ok st'
      /\ files st' = step_files (files st) (classify raw)
      /\ found_any st' = found_any st || recognized (classify raw)
      /\ transferring_files (progress st')
         = transferring_files (progress st)
  else loop_body st raw = Raise PyStr.limit_error.
Proof.
  unfold loop_body, classify, converts.
  destruct (search TRANSFERRED_PATTERN (PyStr.strip raw)) as [m|] eqn:E1.
  { destruct (int_of_digit_group 3 _ _ _ digit_group_transferred E1)
      as [z Hz].
    rewrite Hz.
    destruct (String.length (group m 3) <=? PyStr.int_max_str_digits);
      [|reflexivity].
    unfold bind at 1. rewrite replace_overall. unfold bind.
    eexists; repeat split; simpl. now rewrite orb_true_r. }
  destruct (search FILES_PATTERN (PyStr.strip raw)) as [m|] eqn:E2.
  { destruct (int_of_digit_group 1 _ _ _ digit_group_files_1 E2) as [x Hx].
    destruct (int_of_digit_group 2 _ _ _ digit_group_files_2 E2) as [y Hy].
    rewrite Hx, Hy.
    destruct (String.length (group m 1) <=? PyStr.int_max_str_digits);
      [|reflexivity].
    destruct (String.length (group m 2) <=? PyStr.int_max_str_digits);
      [|reflexivity].
    unfold bind at 1. unfold bind at 1.
    rewrite replace_files. unfold bind.
    eexists; repeat split; simpl. now rewrite orb_true_r. }
  destruct (PyStr.startswith "Transferring:" (PyStr.strip raw)
            || PyStr.contains "Transferring:" (PyStr.strip raw)).
  { eexists; repeat split; simpl. now rewrite orb_false_r. }
  destruct (search TRANSFERRING_PATTERN (PyStr.strip raw)) as [m|] eqn:E3.
  { destruct (int_of_digit_group 2 _ _ _ digit_group_transferring E3)
      as [z Hz].
    rewrite Hz.
    destruct (String.length (group m 2) <=? PyStr.int_max_str_digits);
      [|reflexivity].
    unfold bind.
    eexists; repeat split; simpl. now rewrite orb_true_r. }
  exists st; repeat split; simpl. now rewrite orb_false_r.
Qed.

Lemma loop_spec (lines : list string) :
  forall st,
  if forallb converts lines then
    exists st',
      loop lines st = Ok st'
      /\ files st' = fold_left step_files (map classify lines) (files st)
      /\ found_any st'
         = found_any st || existsb recognized (map classify lines)
      /\ transferring_files (progress st')
         = transferring_files (progress st)
  else loop lines st = Raise PyStr.limit_error.
Proof.
  induction lines as [|raw rest IH]; intros st; simpl.
  - exists st; repeat split. now rewrite orb_false_r.
  - pose proof (loop_body_spec st raw) as Hb.
    destruct (converts raw); simpl.
    + destruct Hb as (st1 & H1 & Hf1 & Ha1 & Hp1).
      rewrite H1. unfold bind. specialize (IH st1).
      destruct (forallb converts rest); [|exact IH].
      destruct IH as (st2 & H2 & Hf2 & Ha2 & Hp2).
      exists st2; repeat split; auto.
      * now rewrite Hf2, Hf1.
      * now rewrite Ha2, Ha1, orb_assoc.
      * now rewrite Hp2, Hp1.
    + now rewrite Hb.
Qed.

(** *** Keeping the last entry of each file *)


Lemma keep_last_snoc (l : list FileProgress) (x : FileProgress) :
  keep_last (l ++ [x])
  = filter (fun f => negb (String.eqb (filename f) (filename x)))
      (keep_last l) ++ [x].
Proof.
  induction l as [|y l IH]; simpl; [reflexivity|].
  rewrite existsb_app. simpl. rewrite orb_false_r.
  fold (same_file y x).
  destruct (existsb (same_file y) l) eqn:Hy; simpl.
  - exact IH.
  - destruct (same_file y x) eqn:Hyx; simpl.
    + fold (same_file y x). rewrite Hyx. simpl. exact IH.
    + fold (same_file y x). rewrite Hyx. simpl. now rewrite IH.
Qed.

(** The loop keeps, of what the per-file lines after the last header say,
    the last entry of each file. *)
Lemma fold_step_files (ks : list kind) :
  forall seen,
    fold_left step_files ks (keep_last seen)
    = keep_last ((if existsb is_header ks then [] else seen)
                 ++ file_lines ks).
Proof.
  induction ks as [|k rest IH]; intros seen; simpl.
  - now rewrite app_nil_r.
  - destruct k; simpl; try (rewrite IH; now destruct (existsb is_header rest)).
    + change (@nil FileProgress) with (keep_last []). rewrite IH. simpl.
      now destruct (existsb is_header rest).
    + rewrite <- keep_last_snoc, IH.
      destruct (existsb is_header rest); [reflexivity|].
      now rewrite <- app_assoc.
Qed.

(** [parse_log_content] raises exactly when a number that it converts is
    beyond the limit of [int]; otherwise it returns a snapshot exactly when
    a line was recognized, and the snapshot lists the last entry of each
    file among the per-file lines after the last header. *)
Lemma parse_log_content_spec (content : string) :
  if forallb converts (PyStr.splitlines content) then
    exists p,
      parse_log_content content
      = Ok (if existsb recognized (kinds content) then Some p else None)
      /\ transferring_files p = keep_last (file_lines (kinds content))
  else parse_log_content content = Raise PyStr.limit_error.
Proof.
  unfold parse_log_content, kinds.
  pose proof (loop_spec (PyStr.splitlines content)
                (mkLoop ProgressData_default false [])) as Hloop.
  destruct (forallb converts (PyStr.splitlines content));
    [|now rewrite Hloop].
  destruct Hloop as (st & H & Hf & Ha & Hp).
  rewrite H. unfold bind at 1. simpl in Hf, Ha.
  change (@nil FileProgress) with (keep_last []) in Hf.
  rewrite fold_step_files in Hf.
  assert (Hfiles : files st
                   = keep_last (file_lines
                                  (map classify (PyStr.splitlines content)))).
  { rewrite Hf. now destruct (existsb is_header _). }
  rewrite Ha.
  destruct (files st) as [|f fs] eqn:Hst.
  - exists (progress st). unfold bind. split; [reflexivity|].
    (* the field still has its default, the empty tuple *)
    now rewrite <- Hfiles, Hp.
  - rewrite replace_transferring. unfold bind.
    eexists. split; [reflexivity|]. simpl. now rewrite <- Hfiles.
Qed.

(** Under the hypothesis that every number converts. *)
Lemma parse_log_content_returns (content : string) :
  Forall (fun raw => converts raw = true) (PyStr.splitlines content) ->
  exists p,
    parse_log_content content
    = Ok (if existsb recognized (kinds content) then Some p else None)
    /\ transferring_files p = keep_last (file_lines (kinds content)).
Proof.
  intros H. pose proof (parse_log_content_spec content) as Hs.
  replace (forallb converts (PyStr.splitlines content)) with true in Hs;
    [exact Hs|].
  symmetry. apply forallb_forall. rewrite Forall_forall in H. exact H.
Qed.

End ParserFacts.

(* ------------------------------------------------------------------ *)
(** ** The progress parser: properties *)

Import Re ProgressParser Vocabulary.








Lemma filter_none (A : Type) (f : A -> bool) (l : list A) :
  Forall (fun a => f a = false) l -> filter f l = [].
Proof.
  induction 1 as [|a l Ha _ IH]; simpl; [reflexivity|]. now rewrite Ha.
Qed.

Lemma existsb_false_forall (A : Type) (f : A -> bool) (l : list A) :
  existsb f l = false <-> Forall (fun a => f a = false) l.
Proof.
  induction l as [|a l IH]; simpl.
  - split; [constructor|reflexivity].
  - rewrite orb_false_iff, IH. split.
    + intros [Ha Hl]. now constructor.
    + intros H. inversion H. now split.
Qed.




(** C5: the chunk that is the single line
    [Transferred:   15.031 MiB / 233.367 MiB, 6%, 817.606 KiB/s, ETA 4m33s]
    is taken by the overall-transferred pattern, and its snapshot has
    overall_percentage 6, transferred_str "15.031 MiB", total_str
    "233.367 MiB", overall_speed "817.606 KiB/s" and overall_eta "4m33s";
    the file counts keep their default. *)
Theorem overall_line_example :
  let line :=
    "Transferred:   15.031 MiB / 233.367 MiB, 6%, 817.606 KiB/s, ETA 4m33s" in
  classify line = KOverall
  /\ parse_log_content line
     = Ok (Some (mkProgressData "15.031 MiB" "233.367 MiB" 6
                   "817.606 KiB/s" "4m33s" 0 0 [])).
Proof. split; vm_compute; reflexivity. Qed.

(** C6: the chunk that is the single line [Transferred:     0 / 1, 0%] is
    refused by the overall-transferred pattern, which is tried first, and
    taken by the files-count pattern; its snapshot has files_transferred 0
    and total_files 1. *)
Theorem files_line_example :
  let line := "Transferred:     0 / 1, 0%" in
  search TRANSFERRED_PATTERN (PyStr.strip line) = None
  /\ classify line = KFiles
  /\ exists p,
       parse_log_content line = Ok (Some p)
       /\ files_transferred p = 0%Z /\ total_files p = 1%Z.
Proof.
  split; [vm_compute; reflexivity|].
  split; [vm_compute; reflexivity|].
  exists (mkProgressData "" "" 0 "" "" 0 1 []).
  split; [vm_compute; reflexivity|]. split; reflexivity.
Qed.

(** C7: when no line of a chunk matches the overall-transferred pattern,
    the files-count pattern or the per-file pattern, [parse_log_content]
    returns [None]: there is no snapshot to overwrite an earlier one with. *)
Theorem unrecognized_chunk_gives_none (content : string) :
  Forall (fun raw =>
            search TRANSFERRED_PATTERN (PyStr.strip raw) = None
            /\ search FILES_PATTERN (PyStr.strip raw) = None
            /\ search TRANSFERRING_PATTERN (PyStr.strip raw) = None)
    (PyStr.splitlines content) ->
  parse_log_content content = Ok None.
Proof.
  intros H.
  assert (Hc : Forall (fun raw => converts raw = true)
                 (PyStr.splitlines content)).
  { eapply Forall_impl; [|exact H]. intros raw (H1 & H2 & H3).
    unfold converts. rewrite H1, H2, H3.
    now destruct (PyStr.startswith "Transferring:" (PyStr.strip raw)
                  || PyStr.contains "Transferring:" (PyStr.strip raw)). }
  destruct (ParserFacts.parse_log_content_returns content Hc)
    as (p & Hp & _).
  rewrite Hp. unfold kinds.
  replace (existsb recognized (map classify (PyStr.splitlines content)))
    with false; [reflexivity|].
  symmetry. clear Hc Hp.
  induction H as [|raw rest (H1 & H2 & H3) _ IH]; simpl; [reflexivity|].
  rewrite IH, orb_false_r. unfold classify. rewrite H1, H2, H3.
  now destruct (PyStr.startswith "Transferring:" (PyStr.strip raw)
                || PyStr.contains "Transferring:" (PyStr.strip raw)).
Qed.

Lemma unrecognized_chunk_gives_none_witness :
  parse_log_content
    (unlines [ "2025/01/01 10:00:00 INFO  : There was nothing to transfer";
               "Transferring:"; "Elapsed time:  0.5s" ])
  = Ok None.
Proof.
  apply unrecognized_chunk_gives_none.
  replace (PyStr.splitlines _)
    with [ "2025/01/01 10:00:00 INFO  : There was nothing to transfer";
           "Transferring:"; "Elapsed time:  0.5s" ]
    by (vm_compute; reflexivity).
  repeat constructor; vm_compute; reflexivity.
Defined.










(* ------------------------------------------------------------------ *)
(** ** The log cursor: properties *)




(* ------------------------------------------------------------------ *)
(** ** The wrapper: properties *)

Import RcloneWrapper.

(** C9, as stated, fails: the body that is an opening bracket and 4301
    times the digit 1 is not valid JSON, and on it [json.loads] raises the
    [ValueError] of the limit on digits, which is no [JSONDecodeError]: the
    listing and the size query raise it. *)
Lemma undecodable_body_can_raise :
  let body :=
    ("[" ++ string_of_list_ascii (repeat "1"%char 4301))%string in
  let subprocess_run := fun _ : list string =>
    Ok (mkCompleted 0 body "") in
  let json_loads := fun text : string =>
    if String.eqb text body then Raise PyStr.limit_error
    else Raise (JSONDecodeError "Expecting value") in
  list_directory subprocess_run json_loads "rclone" None "gdrive" "photos"
    "" = Raise PyStr.limit_error
  /\ get_directory_size subprocess_run json_loads "rclone" None "photos" ""
     = Raise PyStr.limit_error.
Proof.
  split; vm_compute; reflexivity.
Qed.

(** C9, amended: when the tool answers and [json.loads] raises
    [JSONDecodeError] on the body of every answer, the listing is empty and
    the size query gives nothing ([None], which the caller reads as no
    result), and neither raises; when the answers have exit status 0 and
    [json.loads] raises an error of another class on their body, the
    listing and the size query raise that error. *)
Theorem malformed_json_is_an_empty_result
  (subprocess_run : list string -> result CompletedProcess)
  (json_loads : string -> result json)
  (rclone_path : string) (config_path : option string)
  (remote path extra_flags : string) :
  (forall cmd, exists res, subprocess_run cmd = Ok res) ->
  ((forall cmd res,
       subprocess_run cmd = Ok res ->
       exists msg, json_loads (stdout res) = Raise (JSONDecodeError msg)) ->
   list_directory subprocess_run json_loads rclone_path config_path remote
     path extra_flags = Ok []
   /\ get_directory_size subprocess_run json_loads rclone_path config_path
        path extra_flags = Ok None)
  /\ (forall e,
         (forall msg, e <> JSONDecodeError msg) ->
         (forall cmd res,
             subprocess_run cmd = Ok res ->
             returncode res = 0%Z /\ json_loads (stdout res) = Raise e) ->
         list_directory subprocess_run json_loads rclone_path config_path
           remote path extra_flags = Raise e
         /\ get_directory_size subprocess_run json_loads rclone_path
              config_path path extra_flags = Raise e).
Proof.
  intros Hrun. split.
  - intros Hbad. unfold list_directory, get_directory_size,
      run_rclone_command.
    split.
    + match goal with
      | |- bind (subprocess_run ?cmd) _ = _ =>
          destruct (Hrun cmd) as [res Hres]; rewrite Hres; unfold bind;
          destruct (Hbad cmd res Hres) as [msg Hmsg]; rewrite Hmsg
      end.
      now destruct (negb (returncode res =? 0)%Z).
    + match goal with
      | |- bind (subprocess_run ?cmd) _ = _ =>
          destruct (Hrun cmd) as [res Hres]; rewrite Hres; unfold bind;
          destruct (Hbad cmd res Hres) as [msg Hmsg]; rewrite Hmsg
      end.
      now destruct (negb (returncode res =? 0)%Z).
  - intros e He Hbad. unfold list_directory, get_directory_size,
      run_rclone_command.
    split.
    + match goal with
      | |- bind (subprocess_run ?cmd) _ = _ =>
          destruct (Hrun cmd) as [res Hres]; rewrite Hres; unfold bind;
          destruct (Hbad cmd res Hres) as [Hrc Hraise]; rewrite Hrc, Hraise
      end.
      simpl. destruct e; try reflexivity. now contradiction (He msg).
    + match goal with
      | |- bind (subprocess_run ?cmd) _ = _ =>
          destruct (Hrun cmd) as [res Hres]; rewrite Hres; unfold bind;
          destruct (Hbad cmd res Hres) as [Hrc Hraise]; rewrite Hrc, Hraise
      end.
      simpl. destruct e; try reflexivity. now contradiction (He msg).
Qed.

Lemma malformed_json_is_an_empty_result_witness :
  let subprocess_run := fun _ : list string =>
    Ok (mkCompleted 0 "<html>502 Bad Gateway</html>" "") in
  let json_loads := fun body : string =>
    if String.eqb body "[]" then Ok (JArr [])
    else Raise (JSONDecodeError "Expecting value") in
  list_directory subprocess_run json_loads "rclone" None "gdrive" "photos"
    "" = Ok []
  /\ get_directory_size subprocess_run json_loads "rclone" None
       "photos" "" = Ok None.
Proof.
  intros subprocess_run json_loads.
  apply malformed_json_is_an_empty_result.
  - intros cmd. eexists. reflexivity.
  - intros cmd res H. injection H as <-. eexists. reflexivity.
Defined.

(* ------------------------------------------------------------------ *)
(** ** The copy queue: properties *)

Import Main.

Lemma poll_loop_not_cancelled (pending : nat) :
  forall check, poll_loop None pending check = false.
Proof. induction pending as [|n IH]; intros check; simpl; auto. Qed.

Lemma copy_loop_halts (world : nat -> behaviour) (src dst : FilePanel)
  (total : nat) (failed : FileEntry) (entries : list FileEntry) :
  forall i k,
    nth_error entries k = Some failed ->
    (forall j, j < k -> exits_with world (i + j) 0) ->
    (exists code, exits_with world (i + k) code /\ code <> 0%Z) ->
    let run := copy_loop world src dst total i entries in
    snd run = Returned
    /\ launched (fst run) = map (copy_args src dst) (firstn (S k) entries)
    /\ statuses (fst run) = [ ("Failed to copy " ++ name failed)%string ].
Proof.
  induction entries as [|entry rest IH]; intros i k Hk Hok Hfail.
  - destruct k; discriminate.
  - destruct k as [|k].
    + injection Hk as ->.
      destruct Hfail as (code & (cancel & pending & Hw & Hp) & Hcode).
      rewrite Nat.add_0_r in Hw. simpl. rewrite Hw, Hp.
      replace (negb (code =? 0)%Z) with true
        by (symmetry; apply negb_true_iff, Z.eqb_neq; exact Hcode).
      simpl. repeat split.
    + destruct (Hok 0) as (cancel & pending & Hw & Hp); [lia|].
      rewrite Nat.add_0_r in Hw. simpl. rewrite Hw, Hp. simpl.
      specialize (IH (S i) k Hk).
      destruct IH as (Hout & Hl & Hs).
      * intros j Hj. specialize (Hok (S j)).
        replace (S i + j) with (i + S j) by lia. apply Hok. lia.
      * destruct Hfail as (code & Hx & Hcode). exists code.
        split; [|exact Hcode].
        now replace (S i + k) with (i + S k) by lia.
      * destruct (copy_loop world src dst total (S i) rest) as [later out].
        simpl in *. repeat split; auto. now rewrite Hl.
Qed.

(** C2: when, with no cancellation seen, the processes of the items before
    item [k+1] exit with status zero and the process of item [k+1] exits
    with another status, the queue starts the copy commands of the first
    [k+1] items, in their order, and nothing else: nothing is started for a
    later item and nothing undoes an earlier one; the call returns, and its
    one status message, the argument of its one call of [update_status], is
    the failure that names the failed item. *)
Theorem queue_halts_at_first_failure (world : nat -> behaviour)
  (src dst : FilePanel) (entries : list FileEntry) (k : nat)
  (failed : FileEntry) :
  nth_error entries k = Some failed ->
  (forall j, j < k -> exits_with world (S j) 0) ->
  (exists code, exits_with world (S k) code /\ code <> 0%Z) ->
  let run := _do_copy_operation_async world src dst entries in
  snd run = Returned
  /\ launched (fst run) = map (copy_args src dst) (firstn (S k) entries)
  /\ statuses (fst run) = [ ("Failed to copy " ++ name failed)%string ].
Proof.
  intros Hk Hok Hfail. unfold _do_copy_operation_async.
  pose proof (copy_loop_halts world src dst (List.length entries) failed
                entries 1 k Hk Hok Hfail) as H.
  destruct (copy_loop world src dst (List.length entries) 1 entries)
    as [trace out].
  exact H.
Qed.

Lemma queue_halts_at_first_failure_witness :
  let world := fun i : nat =>
    match i with
    | 1 => Runs None 3 0
    | 2 => Runs None 1 1
    | _ => Runs None 0 0
    end in
  let src := mkPanel "local" "/home/me" in
  let dst := mkPanel "gdrive" "backup" in
  let one := mkFileEntry "one.txt" "one.txt" 10 "" false "" in
  let two := mkFileEntry "two" "two" 0 "" true "" in
  let three := mkFileEntry "three.txt" "three.txt" 30 "" false "" in
  let run := _do_copy_operation_async world src dst [one; two; three] in
  snd run = Returned
  /\ launched (fst run)
     = [ ["copy"; "local:/home/me/one.txt"; "gdrive:backup"];
         ["copy"; "local:/home/me/two"; "gdrive:backup/two"] ]
  /\ statuses (fst run) = [ "Failed to copy two" ].
Proof.
  intros world src dst one two three.
  apply (queue_halts_at_first_failure world src dst [one; two; three] 1 two).
  - reflexivity.
  - intros j Hj. assert (j = 0) as -> by lia.
    exists None, 3. split; reflexivity.
  - exists 1%Z. split; [|discriminate].
    exists None, 1. split; reflexivity.
Defined.

(* ------------------------------------------------------------------ *)
(** ** Log retention: properties *)

Module RetentionFacts.

Lemma filter_all (A : Type) (l : list A) : filter (fun _ => true) l = l.
Proof. induction l; simpl; congruence. Qed.

Lemma filter_twice (A : Type) (f g : A -> bool) (l : list A) :
  filter f (filter g l) = filter (fun x => g x && f x) l.
Proof.
  induction l as [|a l IH]; simpl; [reflexivity|].
  destruct (g a); simpl; [|exact IH]. destruct (f a); simpl; congruence.
Qed.

Lemma filter_split_length (A : Type) (f : A -> bool) (l : list A) :
  List.length (filter f l) + List.length (filter (fun x => negb (f x)) l)
  = List.length l.
Proof.
  induction l as [|a l IH]; simpl; [reflexivity|].
  destruct (f a); simpl; lia.
Qed.

(** *** Collecting the log files *)

Lemma collect_logs_some (entries : list dirent) :
  Forall (fun e => d_mtime e <> None) (filter is_log entries) ->
  collect_logs entries = Some (map log_key (filter is_log entries)).
Proof.
  induction entries as [|e rest IH]; simpl; [reflexivity|].
  destruct (is_log e) eqn:E; unfold is_log in E; rewrite E.
  - intros H. inversion H as [|? ? He Hrest]; subst.
    rewrite (IH Hrest). simpl.
    change (log_key e)
      with (d_name e, match d_mtime e with Some t => t | None => 0%Z end).
    destruct (d_mtime e); [reflexivity|contradiction].
  - exact IH.
Qed.

(** *** The sort *)

Lemma insert_desc_in (x y : string * Z) (l : list (string * Z)) :
  In y (insert_desc x l) <-> y = x \/ In y l.
Proof.
  induction l as [|z l IH]; simpl; [intuition|].
  destruct (snd x <? snd z)%Z; simpl; [rewrite IH|]; intuition.
Qed.

Lemma sort_desc_in (y : string * Z) (l : list (string * Z)) :
  In y (sort_desc l) <-> In y l.
Proof.
  induction l as [|x l IH]; simpl; [tauto|].
  rewrite insert_desc_in, IH. intuition.
Qed.

Lemma insert_desc_count (f : string * Z -> bool) (x : string * Z)
  (l : list (string * Z)) :
  List.length (filter f (insert_desc x l))
  = List.length (filter f (x :: l)).
Proof.
  induction l as [|z l IH]; simpl; [reflexivity|].
  destruct (snd x <? snd z)%Z; simpl; [|reflexivity].
  simpl in IH. destruct (f z), (f x); simpl in *; lia.
Qed.

Lemma sort_desc_count (f : string * Z -> bool) (l : list (string * Z)) :
  List.length (filter f (sort_desc l)) = List.length (filter f l).
Proof.
  induction l as [|x l IH]; simpl; [reflexivity|].
  rewrite insert_desc_count. simpl. destruct (f x); simpl; lia.
Qed.

Lemma sort_desc_length (l : list (string * Z)) :
  List.length (sort_desc l) = List.length l.
Proof.
  rewrite <- (filter_all _ (sort_desc l)), <- (filter_all _ l) at 1.
  rewrite sort_desc_count. now rewrite !filter_all.
Qed.

Lemma insert_desc_sorted (x : string * Z) (l : list (string * Z)) :
  StronglySorted newer_first l ->
  ~ In (snd x) (map snd l) ->
  StronglySorted newer_first (insert_desc x l).
Proof.
  induction 1 as [|z l Hl IH Hz]; intros Hx; simpl.
  - repeat constructor.
  - simpl in Hx. destruct (snd x <? snd z)%Z eqn:E.
    + constructor; [apply IH; tauto|].
      apply Forall_forall. intros y Hy. apply -> insert_desc_in in Hy.
      destruct Hy as [->|Hy].
      * unfold newer_first. now apply Z.ltb_lt.
      * rewrite Forall_forall in Hz. now apply Hz.
    + apply Z.ltb_ge in E.
      assert (Hzx : newer_first x z) by (unfold newer_first; lia).
      constructor; [now constructor|].
      constructor; [exact Hzx|].
      eapply Forall_impl; [|exact Hz]. unfold newer_first in *.
      intros y Hy. lia.
Qed.

Lemma sort_desc_sorted (l : list (string * Z)) :
  NoDup (map snd l) -> StronglySorted newer_first (sort_desc l).
Proof.
  induction l as [|x l IH]; simpl; intros H; [constructor|].
  inversion H as [|? ? Hx Hl]; subst.
  apply insert_desc_sorted; [now apply IH|].
  intros Hin. apply Hx. apply in_map_iff in Hin as (y & Hy & Hin).
  apply -> sort_desc_in in Hin. apply in_map_iff. now exists y.
Qed.

(** In a list sorted from the newest, the pairs after the first [n] are
    those with at least [n] newer pairs. *)
Lemma skipn_sorted (l : list (string * Z)) :
  StronglySorted newer_first l ->
  forall n x, In x (skipn n l) <-> In x l /\ n <= newer_keys l x.
Proof.
  induction 1 as [|a l Hl IH Ha]; intros n x.
  - rewrite skipn_nil. simpl. tauto.
  - destruct n as [|n]; [simpl; intuition lia|].
    simpl skipn. rewrite IH. unfold newer_keys. simpl.
    rewrite Forall_forall in Ha. split.
    + intros [Hin Hn]. split; [now right|].
      replace (snd x <? snd a)%Z with true
        by (symmetry; apply Z.ltb_lt; now apply Ha).
      simpl. unfold newer_keys in Hn. lia.
    + intros [[->|Hin] Hn].
      * exfalso. rewrite Z.ltb_irrefl in Hn.
        rewrite (filter_none _ (fun y => (snd x <? snd y)%Z) l) in Hn;
          [simpl in Hn; lia|].
        apply Forall_forall. intros y Hy. apply Z.ltb_ge.
        specialize (Ha y Hy). unfold newer_first in Ha. lia.
      * split; [exact Hin|].
        replace (snd x <? snd a)%Z with true in Hn
          by (symmetry; apply Z.ltb_lt; now apply Ha).
        simpl in Hn. unfold newer_keys. lia.
Qed.

(** *** The removals *)

Lemma fold_remove (dels : list (string * Z)) :
  forall entries,
    fold_left (fun dir f => remove (fst f) dir) dels entries
    = filter (fun e =>
                negb (existsb (fun f => String.eqb (d_name e) (fst f)) dels
                      && d_removable e)) entries.
Proof.
  induction dels as [|d dels IH]; intros entries; simpl.
  - now rewrite filter_all.
  - rewrite IH. unfold remove. rewrite filter_twice.
    apply filter_ext. intros e.
    destruct (String.eqb (d_name e) (fst d)), (d_removable e),
      (existsb (fun f => String.eqb (d_name e) (fst f)) dels); reflexivity.
Qed.

(** *** Counting newer files *)

Lemma filter_map_filter_length (A B : Type) (p : A -> bool) (g : A -> B)
  (f : B -> bool) (l : list A) :
  List.length (filter f (map g (filter p l)))
  = List.length (filter (fun x => p x && f (g x)) l).
Proof.
  induction l as [|a l IH]; simpl; [reflexivity|].
  destruct (p a); simpl; [|exact IH]. destruct (f (g a)); simpl; lia.
Qed.

Lemma newer_keys_logs (entries : list dirent) (e : dirent) :
  Forall (fun x => d_mtime x <> None) (filter is_log entries) ->
  d_mtime e <> None ->
  newer_keys (map log_key (filter is_log entries)) (log_key e)
  = newer_logs entries e.
Proof.
  intros Hall He. unfold newer_keys, newer_logs.
  rewrite filter_map_filter_length. f_equal.
  apply filter_ext_in. intros x Hx.
  destruct (is_log x) eqn:Hlog; simpl; [|reflexivity].
  rewrite Forall_forall in Hall.
  assert (Hm : d_mtime x <> None).
  { apply Hall, filter_In. now split. }
  unfold older_than.
  destruct (d_mtime x); [|contradiction].
  destruct (d_mtime e); [reflexivity|contradiction].
Qed.

Lemma newer_keys_sort (l : list (string * Z)) (x : string * Z) :
  newer_keys (sort_desc l) x = newer_keys l x.
Proof. apply sort_desc_count. Qed.

(** In a list sorted from the newest, a pair has as many newer pairs as
    there are pairs before it. *)
Lemma newer_keys_prefix (before after : list (string * Z))
  (x : string * Z) :
  StronglySorted newer_first (before ++ x :: after) ->
  newer_keys (before ++ x :: after) x = List.length before.
Proof.
  unfold newer_keys. induction before as [|a before IH]; simpl; intros H.
  - rewrite Z.ltb_irrefl. inversion H as [|? ? _ Hx]; subst.
    rewrite filter_none; [reflexivity|].
    eapply Forall_impl; [|exact Hx]. unfold newer_first.
    intros y Hy. apply Z.ltb_ge. lia.
  - inversion H as [|? ? Hs Ha]; subst.
    rewrite Forall_forall in Ha.
    replace (snd x <? snd a)%Z with true.
    + simpl. now rewrite IH.
    + symmetry. apply Z.ltb_lt. apply (Ha x), in_elt.
Qed.

Lemma newest_count (k : nat) (after : list (string * Z)) :
  forall before,
    StronglySorted newer_first (before ++ after) ->
    List.length
      (filter (fun x => newer_keys (before ++ after) x <? k) after)
    = Nat.min (k - List.length before) (List.length after).
Proof.
  induction after as [|x after IH]; intros before H; simpl.
  - now rewrite Nat.min_0_r.
  - rewrite (newer_keys_prefix _ _ _ H).
    pose proof (IH (before ++ [x])) as IH'.
    rewrite <- app_assoc in IH'. simpl in IH'. specialize (IH' H).
    rewrite length_app in IH'. simpl in IH'.
    destruct (List.length before <? k) eqn:E; simpl; rewrite IH'.
    + apply Nat.ltb_lt in E. lia.
    + apply Nat.ltb_ge in E. lia.
Qed.

(** *** Names and times *)

Lemma NoDup_map_inj (A B : Type) (f : A -> B) (l : list A) (a b : A) :
  NoDup (map f l) -> In a l -> In b l -> f a = f b -> a = b.
Proof.
  induction l as [|c l IH]; simpl; [tauto|].
  intros H Ha Hb Hf. inversion H as [|? ? Hc Hl]; subst.
  destruct Ha as [->|Ha], Hb as [->|Hb]; auto.
  - exfalso. apply Hc. rewrite Hf. now apply in_map.
  - exfalso. apply Hc. rewrite <- Hf. now apply in_map.
Qed.

Lemma distinct_times (logs : list dirent) :
  Forall (fun e => d_mtime e <> None) logs ->
  NoDup (map d_mtime logs) ->
  NoDup (map snd (map log_key logs)).
Proof.
  induction 1 as [|e logs He Hl IH]; simpl; intros H; [constructor|].
  inversion H as [|? ? Hn Hd]; subst. constructor; [|now apply IH].
  intros Hin. apply Hn. rewrite map_map in Hin.
  apply in_map_iff in Hin as (e' & He' & Hin').
  apply in_map_iff. exists e'. split; [|exact Hin'].
  rewrite Forall_forall in Hl. specialize (Hl e' Hin').
  simpl in He'. destruct (d_mtime e'), (d_mtime e); congruence.
Qed.

End RetentionFacts.

Section Retention.
Import RetentionFacts.

Variable entries : list dirent.
Variable keep_count : Z.

Hypothesis names_distinct : NoDup (map d_name entries).
Hypothesis logs_readable :
  Forall (fun e => d_mtime e <> None /\ d_removable e = true)
    (filter is_log entries).
Hypothesis times_distinct : NoDup (map d_mtime (filter is_log entries)).
Hypothesis keep_nonneg : (0 <= keep_count)%Z.

Lemma logs_have_times :
  Forall (fun e => d_mtime e <> None) (filter is_log entries).
Proof. eapply Forall_impl; [|exact logs_readable]. now intros e [H _]. Qed.

Lemma sorted_is_sorted : StronglySorted newer_first (sorted_logs entries).
Proof.
  apply sort_desc_sorted, distinct_times; auto using logs_have_times.
Qed.

(** A pair of the sorted list with the name of an entry is the pair of
    that entry, which is then a log file. *)
Lemma sorted_pair_of (e : dirent) (f : string * Z) :
  In e entries -> In f (sorted_logs entries) -> d_name e = fst f ->
  is_log e = true /\ f = log_key e.
Proof.
  intros He Hf Hn. unfold sorted_logs in Hf. apply -> sort_desc_in in Hf.
  apply in_map_iff in Hf as (e' & <- & He').
  apply filter_In in He' as [Hin Hlog].
  assert (e = e') as <-; [|now split].
  now apply (NoDup_map_inj _ _ d_name entries).
Qed.

(** An entry is removed exactly when it is a log file that is not among the
    [keep_count] newest. *)
Lemma removed_iff (e : dirent) :
  In e entries ->
  existsb (fun f => String.eqb (d_name e) (fst f))
    (skipn (Z.to_nat keep_count) (sorted_logs entries)) && d_removable e
  = is_log e && negb (among_newest keep_count entries e).
Proof.
  intros He. destruct (is_log e) eqn:Hlog; simpl.
  - assert (Hm : d_mtime e <> None /\ d_removable e = true).
    { pose proof logs_readable as H. rewrite Forall_forall in H.
      apply H, filter_In. now split. }
    destruct Hm as [Hm ->]. rewrite andb_true_r.
    assert (Hnew : newer_keys (sorted_logs entries) (log_key e)
                   = newer_logs entries e).
    { unfold sorted_logs. rewrite newer_keys_sort.
      apply newer_keys_logs; auto using logs_have_times. }
    apply eq_true_iff_eq. rewrite existsb_exists, negb_true_iff.
    unfold among_newest. rewrite Z.ltb_ge. split.
    + intros (f & Hf & Hn). apply String.eqb_eq in Hn.
      apply (skipn_sorted _ sorted_is_sorted) in Hf as [Hf Hk].
      destruct (sorted_pair_of e f He Hf Hn) as [_ ->].
      rewrite Hnew in Hk. lia.
    + intros Hk. exists (log_key e). split; [|apply String.eqb_refl].
      apply (skipn_sorted _ sorted_is_sorted). split.
      * unfold sorted_logs. apply sort_desc_in, in_map, filter_In. now split.
      * rewrite Hnew. lia.
  - replace (existsb _ _) with false; [reflexivity|].
    symmetry. apply not_true_is_false. intros H.
    apply existsb_exists in H as (f & Hf & Hn). apply String.eqb_eq in Hn.
    apply (skipn_sorted _ sorted_is_sorted) in Hf as [Hf _].
    destruct (sorted_pair_of e f He Hf Hn) as [H _]. congruence.
Qed.

Lemma cleanup_result :
  cleanup_old_logs (Some entries) keep_count
  = Some (filter (fun e => negb (is_log e)
                           || among_newest keep_count entries e) entries).
Proof.
  unfold cleanup_old_logs.
  rewrite (collect_logs_some _ logs_have_times). fold (sorted_logs entries).
  unfold slice_from.
  replace (0 <=? keep_count)%Z with true
    by (symmetry; now apply Z.leb_le).
  rewrite fold_remove. f_equal. apply filter_ext_in. intros e He.
  rewrite (removed_iff e He).
  now destruct (is_log e), (among_newest keep_count entries e).
Qed.

Lemma kept_logs_count :
  List.length
    (filter (fun e => is_log e && among_newest keep_count entries e) entries)
  = Nat.min (Z.to_nat keep_count) (List.length (filter is_log entries)).
Proof.
  pose proof (newest_count (Z.to_nat keep_count) (sorted_logs entries) []
                sorted_is_sorted) as H.
  simpl in H. rewrite Nat.sub_0_r in H.
  unfold sorted_logs at 3 in H. rewrite sort_desc_length, length_map in H.
  rewrite <- H. unfold sorted_logs at 2. rewrite sort_desc_count.
  rewrite filter_map_filter_length. f_equal.
  apply filter_ext_in. intros e He.
  destruct (is_log e) eqn:Hlog; simpl; [|reflexivity].
  assert (Hm : d_mtime e <> None).
  { pose proof logs_have_times as Hall. rewrite Forall_forall in Hall.
    apply Hall, filter_In. now split. }
  unfold sorted_logs. rewrite newer_keys_sort.
  rewrite (newer_keys_logs _ _ logs_have_times Hm).
  unfold among_newest. apply eq_true_iff_eq.
  rewrite Z.ltb_lt, Nat.ltb_lt. lia.
Qed.

End Retention.

(** C8: in a logs directory whose entries have distinct names and whose
    [.log] files have distinct modification times, can be read and can be
    removed, the retention pass with [keep_count] = N, N not negative,
    leaves exactly the entries that are not [.log] files or have fewer than
    N log files newer than themselves: the other entries are untouched, and
    the log files left are the N most recently modified ones, or all of
    them when there are fewer than N. With 8 log files and N = 5, 5 are
    left. *)
Theorem retention_keeps_the_newest (entries : list dirent) (keep_count : Z) :
  NoDup (map d_name entries) ->
  Forall (fun e => d_mtime e <> None /\ d_removable e = true)
    (filter is_log entries) ->
  NoDup (map d_mtime (filter is_log entries)) ->
  (0 <= keep_count)%Z ->
  exists remaining,
    cleanup_old_logs (Some entries) keep_count = Some remaining
    /\ remaining
       = filter (fun e => negb (is_log e)
                          || among_newest keep_count entries e) entries
    /\ filter (fun e => negb (is_log e)) remaining
       = filter (fun e => negb (is_log e)) entries
    /\ List.length (filter is_log remaining)
       = Nat.min (Z.to_nat keep_count)
           (List.length (filter is_log entries))
    /\ (List.length (filter is_log entries) = 8 -> keep_count = 5%Z ->
        List.length (filter is_log remaining) = 5).
Proof.
  intros Hn Hr Ht Hk.
  eexists. split; [now apply cleanup_result|]. split; [reflexivity|].
  assert (Hcount :
    List.length
      (filter is_log
         (filter (fun e => negb (is_log e)
                           || among_newest keep_count entries e) entries))
    = Nat.min (Z.to_nat keep_count)
        (List.length (filter is_log entries))).
  { rewrite RetentionFacts.filter_twice.
    rewrite <- (kept_logs_count entries keep_count Hr Ht). f_equal.
    apply filter_ext. intros e.
    now destruct (is_log e), (among_newest keep_count entries e). }
  split; [|split].
  - rewrite RetentionFacts.filter_twice. apply filter_ext. intros e.
    now destruct (is_log e), (among_newest keep_count entries e).
  - exact Hcount.
  - intros H8 ->. rewrite Hcount, H8. reflexivity.
Qed.

Lemma retention_keeps_the_newest_witness :
  let log := fun (n : string) (t : Z) => mkDirent n (Some t) true in
  let dir :=
    [ log "rclone_copy_1.log" 100%Z; log "rclone_move_2.log" 800%Z;
      mkDirent "notes.txt" None false;
      log "rclone_copy_3.log" 300%Z; log "rclone_copy_4.log" 700%Z;
      log "rclone_copy_5.log" 200%Z; log "rclone_move_6.log" 600%Z;
      log "rclone_copy_7.log" 400%Z; log "rclone_copy_8.log" 500%Z ] in
  exists remaining,
    cleanup_old_logs (Some dir) 5 = Some remaining
    /\ remaining
       = [ log "rclone_move_2.log" 800%Z; mkDirent "notes.txt" None false;
           log "rclone_copy_4.log" 700%Z; log "rclone_move_6.log" 600%Z;
           log "rclone_copy_7.log" 400%Z; log "rclone_copy_8.log" 500%Z ]
    /\ List.length (filter is_log remaining) = 5.
Proof.
  intros log dir.
  destruct (retention_keeps_the_newest dir 5)
    as (remaining & Hc & Hr & _ & _ & H5).
  - vm_compute. repeat (constructor; [simpl; intuition discriminate|]).
    constructor.
  - vm_compute. repeat constructor; discriminate.
  - vm_compute. repeat (constructor; [simpl; intuition discriminate|]).
    constructor.
  - lia.
  - exists remaining. split; [exact Hc|]. split.
    + rewrite Hr. vm_compute. reflexivity.
    + apply H5; reflexivity.
Defined.

(* ------------------------------------------------------------------ *)
(** ** More about the progress parser *)

Lemma recognized_some_line (lines : list string) :
  existsb recognized (map classify lines) = false
  <-> Forall (fun raw => recognized (classify raw) = false) lines.
Proof.
  rewrite existsb_false_forall, Forall_map. reflexivity.
Qed.

(** X1: [parse_log_content] raises exactly when a number that it
    converts (the overall percentage, a file count, the percentage of a
    file, on a line that takes the branch that reads it) has more than
    4300 digits, and what it raises is the ValueError of [int]. Otherwise
    it returns, and it returns [None] exactly when no line of the chunk
    takes one of the three recognising branches of the loop (a line that
    holds [Transferring:] is a header even when the per-file pattern
    matches it, and is not recognised). *)
Theorem parse_log_content_raises_only_at_the_digit_limit
  (content : string) :
  (Forall (fun raw => converts raw = true) (PyStr.splitlines content) ->
   exists r,
     parse_log_content content = Ok r
     /\ (r = None
         <-> Forall (fun raw => recognized (classify raw) = false)
               (PyStr.splitlines content)))
  /\ (Exists (fun raw => converts raw = false) (PyStr.splitlines content) ->
      parse_log_content content = Raise PyStr.limit_error).
Proof.
  pose proof (ParserFacts.parse_log_content_spec content) as Hs. split.
  - intros Hc.
    destruct (ParserFacts.parse_log_content_returns content Hc)
      as (p & Hp & _).
    unfold kinds in Hp.
    destruct (existsb recognized (map classify (PyStr.splitlines content)))
      eqn:E.
    + exists (Some p). split; [exact Hp|]. split; [discriminate|].
      intros H. apply recognized_some_line in H. congruence.
    + exists None. split; [exact Hp|]. split; [|reflexivity].
      intros _. now apply recognized_some_line.
  - intros Hx.
    replace (forallb converts (PyStr.splitlines content)) with false in Hs;
      [exact Hs|].
    symmetry. apply not_true_is_false. intros Hall.
    apply Exists_exists in Hx as (raw & Hin & Hraw).
    rewrite forallb_forall in Hall. rewrite (Hall raw Hin) in Hraw.
    discriminate.
Qed.

Lemma parse_log_content_raises_only_at_the_digit_limit_witness :
  let digits := string_of_list_ascii (repeat "1"%char 4301) in
  parse_log_content
    (unlines [ "Transferred:     0 / 1, 0%"; "Transferring:" ])
  = Ok (Some (mkProgressData "" "" 0 "" "" 0 1 []))
  /\ parse_log_content
       (unlines [ "Transferred:     0 / 1, 0%";
                  (" * a.txt: " ++ digits ++ "% /1Mi, 1Ki/s, 1m")%string ])
     = Raise PyStr.limit_error.
Proof.
  intros digits. split.
  - destruct (parse_log_content_raises_only_at_the_digit_limit
                (unlines [ "Transferred:     0 / 1, 0%"; "Transferring:" ]))
      as [H _].
    destruct H as (r & Hr & _).
    + replace (PyStr.splitlines _)
        with [ "Transferred:     0 / 1, 0%"; "Transferring:" ]
        by (vm_compute; reflexivity).
      repeat (constructor; [vm_compute; reflexivity|]). constructor.
    + rewrite Hr. vm_compute in Hr. injection Hr as <-. reflexivity.
  - apply (proj2 (parse_log_content_raises_only_at_the_digit_limit _)).
    assert (Hl : PyStr.splitlines
                   (unlines [ "Transferred:     0 / 1, 0%";
                              (" * a.txt: " ++ digits
                               ++ "% /1Mi, 1Ki/s, 1m")%string ])
                 = [ "Transferred:     0 / 1, 0%";
                     (" * a.txt: " ++ digits
                      ++ "% /1Mi, 1Ki/s, 1m")%string ])
      by (vm_compute; reflexivity).
    rewrite Hl. apply Exists_cons_tl, Exists_cons_hd.
    vm_compute. reflexivity.
Defined.

Lemma digits_value_nonneg (s : string) :
  forall acc z,
    (0 <= acc)%Z -> PyStr.digits_value s acc = Some z -> (0 <= z)%Z.
Proof.
  induction s as [|c s IH]; intros acc z Hacc H;
    cbn [PyStr.digits_value] in H.
  - now injection H as <-.
  - destruct (PyStr.isdecimal c); [|discriminate].
    eapply IH; [|exact H]. lia.
Qed.

Lemma int_nonneg (s : string) (z : Z) : PyStr.int s = Ok z -> (0 <= z)%Z.
Proof.
  unfold PyStr.int. destruct s as [|c s]; [discriminate|].
  destruct (PyStr.digits_value (String c s) 0) as [z'|] eqn:E;
    [|discriminate].
  destruct (PyStr.int_max_str_digits <? String.length (String c s));
    [discriminate|].
  intros H. injection H as <-.
  apply (digits_value_nonneg (String c s) 0%Z z'); [lia|exact E].
Qed.

Lemma loop_body_nonneg (st st' : loop_state) (raw : string) :
  loop_body st raw = Ok st' ->
  (0 <= overall_percentage (progress st))%Z
  /\ (0 <= files_transferred (progress st))%Z
  /\ (0 <= total_files (progress st))%Z
  /\ Forall (fun f => (0 <= percentage f)%Z) (files st) ->
  (0 <= overall_percentage (progress st'))%Z
  /\ (0 <= files_transferred (progress st'))%Z
  /\ (0 <= total_files (progress st'))%Z
  /\ Forall (fun f => (0 <= percentage f)%Z) (files st').
Proof.
  unfold loop_body. intros H (H1 & H2 & H3 & H4).
  destruct (search TRANSFERRED_PATTERN (PyStr.strip raw)) as [m|].
  { destruct (PyStr.int (group m 3)) as [z|] eqn:Hz; [|discriminate].
    unfold bind at 1 in H. rewrite ParserFacts.replace_overall in H.
    injection H as <-. simpl. apply int_nonneg in Hz. auto. }
  destruct (search FILES_PATTERN (PyStr.strip raw)) as [m|].
  { destruct (PyStr.int (group m 1)) as [x|] eqn:Hx; [|discriminate].
    destruct (PyStr.int (group m 2)) as [y|] eqn:Hy; [|discriminate].
    unfold bind at 1 in H. unfold bind at 1 in H.
    rewrite ParserFacts.replace_files in H.
    injection H as <-. simpl. apply int_nonneg in Hx, Hy. auto. }
  destruct (PyStr.startswith "Transferring:" (PyStr.strip raw)
            || PyStr.contains "Transferring:" (PyStr.strip raw)).
  { injection H as <-. simpl. auto. }
  destruct (search TRANSFERRING_PATTERN (PyStr.strip raw)) as [m|].
  { destruct (PyStr.int (group m 2)) as [z|] eqn:Hz; [|discriminate].
    injection H as <-. simpl. repeat split; auto.
    apply Forall_app. split.
    - apply Forall_forall. intros f Hf. apply filter_In in Hf as [Hf _].
      rewrite Forall_forall in H4. now apply H4.
    - constructor; [|constructor]. simpl. now apply int_nonneg in Hz. }
  injection H as <-. auto.
Qed.

Lemma loop_nonneg (lines : list string) :
  forall st st',
    loop lines st = Ok st' ->
    (0 <= overall_percentage (progress st))%Z
    /\ (0 <= files_transferred (progress st))%Z
    /\ (0 <= total_files (progress st))%Z
    /\ Forall (fun f => (0 <= percentage f)%Z) (files st) ->
    (0 <= overall_percentage (progress st'))%Z
    /\ (0 <= files_transferred (progress st'))%Z
    /\ (0 <= total_files (progress st'))%Z
    /\ Forall (fun f => (0 <= percentage f)%Z) (files st').
Proof.
  induction lines as [|raw rest IH]; intros st st' H Hinv; simpl in H.
  - now injection H as <-.
  - destruct (loop_body st raw) as [st1|] eqn:E; [|discriminate].
    unfold bind in H. apply (IH _ _ H). now apply (loop_body_nonneg st st1 raw).
Qed.

(** X2: in every snapshot that [parse_log_content] returns, the overall
    percentage, the two file counts and the percentage of every file are
    not negative. (They are not bounded above: a line with 250% gives
    250.) *)
Theorem snapshot_numbers_not_negative (content : string)
  (p : ProgressData) :
  parse_log_content content = Ok (Some p) ->
  (0 <= overall_percentage p)%Z
  /\ (0 <= files_transferred p)%Z
  /\ (0 <= total_files p)%Z
  /\ Forall (fun f => (0 <= percentage f)%Z) (transferring_files p).
Proof.
  unfold parse_log_content. intros H.
  destruct (loop (PyStr.splitlines content)
              (mkLoop ProgressData_default false [])) as [st|] eqn:E;
    [|discriminate].
  unfold bind at 1 in H.
  assert (Hinv : (0 <= overall_percentage (progress st))%Z
                 /\ (0 <= files_transferred (progress st))%Z
                 /\ (0 <= total_files (progress st))%Z
                 /\ Forall (fun f => (0 <= percentage f)%Z) (files st)).
  { apply (loop_nonneg _ _ _ E). simpl. repeat split; try lia. constructor. }
  destruct Hinv as (H1 & H2 & H3 & H4).
  destruct (files st) as [|f fs] eqn:Hfs.
  - unfold bind in H. destruct (found_any st); [|discriminate].
    injection H as <-. repeat split; auto.
    pose proof (ParserFacts.loop_spec (PyStr.splitlines content)
                  (mkLoop ProgressData_default false [])) as Hls.
    destruct (forallb converts (PyStr.splitlines content));
      [|rewrite E in Hls; discriminate].
    destruct Hls as (st2 & Hl & _ & _ & Hp).
    rewrite E in Hl. injection Hl as <-.
    rewrite Hp. constructor.
  - rewrite ParserFacts.replace_transferring in H. unfold bind in H.
    destruct (found_any st); [|discriminate].
    injection H as <-. simpl. auto.
Qed.

Lemma snapshot_numbers_not_negative_witness :
  let p := mkProgressData "1 MiB" "2 MiB" 250 "1 KiB/s" "1s" 0 0
             [ mkFileProgress "a.txt" 250 "1Mi" "1Ki/s" "1m" ] in
  (0 <= overall_percentage p)%Z
  /\ (0 <= files_transferred p)%Z
  /\ (0 <= total_files p)%Z
  /\ Forall (fun f => (0 <= percentage f)%Z) (transferring_files p).
Proof.
  intros p.
  apply (snapshot_numbers_not_negative
           (unlines [ "Transferred:   1 MiB / 2 MiB, 250%, 1 KiB/s, ETA 1s";
                      " * a.txt: 250% /1Mi, 1Ki/s, 1m" ])).
  vm_compute. reflexivity.
Defined.

(** X3: [parse_progress_line] merges into the snapshot it is given. An
    overall line replaces the five overall fields and keeps the file counts
    and the list of files; a files-count line replaces the two counts and
    keeps everything else; a line that no pattern matches gives [None]. On
    the first two kinds of line it raises only when a number that it
    converts has more than 4300 digits, and then the ValueError of
    [int]. *)
Theorem parse_progress_line_merges (line : string) (d : ProgressData) :
  (forall m,
      search TRANSFERRED_PATTERN (PyStr.strip line) = Some m ->
      if String.length (group m 3) <=? PyStr.int_max_str_digits then
        exists pct,
          PyStr.int (group m 3) = Ok pct
          /\ parse_progress_line line (Some d)
             = Ok (Some (mkProgressData (group m 1) (group m 2) pct
                           (group m 4) (group m 5) (files_transferred d)
                           (total_files d) (transferring_files d)))
      else parse_progress_line line (Some d) = Raise PyStr.limit_error)
  /\ (forall m,
         search TRANSFERRED_PATTERN (PyStr.strip line) = None ->
         search FILES_PATTERN (PyStr.strip line) = Some m ->
         if (String.length (group m 1) <=? PyStr.int_max_str_digits)
            && (String.length (group m 2) <=? PyStr.int_max_str_digits)
         then
           exists done total,
             PyStr.int (group m 1) = Ok done
             /\ PyStr.int (group m 2) = Ok total
             /\ parse_progress_line line (Some d)
                = Ok (Some (mkProgressData (transferred_str d) (total_str d)
                              (overall_percentage d) (overall_speed d)
                              (overall_eta d) done total
                              (transferring_files d)))
         else parse_progress_line line (Some d) = Raise PyStr.limit_error)
  /\ (search TRANSFERRED_PATTERN (PyStr.strip line) = None ->
      search FILES_PATTERN (PyStr.strip line) = None ->
      search TRANSFERRING_PATTERN (PyStr.strip line) = None ->
      parse_progress_line line (Some d) = Ok None).
Proof.
  unfold parse_progress_line. split; [|split].
  - intros m E.
    destruct (ReFacts.int_of_digit_group 3 _ _ _
                ParserFacts.digit_group_transferred E) as [z Hz].
    rewrite E, Hz.
    destruct (String.length (group m 3) <=? PyStr.int_max_str_digits);
      [|reflexivity].
    exists z. split; [reflexivity|]. unfold bind at 1.
    now rewrite ParserFacts.replace_overall.
  - intros m E1 E2.
    destruct (ReFacts.int_of_digit_group 1 _ _ _
                ParserFacts.digit_group_files_1 E2) as [x Hx].
    destruct (ReFacts.int_of_digit_group 2 _ _ _
                ParserFacts.digit_group_files_2 E2) as [y Hy].
    rewrite E1, E2, Hx, Hy.
    destruct (String.length (group m 1) <=? PyStr.int_max_str_digits);
      [|reflexivity].
    destruct (String.length (group m 2) <=? PyStr.int_max_str_digits);
      [|reflexivity].
    exists x, y. split; [reflexivity|]. split; [reflexivity|].
    unfold bind at 1. unfold bind at 1.
    now rewrite ParserFacts.replace_files.
  - intros E1 E2 E3. now rewrite E1, E2, E3.
Qed.

Lemma parse_progress_line_merges_witness :
  let d := mkProgressData "1 MiB" "9 MiB" 11 "1 KiB/s" "9s" 0 0
             [ mkFileProgress "a.txt" 50 "1Mi" "1Ki/s" "1m" ] in
  parse_progress_line "Transferred:     3 / 7, 42%" (Some d)
  = Ok (Some (mkProgressData "1 MiB" "9 MiB" 11 "1 KiB/s" "9s" 3 7
                [ mkFileProgress "a.txt" 50 "1Mi" "1Ki/s" "1m" ])).
Proof.
  intros d.
  destruct (parse_progress_line_merges "Transferred:     3 / 7, 42%" d)
    as (_ & H & _).
  destruct (search FILES_PATTERN (PyStr.strip "Transferred:     3 / 7, 42%"))
    as [m|] eqn:E; [|vm_compute in E; discriminate].
  specialize (H m ltac:(vm_compute; reflexivity) eq_refl).
  vm_compute in E. injection E as <-.
  destruct H as (x & y & Hx & Hy & Hp).
  rewrite Hp. vm_compute in Hx, Hy. injection Hx as <-. injection Hy as <-.
  reflexivity.
Defined.

Lemma splitlines_go_one_line (s : string) :
  forall cur,
    all_chars (fun c => negb (PyStr.islinebreak c)) s = true ->
    PyStr.splitlines_go s cur
    = match (rev cur ++ list_ascii_of_string s)%list with
      | [] => []
      | l => [string_of_list_ascii l]
      end.
Proof.
  induction s as [|c s IH]; intros cur H; simpl.
  - rewrite app_nil_r. destruct cur as [|a cur]; [reflexivity|].
    simpl. destruct (rev cur ++ [a])%list eqn:E; [|reflexivity].
    now destruct (rev cur).
  - simpl in H. apply andb_true_iff in H as [Hc Hs].
    apply negb_true_iff in Hc. rewrite Hc, (IH _ Hs). simpl.
    now rewrite <- app_assoc.
Qed.

Lemma splitlines_one_line (s : string) :
  all_chars (fun c => negb (PyStr.islinebreak c)) s = true ->
  PyStr.splitlines s = match s with
                       | EmptyString => []
                       | _ => [s]
                       end.
Proof.
  intros H. unfold PyStr.splitlines. rewrite (splitlines_go_one_line _ _ H).
  simpl. destruct s as [|c s]; [reflexivity|]. simpl.
  now rewrite string_of_list_ascii_of_string.
Qed.

(** X4: on a chunk that is one line, with no line break in it, and that
    the per-file pattern does not match, the parser of chunks and the
    parser of single lines started from no snapshot give the same result. *)
Theorem parsers_agree_on_one_line (line : string) :
  all_chars (fun c => negb (PyStr.islinebreak c)) line = true ->
  search TRANSFERRING_PATTERN (PyStr.strip line) = None ->
  parse_log_content line = parse_progress_line line None.
Proof.
  intros Hline Hfile. unfold parse_log_content, parse_progress_line.
  rewrite (splitlines_one_line _ Hline).
  destruct line as [|c line].
  - rewrite Hfile. vm_compute. reflexivity.
  - set (l := String c line) in *. simpl loop. unfold loop_body.
    destruct (search TRANSFERRED_PATTERN (PyStr.strip l)) as [m|] eqn:E1.
    { destruct (PyStr.int (group m 3)) as [z|e]; [|reflexivity].
      unfold bind. rewrite !ParserFacts.replace_overall.
      reflexivity. }
    destruct (search FILES_PATTERN (PyStr.strip l)) as [m|] eqn:E2.
    { destruct (PyStr.int (group m 1)) as [x|e]; [|reflexivity].
      destruct (PyStr.int (group m 2)) as [y|e]; [|reflexivity].
      unfold bind. rewrite !ParserFacts.replace_files.
      reflexivity. }
    rewrite Hfile.
    now destruct (PyStr.startswith "Transferring:" (PyStr.strip l)
                  || PyStr.contains "Transferring:" (PyStr.strip l)).
Qed.

Lemma parsers_agree_on_one_line_witness :
  parse_log_content "Transferred:   1 MiB / 2 MiB, 50%, 1 KiB/s, ETA 1s"
  = parse_progress_line
      "Transferred:   1 MiB / 2 MiB, 50%, 1 KiB/s, ETA 1s" None.
Proof.
  apply parsers_agree_on_one_line; vm_compute; reflexivity.
Defined.

(* ------------------------------------------------------------------ *)
(** ** The progress monitor *)

Import Monitor.

Lemma tail_position_le (fs : string -> file)
  (codec : list Byte.byte -> option string)
  (restore : Z -> list Byte.byte -> string * Z) (log_path : string)
  (pos : Z) :
  (pos < off_t_limit)%Z ->
  (pos <= snd (tail_log_file fs codec restore log_path pos)
   < off_t_limit)%Z.
Proof.
  intros Hpos. unfold tail_log_file.
  destruct (fs log_path) as [| |data]; simpl; try lia.
  destruct (off_t_limit <=? Z.of_nat (List.length data))%Z eqn:Hsize;
    simpl; try lia.
  apply Z.leb_gt in Hsize.
  destruct (pos <? 0)%Z eqn:Hneg; simpl; try lia.
  apply Z.ltb_ge in Hneg.
  replace (off_t_limit <=? pos)%Z with false
    by (symmetry; apply Z.leb_gt; exact Hpos).
  destruct (codec _); simpl; try lia.
  rewrite length_skipn. lia.
Qed.

Lemma universal_newlines_empty (s : string) :
  universal_newlines s = "" -> s = "".
Proof.
  destruct s as [|c s]; [reflexivity|]. simpl.
  destruct (PyStr.code c =? 13); discriminate.
Qed.

Lemma tail_content_advances (fs : string -> file)
  (codec : list Byte.byte -> option string)
  (restore : Z -> list Byte.byte -> string * Z) (log_path : string)
  (pos : Z) :
  (forall text, codec [] = Some text -> text = "") ->
  (pos < off_t_limit)%Z ->
  fst (tail_log_file fs codec restore log_path pos) <> "" ->
  (pos < snd (tail_log_file fs codec restore log_path pos))%Z.
Proof.
  intros Hc Hpos. unfold tail_log_file.
  destruct (fs log_path) as [| |data]; simpl; try congruence.
  destruct (off_t_limit <=? Z.of_nat (List.length data))%Z; simpl;
    try congruence.
  destruct (pos <? 0)%Z; simpl; try congruence.
  replace (off_t_limit <=? pos)%Z with false
    by (symmetry; apply Z.leb_gt; exact Hpos).
  destruct (codec (skipn (Z.to_nat pos) data)) as [text|] eqn:E; simpl;
    try congruence.
  intros Hne. destruct (skipn (Z.to_nat pos) data) as [|b raw];
    [|simpl; lia].
  exfalso. apply Hne. now rewrite (Hc _ E).
Qed.

Lemma monitor_idle (codec : list Byte.byte -> option string)
  (restore : Z -> list Byte.byte -> string * Z)
  (log_path : string) (file_num : nat) (idle : list cycle) :
  Forall (fun c => stop_is_set c = false
                   /\ tail_log_file (files_now c) codec restore log_path 0
                      = ("", 0%Z)) idle ->
  forall wait_count rest,
    wait_count <= max_wait ->
    monitor_loop codec restore log_path file_num (idle ++ rest) 0 wait_count
    = if max_wait <? wait_count + List.length idle
      then ([], (GaveUp, 0%Z))
      else monitor_loop codec restore log_path file_num rest 0
             (wait_count + List.length idle).
Proof.
  induction 1 as [|c idle [Hs Ht] _ IH]; intros wait_count rest Hw.
  - simpl. rewrite Nat.add_0_r.
    now replace (max_wait <? wait_count) with false
      by (symmetry; apply Nat.ltb_ge; exact Hw).
  - cbn [app monitor_loop]. rewrite Hs, Ht. cbn [andb Z.eqb].
    destruct (max_wait <? S wait_count) eqn:E.
    + cbn [andb List.length].
      now replace (max_wait <? wait_count + S (List.length idle)) with true
        by (symmetry; apply Nat.ltb_lt; apply Nat.ltb_lt in E; lia).
    + cbn [andb List.length]. apply Nat.ltb_ge in E.
      rewrite (IH (S wait_count) rest E).
      now replace (wait_count + S (List.length idle))
        with (S wait_count + List.length idle) by lia.
Qed.

(** X5: while the stop event is not set and the reads from offset 0 give
    nothing (the log file is missing, unreadable or empty), the monitor goes
    on for ten turns and gives up at the eleventh, whatever comes after. *)
Theorem monitor_gives_up_at_the_eleventh_idle_turn
  (codec : list Byte.byte -> option string)
  (restore : Z -> list Byte.byte -> string * Z) (log_path : string)
  (file_num : nat) (idle rest : list cycle) :
  Forall (fun c => stop_is_set c = false
                   /\ tail_log_file (files_now c) codec restore log_path 0
                      = ("", 0%Z)) idle ->
  (List.length idle <= 10 ->
   monitor_progress_log codec restore log_path file_num idle
   = ([], (StillRunning, 0%Z)))
  /\ (List.length idle = 11 ->
      monitor_progress_log codec restore log_path file_num (idle ++ rest)
      = ([], (GaveUp, 0%Z))).
Proof.
  intros H. unfold monitor_progress_log. split; intros Hn.
  - rewrite <- (app_nil_r idle) at 1.
    rewrite (monitor_idle _ _ _ _ _ H 0 []); [|unfold max_wait; lia].
    simpl. now replace (max_wait <? List.length idle) with false
      by (symmetry; apply Nat.ltb_ge; unfold max_wait; lia).
  - rewrite (monitor_idle _ _ _ _ _ H 0 rest); [|unfold max_wait; lia].
    simpl. now rewrite Hn.
Qed.

Lemma monitor_gives_up_at_the_eleventh_idle_turn_witness :
  let missing := mkCycle false (fun _ => Absent) in
  let written :=
    mkCycle false
      (fun _ => Content (list_byte_of_string "Transferred:     0 / 1, 0%")) in
  let restore := fun (position : Z) (_ : list Byte.byte) => ("", position) in
  monitor_progress_log latin1 restore "logs/rclone_copy.log" 1
    (repeat missing 10)
  = ([], (StillRunning, 0%Z))
  /\ monitor_progress_log latin1 restore "logs/rclone_copy.log" 1
       (repeat missing 11 ++ [written])
     = ([], (GaveUp, 0%Z)).
Proof.
  intros missing written restore.
  assert (H : forall n,
             Forall (fun c => stop_is_set c = false
                              /\ tail_log_file (files_now c) latin1 restore
                                   "logs/rclone_copy.log" 0 = ("", 0%Z))
               (repeat missing n)).
  { intros n. apply Forall_forall. intros c Hc.
    apply repeat_spec in Hc. subst c. split; reflexivity. }
  split.
  - apply (monitor_gives_up_at_the_eleventh_idle_turn latin1 restore _ 1
             (repeat missing 10) [] (H 10)).
    rewrite repeat_length. lia.
  - apply (monitor_gives_up_at_the_eleventh_idle_turn latin1 restore _ 1
             (repeat missing 11) [written] (H 11)).
    now rewrite repeat_length.
Defined.

Lemma monitor_running_never_gives_up
  (codec : list Byte.byte -> option string)
  (restore : Z -> list Byte.byte -> string * Z) (log_path : string)
  (file_num : nat) (cycles : list cycle) :
  forall pos wait_count,
    (0 < pos < off_t_limit)%Z ->
    fst (snd (monitor_loop codec restore log_path file_num cycles pos
                wait_count))
    <> GaveUp.
Proof.
  induction cycles as [|c rest IH]; intros pos wait_count Hpos;
    cbn [monitor_loop]; [discriminate|].
  destruct (stop_is_set c); [discriminate|].
  pose proof (tail_position_le (files_now c) codec restore log_path pos
                ltac:(lia)) as Hle.
  destruct (tail_log_file (files_now c) codec restore log_path pos)
    as [content new] eqn:E.
  simpl in Hle. destruct content as [|a content].
  - replace (new =? 0)%Z with false by (symmetry; apply Z.eqb_neq; lia).
    rewrite andb_false_r. apply IH. lia.
  - destruct (parse_log_content (String a content)) as [[p|]|e].
    + specialize (IH new 0 ltac:(lia)).
      destruct (monitor_loop codec restore log_path file_num rest new 0)
        as [events fin]. exact IH.
    + apply IH. lia.
    + apply IH. lia.
Qed.

Lemma monitor_gave_up_at_zero
  (codec : list Byte.byte -> option string)
  (restore : Z -> list Byte.byte -> string * Z) (log_path : string)
  (file_num : nat) (cycles : list cycle) :
  (forall text, codec [] = Some text -> text = "") ->
  forall wait_count,
    let run := monitor_loop codec restore log_path file_num cycles 0
                 wait_count in
    fst (snd run) = GaveUp -> fst run = [] /\ snd (snd run) = 0%Z.
Proof.
  intros Hc.
  assert (Hzero : (0 < off_t_limit)%Z) by reflexivity.
  induction cycles as [|c rest IH]; intros wait_count;
    cbn [monitor_loop]; [discriminate|].
  destruct (stop_is_set c); [discriminate|].
  pose proof (tail_position_le (files_now c) codec restore log_path 0 Hzero)
    as Hle.
  pose proof (tail_content_advances (files_now c) codec restore log_path 0
                Hc Hzero) as Hadv.
  destruct (tail_log_file (files_now c) codec restore log_path 0)
    as [content new] eqn:E.
  simpl in Hle, Hadv. destruct content as [|a content].
  - destruct (max_wait <? S wait_count); cbn [andb].
    + destruct (new =? 0)%Z eqn:Hz.
      * apply Z.eqb_eq in Hz. subst new. now split.
      * apply Z.eqb_neq in Hz. intros H. exfalso.
        apply (monitor_running_never_gives_up codec restore log_path
                 file_num rest new (S wait_count)); [lia|exact H].
    + destruct (Z.eq_dec new 0) as [->|Hn]; [apply IH|].
      intros H. exfalso.
      apply (monitor_running_never_gives_up codec restore log_path file_num
               rest new (S wait_count)); [lia|exact H].
  - assert (Hnew : (0 < new < off_t_limit)%Z).
    { split; [apply Hadv; discriminate|lia]. }
    pose proof (monitor_running_never_gives_up codec restore log_path
                  file_num rest new 0 Hnew) as Hrun.
    destruct (parse_log_content (String a content)) as [[p|]|e].
    + destruct (monitor_loop codec restore log_path file_num rest new 0)
        as [events fin]. simpl in *. intros H. contradiction.
    + intros H. contradiction.
    + intros H. contradiction.
Qed.

(** X6: when decoding no bytes gives no text, a monitor that gives up has
    read nothing and shown nothing: its offset is still 0 and it never
    handed a snapshot to the application. Once a read has returned bytes,
    only the stop event ends the monitor. *)
Theorem monitor_gives_up_only_before_any_read
  (codec : list Byte.byte -> option string)
  (restore : Z -> list Byte.byte -> string * Z) (log_path : string)
  (file_num : nat) (cycles : list cycle) :
  (forall text, codec [] = Some text -> text = "") ->
  let run := monitor_progress_log codec restore log_path file_num cycles in
  fst (snd run) = GaveUp -> fst run = [] /\ snd (snd run) = 0%Z.
Proof.
  intros Hc. unfold monitor_progress_log.
  apply (monitor_gave_up_at_zero codec restore log_path file_num cycles
           Hc 0).
Qed.

Lemma monitor_gives_up_only_before_any_read_witness :
  let missing := mkCycle false (fun _ => Absent) in
  let restore := fun (position : Z) (_ : list Byte.byte) => ("", position) in
  let run := monitor_progress_log latin1 restore "logs/rclone_copy.log" 1
               (repeat missing 11) in
  fst run = [] /\ snd (snd run) = 0%Z.
Proof.
  intros missing restore run.
  apply (monitor_gives_up_only_before_any_read latin1 restore
           "logs/rclone_copy.log" 1 (repeat missing 11)).
  - intros text H. injection H as <-. reflexivity.
  - reflexivity.
Defined.

(* ------------------------------------------------------------------ *)
(** ** More about the wrapper *)

Import Vocabulary2.

Lemma all_chars_of_list (f : ascii -> bool) (l : list ascii) :
  all_chars f (string_of_list_ascii l) = forallb f l.
Proof. induction l as [|a l IH]; simpl; congruence. Qed.

Lemma forallb_of_rev (f : ascii -> bool) (l : list ascii) :
  forallb f (rev l) = forallb f l.
Proof.
  induction l as [|a l IH]; simpl; [reflexivity|].
  rewrite forallb_app, IH. simpl. rewrite andb_true_r. apply andb_comm.
Qed.

Lemma string_of_list_app (a b : list ascii) :
  string_of_list_ascii (a ++ b)
  = (string_of_list_ascii a ++ string_of_list_ascii b)%string.
Proof. induction a as [|x a IH]; simpl; congruence. Qed.

Lemma concat_empty_cons (w : string) (ws : list string) :
  String.concat "" (w :: ws) = (w ++ String.concat "" ws)%string.
Proof.
  destruct ws as [|v ws]; simpl; [|reflexivity].
  induction w; simpl; congruence.
Qed.

Lemma split_go_words (s : string) :
  forall cur,
    forallb (fun c => negb (PyStr.isspace c)) cur = true ->
    Forall (fun w => w <> ""
                     /\ all_chars (fun c => negb (PyStr.isspace c)) w = true)
      (split_go s cur)
    /\ String.concat "" (split_go s cur)
       = (string_of_list_ascii (rev cur) ++ without_spaces s)%string.
Proof.
  assert (Hflush : forall cur,
    forallb (fun c => negb (PyStr.isspace c)) cur = true ->
    Forall (fun w => w <> ""
                     /\ all_chars (fun c => negb (PyStr.isspace c)) w = true)
      match cur with
      | [] => []
      | _ => [string_of_list_ascii (rev cur)]
      end
    /\ String.concat "" match cur with
                        | [] => []
                        | _ => [string_of_list_ascii (rev cur)]
                        end
       = string_of_list_ascii (rev cur)).
  { intros [|a cur] H; [split; [constructor|reflexivity]|].
    split; [|reflexivity]. constructor; [|constructor]. split.
    - simpl. destruct (rev cur); discriminate.
    - rewrite all_chars_of_list, forallb_of_rev. exact H. }
  induction s as [|c s IH]; intros cur H; cbn [split_go without_spaces].
  - destruct (Hflush cur H) as [Hw Hc]. split; [exact Hw|].
    rewrite Hc. clear. induction (string_of_list_ascii (rev cur)); simpl;
      congruence.
  - destruct (PyStr.isspace c) eqn:Hsp.
    + destruct (Hflush cur H) as [Hw Hc].
      destruct (IH [] eq_refl) as [Hw' Hc']. split.
      * apply Forall_app. now split.
      * destruct cur as [|a cur]; [exact Hc'|].
        cbn [app]. rewrite concat_empty_cons, Hc'. reflexivity.
    + destruct (IH (c :: cur)) as [Hw' Hc'].
      { simpl. now rewrite Hsp, H. }
      split; [exact Hw'|]. rewrite Hc'. simpl.
      rewrite string_of_list_app. simpl.
      now rewrite ReFacts.append_assoc.
Qed.

Lemma extra_flags_split_into_words_aux (extra_flags : string) :
  Forall (fun w => w <> ""
                   /\ all_chars (fun c => negb (PyStr.isspace c)) w = true)
    (split extra_flags)
  /\ String.concat "" (split extra_flags) = without_spaces extra_flags.
Proof. exact (split_go_words extra_flags [] eq_refl). Qed.

(** X7: the words into which the extra flags are split are never empty
    and hold no white space, and together they are the flags with the
    white space taken out: splitting loses and invents nothing. *)
Theorem extra_flags_split_into_words (extra_flags : string) :
  Forall (fun w => w <> ""
                   /\ all_chars (fun c => negb (PyStr.isspace c)) w = true)
    (split extra_flags)
  /\ String.concat "" (split extra_flags) = without_spaces extra_flags.
Proof.
  destruct (split_go_words extra_flags [] eq_refl) as [H1 H2].
  split; [exact H1|exact H2].
Qed.

(** X8: the command line that [run_rclone_command] runs is the program,
    then only non-empty words (the configuration option with its path, the
    words of the extra flags), then the arguments as they were given; with
    no configuration path and blank extra flags nothing stands between the
    program and the arguments. *)
Theorem command_line_shape (rclone_path : string) (config_path : option string)
  (args : list string) (extra_flags : string) :
  exists middle,
    (forall subprocess_run,
        run_rclone_command subprocess_run rclone_path config_path args
          extra_flags
        = subprocess_run (rclone_path :: middle ++ args))
    /\ Forall (fun w => w <> "") middle
    /\ (truthy config_path = false ->
        without_spaces extra_flags = "" -> middle = []).
Proof.
  unfold run_rclone_command.
  destruct (extra_flags_split_into_words_aux extra_flags) as [Hw Hc].
  exists ((if truthy config_path
           then ["--config"; match config_path with
                             | Some c => c
                             | None => ""
                             end]
           else [])
          ++ match extra_flags with
             | String _ _ => split extra_flags
             | EmptyString => []
             end).
  split; [|split].
  - intros subprocess_run.
    destruct (truthy config_path), extra_flags; simpl;
      rewrite <- ?app_assoc; reflexivity.
  - apply Forall_app. split.
    + destruct config_path as [[|c s]|]; simpl; repeat constructor;
        discriminate.
    + destruct extra_flags; [constructor|].
      eapply Forall_impl; [|exact Hw]. now intros w [H _].
  - intros Ht He. rewrite Ht. simpl.
    destruct extra_flags as [|c s]; [reflexivity|].
    rewrite He in Hc.
    destruct (split (String c s)) as [|w ws]; [reflexivity|].
    inversion Hw as [|? ? [Hne _] _]; subst.
    rewrite concat_empty_cons in Hc. destruct w; [contradiction|discriminate].
Qed.

Lemma command_line_shape_witness :
  run_rclone_command
    (fun cmd => Ok (mkCompleted (Z.of_nat (List.length cmd)) "" ""))
    "rclone" None ["lsjson"; "gdrive:"] "  "
  = Ok (mkCompleted 3 "" "").
Proof.
  destruct (command_line_shape "rclone" None ["lsjson"; "gdrive:"] "  ")
    as (middle & Hrun & _ & Hempty).
  rewrite Hrun, (Hempty eq_refl eq_refl). reflexivity.
Defined.



(* ------------------------------------------------------------------ *)
(** ** More about log retention *)

Import RetentionFacts.

Lemma collect_logs_names (entries : list dirent) :
  forall l,
    collect_logs entries = Some l ->
    map fst l = map d_name (filter is_log entries).
Proof.
  induction entries as [|e rest IH]; simpl; intros l H.
  - now injection H as <-.
  - unfold is_log at 1. destruct (PyStr.endswith ".log" (d_name e)).
    + destruct (d_mtime e) as [t|]; [|discriminate].
      destruct (collect_logs rest) as [l'|]; [|discriminate].
      injection H as <-. simpl. now rewrite (IH l' eq_refl).
    + now apply IH.
Qed.

Lemma collect_logs_unreadable (entries : list dirent) (e : dirent) :
  In e entries -> is_log e = true -> d_mtime e = None ->
  collect_logs entries = None.
Proof.
  induction entries as [|x rest IH]; simpl; [tauto|].
  intros [->|Hin] Hlog Ht.
  - unfold is_log in Hlog. now rewrite Hlog, Ht.
  - rewrite (IH Hin Hlog Ht).
    destruct (PyStr.endswith ".log" (d_name x)); [|reflexivity].
    now destruct (d_mtime x).
Qed.

Lemma slice_from_incl (A : Type) (k : Z) (l : list A) (x : A) :
  In x (slice_from k l) -> In x l.
Proof.
  assert (Hskip : forall n, In x (skipn n l) -> In x l).
  { intros n H. rewrite <- (firstn_skipn n l). apply in_or_app. now right. }
  unfold slice_from. destruct (0 <=? k)%Z; apply Hskip.
Qed.

(** Every pair that the pass deletes carries the name of a log file. *)
Lemma deleted_names_are_logs (entries : list dirent) (keep_count : Z)
  (l : list (string * Z)) (f : string * Z) :
  collect_logs entries = Some l ->
  In f (slice_from keep_count (sort_desc l)) ->
  PyStr.endswith ".log" (fst f) = true.
Proof.
  intros Hl Hf. apply slice_from_incl in Hf. apply -> sort_desc_in in Hf.
  apply (in_map fst) in Hf. rewrite (collect_logs_names _ _ Hl) in Hf.
  apply in_map_iff in Hf as (e & <- & He).
  apply filter_In in He as [_ He]. exact He.
Qed.

Lemma cleanup_unchanged_when_few (entries : list dirent) (keep_count : Z) :
  (Z.of_nat (List.length (filter is_log entries)) <= keep_count)%Z ->
  cleanup_old_logs (Some entries) keep_count = Some entries.
Proof.
  intros Hk. unfold cleanup_old_logs.
  destruct (collect_logs entries) as [l|] eqn:E; [|reflexivity].
  assert (Hlen : List.length (sort_desc l)
                 = List.length (filter is_log entries)).
  { rewrite sort_desc_length, <- (length_map fst l),
      (collect_logs_names _ _ E). apply length_map. }
  unfold slice_from.
  replace (0 <=? keep_count)%Z with true by (symmetry; apply Z.leb_le; lia).
  rewrite skipn_all2; [reflexivity|lia].
Qed.

Lemma kept_logs_length (entries : list dirent) (keep_count : Z) :
  Forall (fun e => d_mtime e <> None /\ d_removable e = true)
    (filter is_log entries) ->
  NoDup (map d_mtime (filter is_log entries)) ->
  List.length
    (filter is_log
       (filter (fun e => negb (is_log e)
                         || among_newest keep_count entries e) entries))
  = Nat.min (Z.to_nat keep_count) (List.length (filter is_log entries)).
Proof.
  intros Hr Ht. rewrite filter_twice.
  rewrite <- (kept_logs_count entries keep_count Hr Ht). f_equal.
  apply filter_ext. intros e.
  now destruct (is_log e), (among_newest keep_count entries e).
Qed.

(** X10: whatever the directory holds and whatever the count asked for,
    the retention pass only takes entries away, keeps the order of what
    stays, and leaves every entry whose name does not end in [.log] and
    every entry whose removal fails where it was. *)
Theorem retention_touches_only_logs (entries : list dirent)
  (keep_count : Z) :
  exists remaining keep,
    cleanup_old_logs (Some entries) keep_count = Some remaining
    /\ remaining = filter keep entries
    /\ filter (fun e => negb (is_log e)) remaining
       = filter (fun e => negb (is_log e)) entries
    /\ filter (fun e => negb (d_removable e)) remaining
       = filter (fun e => negb (d_removable e)) entries.
Proof.
  unfold cleanup_old_logs.
  destruct (collect_logs entries) as [l|] eqn:E.
  - rewrite fold_remove. eexists. eexists.
    split; [reflexivity|]. split; [reflexivity|]. split.
    + rewrite filter_twice. apply filter_ext_in. intros e He.
      destruct (is_log e) eqn:Hlog; simpl; [apply andb_false_r|].
      rewrite andb_true_r.
      replace (existsb _ _) with false; [reflexivity|].
      symmetry. apply not_true_is_false. intros H.
      apply existsb_exists in H as (f & Hf & Hn). apply String.eqb_eq in Hn.
      pose proof (deleted_names_are_logs _ _ _ _ E Hf) as Hend.
      unfold is_log in Hlog. congruence.
    + rewrite filter_twice. apply filter_ext. intros e.
      destruct (d_removable e); simpl;
        [apply andb_false_r|now rewrite andb_false_r].
  - exists entries, (fun _ => true).
    split; [reflexivity|]. split; [now rewrite filter_all|].
    split; reflexivity.
Qed.

(** X11: when the directory holds no more log files than the count asked
    for, the pass removes nothing. *)
Theorem retention_keeps_all_when_few (entries : list dirent)
  (keep_count : Z) :
  (Z.of_nat (List.length (filter is_log entries)) <= keep_count)%Z ->
  cleanup_old_logs (Some entries) keep_count = Some entries.
Proof. apply cleanup_unchanged_when_few. Qed.

Lemma retention_keeps_all_when_few_witness :
  let dir :=
    [ mkDirent "rclone_copy_1.log" (Some 100%Z) true;
      mkDirent "notes.txt" None false;
      mkDirent "rclone_move_2.log" (Some 50%Z) true ] in
  cleanup_old_logs (Some dir) 2 = Some dir.
Proof.
  intros dir. apply (retention_keeps_all_when_few dir 2).
  vm_compute. discriminate.
Defined.

(** X12: when the modification time of one log file cannot be read, the
    pass removes nothing at all, however many log files there are: the
    error leaves the loop that collects them, before any removal. *)
Theorem retention_stops_at_unreadable_time (entries : list dirent)
  (keep_count : Z) (e : dirent) :
  In e entries -> is_log e = true -> d_mtime e = None ->
  cleanup_old_logs (Some entries) keep_count = Some entries.
Proof.
  intros Hin Hlog Ht. unfold cleanup_old_logs.
  now rewrite (collect_logs_unreadable entries e Hin Hlog Ht).
Qed.

Lemma retention_stops_at_unreadable_time_witness :
  let dir :=
    [ mkDirent "rclone_copy_1.log" (Some 100%Z) true;
      mkDirent "rclone_copy_2.log" (Some 200%Z) true;
      mkDirent "rclone_copy_3.log" None true ] in
  cleanup_old_logs (Some dir) 1 = Some dir.
Proof.
  intros dir.
  apply (retention_stops_at_unreadable_time dir 1
           (mkDirent "rclone_copy_3.log" None true)).
  - simpl. auto.
  - reflexivity.
  - reflexivity.
Defined.

(** X13: a negative count is not read as zero. In a directory as in C8,
    a pass with [keep_count] = -d removes the d least recently modified
    log files and keeps the others (all of them go only when there are no
    more than d): it does what a pass with the count n - d does, n the
    number of log files. With 8 log files and -2, 6 are left. *)
Theorem retention_with_a_negative_count (entries : list dirent)
  (keep_count : Z) :
  NoDup (map d_name entries) ->
  Forall (fun e => d_mtime e <> None /\ d_removable e = true)
    (filter is_log entries) ->
  NoDup (map d_mtime (filter is_log entries)) ->
  (keep_count < 0)%Z ->
  let n := List.length (filter is_log entries) in
  exists remaining,
    cleanup_old_logs (Some entries) keep_count = Some remaining
    /\ remaining
       = filter (fun e => negb (is_log e)
                          || among_newest (Z.max 0 (Z.of_nat n + keep_count))
                               entries e) entries
    /\ List.length (filter is_log remaining) = n - Z.to_nat (- keep_count)
    /\ (n = 8 -> keep_count = (-2)%Z ->
        List.length (filter is_log remaining) = 6).
Proof.
  intros Hn Hr Ht Hk n.
  assert (Hsame : cleanup_old_logs (Some entries) keep_count
                  = cleanup_old_logs (Some entries)
                      (Z.max 0 (Z.of_nat n + keep_count))).
  { unfold cleanup_old_logs.
    destruct (collect_logs entries) as [l|] eqn:E; [|reflexivity].
    assert (Hlen : List.length (sort_desc l) = n).
    { rewrite sort_desc_length, <- (length_map fst l),
        (collect_logs_names _ _ E). apply length_map. }
    unfold slice_from. rewrite Hlen.
    replace (0 <=? keep_count)%Z with false
      by (symmetry; apply Z.leb_gt; exact Hk).
    now replace (0 <=? Z.max 0 (Z.of_nat n + keep_count))%Z with true
      by (symmetry; apply Z.leb_le; lia). }
  assert (Hcount :
    List.length
      (filter is_log
         (filter (fun e => negb (is_log e)
                           || among_newest
                                (Z.max 0 (Z.of_nat n + keep_count))
                                entries e) entries))
    = n - Z.to_nat (- keep_count)).
  { rewrite (kept_logs_length entries _ Hr Ht). fold n. lia. }
  eexists. split; [|split; [reflexivity|split]].
  - rewrite Hsame. apply cleanup_result; auto. lia.
  - exact Hcount.
  - intros H8 Hm. rewrite Hcount, H8, Hm. reflexivity.
Qed.

Lemma retention_with_a_negative_count_witness :
  let log := fun (n : string) (t : Z) => mkDirent n (Some t) true in
  let dir :=
    [ log "rclone_copy_1.log" 100%Z; log "rclone_move_2.log" 800%Z;
      mkDirent "notes.txt" None false;
      log "rclone_copy_3.log" 300%Z; log "rclone_copy_4.log" 700%Z ] in
  exists remaining,
    cleanup_old_logs (Some dir) (-1) = Some remaining
    /\ remaining
       = [ log "rclone_move_2.log" 800%Z; mkDirent "notes.txt" None false;
           log "rclone_copy_3.log" 300%Z; log "rclone_copy_4.log" 700%Z ].
Proof.
  intros log dir.
  destruct (retention_with_a_negative_count dir (-1))
    as (remaining & Hc & Hr & _).
  - vm_compute. repeat (constructor; [simpl; intuition discriminate|]).
    constructor.
  - vm_compute. repeat constructor; discriminate.
  - vm_compute. repeat (constructor; [simpl; intuition discriminate|]).
    constructor.
  - lia.
  - exists remaining. split; [exact Hc|].
    rewrite Hr. vm_compute. reflexivity.
Defined.

(** X14: in a directory as in C8, a second pass with the same count
    removes nothing more: what the first pass leaves, the second leaves
    as it is. *)
Theorem retention_twice_is_retention_once (entries : list dirent)
  (keep_count : Z) :
  NoDup (map d_name entries) ->
  Forall (fun e => d_mtime e <> None /\ d_removable e = true)
    (filter is_log entries) ->
  NoDup (map d_mtime (filter is_log entries)) ->
  (0 <= keep_count)%Z ->
  exists remaining,
    cleanup_old_logs (Some entries) keep_count = Some remaining
    /\ cleanup_old_logs (Some remaining) keep_count = Some remaining.
Proof.
  intros Hn Hr Ht Hk. eexists. split; [now apply cleanup_result|].
  apply cleanup_unchanged_when_few.
  rewrite (kept_logs_length entries keep_count Hr Ht). lia.
Qed.

Lemma retention_twice_is_retention_once_witness :
  let log := fun (n : string) (t : Z) => mkDirent n (Some t) true in
  let dir :=
    [ log "rclone_copy_1.log" 100%Z; log "rclone_move_2.log" 800%Z;
      mkDirent "notes.txt" None false;
      log "rclone_copy_3.log" 300%Z; log "rclone_copy_4.log" 700%Z ] in
  exists remaining,
    cleanup_old_logs (Some dir) 2 = Some remaining
    /\ cleanup_old_logs (Some remaining) 2 = Some remaining.
Proof.
  intros log dir.
  apply (retention_twice_is_retention_once dir 2).
  - vm_compute. repeat (constructor; [simpl; intuition discriminate|]).
    constructor.
  - vm_compute. repeat constructor; discriminate.
  - vm_compute. repeat (constructor; [simpl; intuition discriminate|]).
    constructor.
  - lia.
Defined.

(* ------------------------------------------------------------------ *)
(** ** The launcher *)

Import Commands.

Lemma endswith_append (a suffix : string) :
  PyStr.endswith suffix (a ++ suffix) = true.
Proof.
  unfold PyStr.endswith. rewrite ReFacts.length_append.
  replace (String.length a + String.length suffix - String.length suffix)
    with (String.length a) by lia.
  pose proof (ReFacts.substring_middle a suffix "") as H.
  replace (suffix ++ "")%string with suffix in H
    by (clear; induction suffix; simpl; congruence).
  rewrite H, String.eqb_refl, andb_true_r. apply Nat.leb_le. lia.
Qed.

Lemma append_inj_l (a b c : string) : (a ++ b = a ++ c)%string -> b = c.
Proof. induction a as [|x a IH]; simpl; [auto|]. intros H. injection H. auto. Qed.

Lemma append_inj_r (a b c : string) : (a ++ c = b ++ c)%string -> a = b.
Proof.
  revert b. induction a as [|x a IH]; intros [|y b] H; simpl in H.
  - reflexivity.
  - exfalso. apply (f_equal String.length) in H. simpl in H.
    rewrite ReFacts.length_append in H. lia.
  - exfalso. apply (f_equal String.length) in H. simpl in H.
    rewrite ReFacts.length_append in H. lia.
  - injection H as -> H. f_equal. now apply IH.
Qed.

(** X15: every launch writes its log inside the [logs] directory, under
    a name that the retention pass counts as a log file, and hands that
    same path to the caller; two launches of one operation whose time
    stamps differ write two different files. *)
Theorem launch_log_is_a_retained_log (args : list string)
  (timestamp : string) :
  let log_name := log_filename args timestamp in
  (forall (process : Type) (makedirs : string -> result unit)
          (popen : list string -> result process)
          (rclone_path : string) (config_path : option string)
          (extra_flags stats_interval : string) (p : process)
          (log_path : string),
      run_rclone_with_progress process makedirs popen rclone_path
        config_path args extra_flags stats_interval timestamp
      = Ok (p, log_path) ->
      log_path = ("logs/" ++ log_name)%string)
  /\ (forall mtime removable,
         is_log (mkDirent log_name mtime removable) = true)
  /\ (forall timestamp',
         log_filename args timestamp' = log_name -> timestamp' = timestamp).
Proof.
  intros log_name. split; [|split].
  - intros process makedirs popen rclone_path config_path extra_flags
      stats_interval p log_path H.
    unfold run_rclone_with_progress in H.
    destruct (makedirs "logs") as [u|e]; [|discriminate].
    unfold bind at 1 in H.
    match type of H with
    | bind (popen ?cmd) _ = _ => destruct (popen cmd) as [q|e]
    end; [|discriminate].
    unfold bind in H. injection H as _ <-. reflexivity.
  - intros mtime removable. unfold is_log, log_name, log_filename.
    cbn [d_name].
    set (operation := match args with
                      | a :: _ => a
                      | [] => "operation"
                      end).
    replace ("rclone_" ++ operation ++ "_" ++ timestamp ++ ".log")%string
      with (("rclone_" ++ operation ++ "_" ++ timestamp) ++ ".log")%string
      by (now rewrite !ReFacts.append_assoc).
    apply endswith_append.
  - intros timestamp' H. unfold log_name, log_filename in H.
    apply append_inj_l in H. apply append_inj_l in H.
    apply append_inj_l in H. now apply append_inj_r in H.
Qed.

Lemma launch_log_is_a_retained_log_witness :
  run_rclone_with_progress nat (fun _ => Ok tt) (fun _ => Ok 7) "rclone"
    None ["copy"; "local:a.txt"; "gdrive:"] "" "1s" "20250101_120000_000001"
  = Ok (7, "logs/rclone_copy_20250101_120000_000001.log").
Proof.
  destruct (launch_log_is_a_retained_log ["copy"; "local:a.txt"; "gdrive:"]
              "20250101_120000_000001") as [H _].
  destruct (run_rclone_with_progress nat (fun _ => Ok tt) (fun _ => Ok 7)
              "rclone" None ["copy"; "local:a.txt"; "gdrive:"] "" "1s"
              "20250101_120000_000001") as [[p log_path]|e] eqn:E;
    [|vm_compute in E; discriminate].
  rewrite (H nat (fun _ => Ok tt) (fun _ => Ok 7) "rclone" None "" "1s"
             p log_path E).
  vm_compute in E. injection E as <- _. reflexivity.
Defined.

(* ------------------------------------------------------------------ *)
(** ** Going up *)

Import Browser.

Lemma rstrip_char_without (c : ascii) (s : string) :
  PyPath.has_char c s = false -> PyPath.rstrip_char c s = s.
Proof.
  induction s as [|a s IH]; simpl; [reflexivity|].
  intros H. apply orb_false_iff in H as [Ha Hs].
  rewrite (IH Hs), Ha. now destruct s.
Qed.

Lemma rstrip_char_append (c : ascii) (a s : string) :
  s <> "" -> PyPath.rstrip_char c s = s ->
  PyPath.rstrip_char c (a ++ s) = (a ++ s)%string.
Proof.
  intros Hne Hs. induction a as [|x a IH]; simpl; [exact Hs|].
  rewrite IH. destruct (a ++ s)%string eqn:E; [|reflexivity].
  destruct a; simpl in E; [contradiction|discriminate].
Qed.

Lemma rstrip_char_prefix (c : ascii) (s : string) :
  exists t, s = (PyPath.rstrip_char c s ++ t)%string.
Proof.
  induction s as [|a s [t IH]]; simpl; [now exists ""|].
  destruct (PyPath.rstrip_char c s) as [|b r] eqn:E.
  - destruct (Ascii.eqb a c).
    + now exists (String a s).
    + exists s. reflexivity.
  - exists t. simpl. simpl in IH. now rewrite <- IH.
Qed.

Lemma split_on_not_nil (sep : ascii) (s : string) :
  PyPath.split_on sep s <> [].
Proof.
  destruct s as [|a s]; simpl; [discriminate|].
  destruct (Ascii.eqb a sep); [discriminate|].
  destruct (PyPath.split_on sep s); discriminate.
Qed.

Lemma split_on_without (sep : ascii) (s : string) :
  PyPath.has_char sep s = false -> PyPath.split_on sep s = [s].
Proof.
  induction s as [|a s IH]; simpl; [reflexivity|].
  intros H. apply orb_false_iff in H as [Ha Hs].
  now rewrite Ha, (IH Hs).
Qed.

Lemma split_on_at_separator (sep : ascii) (a b : string) :
  PyPath.split_on sep (a ++ String sep b)
  = (PyPath.split_on sep a ++ PyPath.split_on sep b)%list.
Proof.
  induction a as [|x a IH]; simpl.
  - now rewrite Ascii.eqb_refl.
  - destruct (Ascii.eqb x sep); [now rewrite IH|].
    rewrite IH. pose proof (split_on_not_nil sep a) as Hne.
    destruct (PyPath.split_on sep a) as [|p ps]; [contradiction|reflexivity].
Qed.

Lemma join_split_on (s : string) :
  PyPath.join "/" (PyPath.split_on "/" s) = s.
Proof.
  unfold PyPath.join. induction s as [|a s IH]; simpl; [reflexivity|].
  pose proof (split_on_not_nil "/" s) as Hne.
  destruct (PyPath.split_on "/" s) as [|p ps]; [contradiction|].
  destruct (Ascii.eqb a "/") eqn:E.
  - apply Ascii.eqb_eq in E. subst a.
    change (String.concat "/" ("" :: p :: ps))
      with ("/" ++ String.concat "/" (p :: ps))%string.
    now rewrite IH.
  - destruct ps as [|q ps]; simpl in *; now rewrite IH.
Qed.

Lemma join_snoc (l : list string) (x : string) :
  l <> [] ->
  PyPath.join "/" (l ++ [x]) = (PyPath.join "/" l ++ "/" ++ x)%string.
Proof.
  unfold PyPath.join. induction l as [|a l IH]; [contradiction|]. intros _.
  destruct l as [|b l].
  - simpl. reflexivity.
  - change (String.concat "/" ((a :: b :: l) ++ [x]))
      with (a ++ "/" ++ String.concat "/" ((b :: l) ++ [x]))%string.
    rewrite IH by discriminate.
    change (String.concat "/" (a :: b :: l))
      with (a ++ "/" ++ String.concat "/" (b :: l))%string.
    now rewrite !ReFacts.append_assoc.
Qed.

Lemma navigate_up_of_join (p name : string) :
  name <> "" -> PyPath.has_char "/" name = false ->
  PyStr.endswith "/" p = false ->
  navigate_up (os_path_join p name) = p
  /\ last_dir_entered (os_path_join p name) = name.
Proof.
  intros Hne Hno Hp. unfold os_path_join.
  replace (PyStr.startswith "/" name) with false.
  2:{ destruct name as [|c name]; [contradiction|].
      cbn [PyPath.has_char] in Hno. cbn [PyStr.startswith].
      apply orb_false_iff in Hno as [Hc _]. symmetry.
      rewrite andb_true_r. rewrite Ascii.eqb_sym. exact Hc. }
  unfold navigate_up, last_dir_entered.
  destruct p as [|c p].
  - rewrite (rstrip_char_without _ _ Hno), (split_on_without _ _ Hno).
    split; reflexivity.
  - rewrite Hp.
    change (String c p ++ "/" ++ name)%string
      with (String c p ++ String "/" name)%string.
    rewrite (rstrip_char_append "/" (String c p) (String "/" name)).
    2:{ discriminate. }
    2:{ simpl. rewrite (rstrip_char_without _ _ Hno).
        destruct name; [contradiction|reflexivity]. }
    rewrite split_on_at_separator, (split_on_without _ _ Hno).
    rewrite removelast_last, last_last, length_app.
    change (List.length [name]) with 1.
    assert (Hlen : (1 <? List.length (PyPath.split_on "/" (String c p)) + 1)
                   = true).
    { apply Nat.ltb_lt.
      pose proof (split_on_not_nil "/" (String c p)) as Hnil.
      destruct (PyPath.split_on "/" (String c p)); [contradiction|].
      simpl. lia. }
    rewrite Hlen. split; [apply join_split_on|reflexivity].
Qed.

(** X16: going up undoes entering a directory. From a path that does not
    end in a slash, entering a directory whose name is not empty and holds
    no slash and then going up gives the path back, and the name remembered
    for placing the cursor is the name of that directory. *)
Theorem going_up_undoes_entering (p name : string) :
  name <> "" -> PyPath.has_char "/" name = false ->
  PyStr.endswith "/" p = false ->
  navigate_up (os_path_join p name) = p
  /\ last_dir_entered (os_path_join p name) = name.
Proof. apply navigate_up_of_join. Qed.

Lemma going_up_undoes_entering_witness :
  navigate_up (os_path_join "/home/me" "photos") = "/home/me"
  /\ last_dir_entered (os_path_join "/home/me" "photos") = "photos".
Proof.
  apply (going_up_undoes_entering "/home/me" "photos");
    [discriminate|reflexivity|reflexivity].
Defined.

(** X17: going up always makes progress: the result is a proper prefix
    of any path that is not empty, so that going up again and again ends at
    the empty path. A directory directly under the root [/] has the empty
    path for parent, not [/]. *)
Theorem going_up_gives_a_proper_prefix (p : string) :
  p <> "" ->
  (exists rest, rest <> "" /\ p = (navigate_up p ++ rest)%string)
  /\ (forall name,
         name <> "" -> PyPath.has_char "/" name = false ->
         navigate_up ("/" ++ name) = "").
Proof.
  intros Hp. split.
  - unfold navigate_up.
    destruct (rstrip_char_prefix "/" p) as [t Ht].
    pose proof (join_split_on (PyPath.rstrip_char "/" p)) as Hj.
    pose proof (split_on_not_nil "/" (PyPath.rstrip_char "/" p)) as Hnil.
    pose proof (app_removelast_last "" Hnil) as Hl.
    set (parts := PyPath.split_on "/" (PyPath.rstrip_char "/" p)) in *.
    destruct (removelast parts) as [|q qs] eqn:E.
    + rewrite Hl. simpl. exists p. split; [exact Hp|reflexivity].
    + replace (1 <? List.length parts) with true.
      2:{ symmetry. apply Nat.ltb_lt. rewrite Hl, length_app. simpl. lia. }
      rewrite Hl, join_snoc in Hj by discriminate.
      exists ("/" ++ last parts "" ++ t)%string. split; [discriminate|].
      rewrite Ht at 1. rewrite <- Hj.
      now rewrite !ReFacts.append_assoc.
  - intros name Hne Hno. unfold navigate_up.
    change ("/" ++ name)%string with ("" ++ String "/" name)%string.
    rewrite (rstrip_char_append "/" "" (String "/" name)).
    2:{ discriminate. }
    2:{ simpl. rewrite (rstrip_char_without _ _ Hno).
        destruct name; [contradiction|reflexivity]. }
    rewrite split_on_at_separator, (split_on_without _ _ Hno).
    reflexivity.
Qed.

Lemma going_up_gives_a_proper_prefix_witness :
  (exists rest, rest <> ""
                /\ "backup/2024/" = (navigate_up "backup/2024/" ++ rest)%string)
  /\ navigate_up "/home" = "".
Proof.
  destruct (going_up_gives_a_proper_prefix "backup/2024/") as [H1 H2];
    [discriminate|].
  split; [exact H1|]. apply (H2 "home"); [discriminate|reflexivity].
Defined.

(* ------------------------------------------------------------------ *)
(** ** More about the copy queue *)

Lemma poll_loop_spec (cancel_seen : option cancellation) (pending : nat) :
  forall check,
    poll_loop cancel_seen pending check
    = match cancel_seen with
      | Some c => seen_at c <=? check + pending
      | None => false
      end.
Proof.
  induction pending as [|n IH]; intros check; simpl.
  - destruct cancel_seen as [c|]; simpl; [|reflexivity].
    rewrite Nat.add_0_r. now destruct (seen_at c <=? check).
  - rewrite IH. destruct cancel_seen as [c|]; simpl; [|reflexivity].
    destruct (seen_at c <=? check) eqn:E.
    + symmetry. apply Nat.leb_le. apply Nat.leb_le in E. lia.
    + f_equal. lia.
Qed.

Lemma copy_loop_invariants (world : nat -> behaviour) (src dst : FilePanel)
  (total : nat) (entries : list FileEntry) :
  forall i,
    let run := copy_loop world src dst total i entries in
    exists k m,
      k <= List.length entries /\ m <= k
      /\ launched (fst run) = map (copy_args src dst) (firstn k entries)
      /\ filter is_monitor_event (fst run) = monitor_turns i m
      /\ List.length (filter is_push (fst run)) = 0
      /\ match snd run with
         | Returned => List.length (filter is_pop (fst run)) = 1
         | Raised e =>
             exists j,
               (world j = LaunchFails e
                /\ List.length (filter is_pop (fst run)) = 1)
               \/ (exists c pending code,
                      world j = Runs (Some c) pending code
                      /\ cleanup_ends c = Raised e
                      /\ List.length (filter is_pop (fst run)) = 2)
         end.
Proof.
  induction entries as [|entry rest IH]; intros i; cbn [copy_loop].
  - exists 0, 0. simpl. repeat split; auto.
  - destruct (world i) as [e|cancel_seen pending code] eqn:Hw.
    + exists 1, 0. simpl. do 5 (split; [auto; lia|]).
      exists i. left. auto.
    + destruct (poll_loop cancel_seen pending 0) eqn:Hp.
      { exists 1, 1.
        destruct cancel_seen as [c|];
          [|rewrite poll_loop_not_cancelled in Hp; discriminate].
        cbn [cleanup_outcome].
        destruct (cleanup_ends c) as [|e] eqn:Hc; simpl.
        - do 5 (split; [auto; lia|]). reflexivity.
        - do 5 (split; [auto; lia|]).
          exists i. right. exists c, pending, code. auto. }
      destruct (negb (code =? 0)%Z).
      { exists 1, 1. simpl. do 5 (split; [auto; lia|]). reflexivity. }
      destruct (IH (S i)) as (k & m & Hk & Hm & Hl & Hmon & Hpush & Hpop).
      destruct (copy_loop world src dst total (S i) rest) as [later out].
      exists (S k), (S m). simpl in *.
      split; [lia|]. split; [lia|]. split; [now rewrite Hl|].
      split; [now rewrite Hmon|]. split; [exact Hpush|]. exact Hpop.
Qed.

(** X18: whatever the processes do, a run of the copy queue shows the
    progress modal once, starts the copy commands of the first items of the
    queue, in their order, and nothing else, and stops every monitor it
    started before it starts the next. When it returns, it has dismissed
    the modal exactly once. It raises only the error of a launch, having
    dismissed the modal once, or the error of the partial-file cleaner that
    it calls on a cancellation, and then it has dismissed the modal twice:
    before the call of the cleaner and again in its except clause. *)
Theorem copy_queue_invariants (world : nat -> behaviour)
  (src dst : FilePanel) (entries : list FileEntry) :
  let run := _do_copy_operation_async world src dst entries in
  exists k m,
    k <= List.length entries /\ m <= k
    /\ launched (fst run) = map (copy_args src dst) (firstn k entries)
    /\ filter is_monitor_event (fst run) = monitor_turns 1 m
    /\ List.length (filter is_push (fst run)) = 1
    /\ match snd run with
       | Returned => List.length (filter is_pop (fst run)) = 1
       | Raised e =>
           exists j,
             (world j = LaunchFails e
              /\ List.length (filter is_pop (fst run)) = 1)
             \/ (exists c pending code,
                    world j = Runs (Some c) pending code
                    /\ cleanup_ends c = Raised e
                    /\ List.length (filter is_pop (fst run)) = 2)
       end.
Proof.
  unfold _do_copy_operation_async.
  destruct (copy_loop_invariants world src dst (List.length entries)
              entries 1) as (k & m & Hk & Hm & Hl & Hmon & Hpush & Hpop).
  destruct (copy_loop world src dst (List.length entries) 1 entries)
    as [trace out].
  exists k, m. simpl in *.
  split; [exact Hk|]. split; [exact Hm|]. split; [exact Hl|].
  split; [exact Hmon|]. split; [now rewrite Hpush|]. exact Hpop.
Qed.

Lemma copy_loop_succeeds (world : nat -> behaviour) (src dst : FilePanel)
  (total : nat) (entries : list FileEntry) :
  forall i,
    (forall j, j < List.length entries -> exits_with world (i + j) 0) ->
    let run := copy_loop world src dst total i entries in
    snd run = Returned
    /\ launched (fst run) = map (copy_args src dst) entries
    /\ statuses (fst run)
       = [ ("Copied " ++ str_of_nat total ++ " item(s)")%string ]
    /\ last (fst run) PopScreen = RefreshPanel dst.
Proof.
  induction entries as [|entry rest IH]; intros i Hok; cbn [copy_loop].
  - simpl. repeat split.
  - destruct (Hok 0) as (cancel & pending & Hw & Hp); [simpl; lia|].
    rewrite Nat.add_0_r in Hw. rewrite Hw, Hp. simpl negb. cbn iota.
    destruct (IH (S i)) as (Ho & Hl & Hs & Hlast).
    { intros j Hj. replace (S i + j) with (i + S j) by lia.
      apply Hok. simpl. lia. }
    destruct (copy_loop world src dst total (S i) rest) as [later out].
    simpl in *. repeat split; auto.
    + now rewrite Hl.
    + destruct later; [discriminate|exact Hlast].
Qed.

(** X19: when the process of every item exits with status zero and no
    cancellation is seen, the queue starts the copy command of every item,
    in order, returns, reports the number of items once, and ends by
    refreshing the destination panel. *)
Theorem copy_queue_completes (world : nat -> behaviour)
  (src dst : FilePanel) (entries : list FileEntry) :
  (forall j, j < List.length entries -> exits_with world (S j) 0) ->
  let run := _do_copy_operation_async world src dst entries in
  snd run = Returned
  /\ launched (fst run) = map (copy_args src dst) entries
  /\ statuses (fst run)
     = [ ("Copied " ++ str_of_nat (List.length entries)
          ++ " item(s)")%string ]
  /\ last (fst run) PopScreen = RefreshPanel dst.
Proof.
  intros Hok. unfold _do_copy_operation_async.
  pose proof (copy_loop_succeeds world src dst (List.length entries)
                entries 1 Hok) as H.
  destruct (copy_loop world src dst (List.length entries) 1 entries)
    as [trace out].
  simpl in *. destruct H as (Ho & Hl & Hs & Hlast).
  repeat split; auto. destruct trace; [discriminate|exact Hlast].
Qed.

Lemma copy_queue_completes_witness :
  let world := fun _ : nat => Runs None 2 0 in
  let src := mkPanel "local" "/home/me" in
  let dst := mkPanel "gdrive" "" in
  let one := mkFileEntry "one.txt" "one.txt" 10 "" false "" in
  let two := mkFileEntry "two" "two" 0 "" true "" in
  let run := _do_copy_operation_async world src dst [one; two] in
  snd run = Returned
  /\ launched (fst run)
     = [ ["copy"; "local:/home/me/one.txt"; "gdrive:"];
         ["copy"; "local:/home/me/two"; "gdrive:two"] ]
  /\ statuses (fst run) = [ "Copied 2 item(s)" ]
  /\ last (fst run) PopScreen = RefreshPanel dst.
Proof.
  intros world src dst one two.
  apply (copy_queue_completes world src dst [one; two]).
  intros j Hj. exists None, 2. split; reflexivity.
Defined.

Lemma copy_loop_cancelled (world : nat -> behaviour) (src dst : FilePanel)
  (total : nat) (item : FileEntry) (entries : list FileEntry) :
  forall i k cancel pending code,
    nth_error entries k = Some item ->
    (forall j, j < k -> exits_with world (i + j) 0) ->
    world (i + k) = Runs (Some cancel) pending code ->
    seen_at cancel <= pending ->
    let run := copy_loop world src dst total i entries in
    launched (fst run) = map (copy_args src dst) (firstn (S k) entries)
    /\ In (CleanupPartialFile
             (build_path (remote dst) (current_path dst) (name item))
             (name item) (is_dir item)) (fst run)
    /\ match cleanup_ends cancel with
       | Returned =>
           snd run = Returned /\ statuses (fst run) = [ "Copy cancelled" ]
           /\ List.length (filter is_pop (fst run)) = 1
       | Raised e =>
           snd run = Raised e /\ statuses (fst run) = []
           /\ List.length (filter is_pop (fst run)) = 2
       end.
Proof.
  induction entries as [|entry rest IH];
    intros i k cancel pending code Hk Hok Hw Hc.
  - destruct k; discriminate.
  - destruct k as [|k].
    + injection Hk as ->. rewrite Nat.add_0_r in Hw.
      cbn [copy_loop]. rewrite Hw, poll_loop_spec.
      replace (seen_at cancel <=? 0 + pending) with true
        by (symmetry; apply Nat.leb_le; lia).
      cbn [cleanup_outcome].
      destruct (cleanup_ends cancel) as [|e]; simpl;
        (split; [reflexivity|]); (split; [auto 10|]); repeat split.
    + destruct (Hok 0) as (cancel0 & pending0 & Hw0 & Hp0); [lia|].
      rewrite Nat.add_0_r in Hw0. cbn [copy_loop]. rewrite Hw0, Hp0.
      simpl negb. cbn iota.
      destruct (IH (S i) k cancel pending code Hk) as (Hl & Hin & Hend).
      * intros j Hj. replace (S i + j) with (i + S j) by lia.
        apply Hok. lia.
      * now replace (S i + k) with (i + S k) by lia.
      * exact Hc.
      * destruct (copy_loop world src dst total (S i) rest) as [later out].
        simpl in *. split; [now rewrite Hl|]. split; [auto|]. exact Hend.
Qed.

(** X20: a cancellation is acted on only at a check of the poll loop.
    When the items before item [k+1] are copied and the cancellation is
    visible at a check made while the process of item [k+1] is still
    running, nothing is started for a later item and the partial-file
    cleaner is called for the destination of that item. When that call
    returns, the queue returns and its one status message is that the copy
    was cancelled; when it raises, the queue sends no status, dismisses
    the modal a second time and raises the error. A cancellation that
    becomes visible only after the last check of an item does not stop
    that item. *)
Theorem cancellation_stops_the_queue (world : nat -> behaviour)
  (src dst : FilePanel) (entries : list FileEntry) (k : nat)
  (item : FileEntry) (cancel : cancellation) (pending : nat) (code : Z) :
  nth_error entries k = Some item ->
  (forall j, j < k -> exits_with world (S j) 0) ->
  world (S k) = Runs (Some cancel) pending code ->
  (seen_at cancel <= pending ->
   let run := _do_copy_operation_async world src dst entries in
   launched (fst run) = map (copy_args src dst) (firstn (S k) entries)
   /\ In (CleanupPartialFile
            (build_path (remote dst) (current_path dst) (name item))
            (name item) (is_dir item)) (fst run)
   /\ match cleanup_ends cancel with
      | Returned =>
          snd run = Returned /\ statuses (fst run) = [ "Copy cancelled" ]
          /\ List.length (filter is_pop (fst run)) = 1
      | Raised e =>
          snd run = Raised e /\ statuses (fst run) = []
          /\ List.length (filter is_pop (fst run)) = 2
      end)
  /\ (pending < seen_at cancel -> exits_with world (S k) code).
Proof.
  intros Hk Hok Hw. split.
  - intros Hc. unfold _do_copy_operation_async.
    pose proof (copy_loop_cancelled world src dst (List.length entries)
                  item entries 1 k cancel pending code Hk Hok Hw Hc) as H.
    destruct (copy_loop world src dst (List.length entries) 1 entries)
      as [trace out].
    simpl in *. destruct H as (Hl & Hin & Hend).
    split; [exact Hl|]. split; [auto|]. exact Hend.
  - intros Hc. exists (Some cancel), pending. split; [exact Hw|].
    rewrite poll_loop_spec. apply Nat.leb_gt. lia.
Qed.

Lemma cancellation_stops_the_queue_witness :
  let world := fun i : nat =>
    match i with
    | 1 => Runs None 3 0
    | 2 => Runs (Some (mkCancel 2 Returned)) 5 0
    | _ => Runs (Some (mkCancel 0 (Raised (OSError "rclone not found")))) 5 0
    end in
  let src := mkPanel "local" "/home/me" in
  let dst := mkPanel "gdrive" "backup" in
  let one := mkFileEntry "one.txt" "one.txt" 10 "" false "" in
  let two := mkFileEntry "two.bin" "two.bin" 20 "" false "" in
  let three := mkFileEntry "three.txt" "three.txt" 30 "" false "" in
  let run := _do_copy_operation_async world src dst [one; two; three] in
  snd run = Returned
  /\ launched (fst run)
     = [ ["copy"; "local:/home/me/one.txt"; "gdrive:backup"];
         ["copy"; "local:/home/me/two.bin"; "gdrive:backup"] ]
  /\ statuses (fst run) = [ "Copy cancelled" ]
  /\ In (CleanupPartialFile "gdrive:backup/two.bin" "two.bin" false)
       (fst run).
Proof.
  intros world src dst one two three.
  destruct (cancellation_stops_the_queue world src dst [one; two; three] 1
              two (mkCancel 2 Returned) 5 0) as [H _].
  - reflexivity.
  - intros j Hj. assert (j = 0) as -> by lia.
    exists None, 3. split; reflexivity.
  - reflexivity.
  - destruct H as (Hl & Hin & Ho & Hs & _); [simpl; lia|].
    intros run. split; [exact Ho|]. split; [exact Hl|].
    split; [exact Hs|exact Hin].
Defined.

(* ------------------------------------------------------------------ *)
(** ** The move queue *)

Lemma move_loop_mirrors_copy (world : nat -> behaviour)
  (src dst : FilePanel) (total : nat) (entries : list FileEntry) :
  forall i,
    let moved := move_loop world src dst total i entries in
    let copied := copy_loop world src dst total i entries in
    snd moved = snd copied
    /\ launched (fst moved) = map as_move (launched (fst copied))
    /\ filter is_monitor_event (fst moved)
       = filter is_monitor_event (fst copied)
    /\ (snd moved = Returned ->
        In (RefreshPanel src) (fst moved)
        /\ In (RefreshPanel dst) (fst moved)).
Proof.
  induction entries as [|entry rest IH]; intros i;
    cbn [move_loop copy_loop].
  - simpl. do 3 (split; [reflexivity|]). intros _. split; auto 10.
  - destruct (world i) as [e|cancel_seen pending code].
    + simpl. do 3 (split; [reflexivity|]). discriminate.
    + destruct (poll_loop cancel_seen pending 0).
      { destruct (cleanup_outcome cancel_seen) as [|e]; simpl.
        - do 3 (split; [reflexivity|]). intros _. split; auto 10.
        - do 3 (split; [reflexivity|]). discriminate. }
      destruct (negb (code =? 0)%Z).
      { simpl. do 3 (split; [reflexivity|]). intros _. split; auto 10. }
      destruct (IH (S i)) as (Ho & Hl & Hm & Hr).
      destruct (move_loop world src dst total (S i) rest) as [later out].
      destruct (copy_loop world src dst total (S i) rest) as [later' out'].
      simpl in *. split; [exact Ho|]. split; [now rewrite Hl|].
      split; [now rewrite Hm|].
      intros Hret. destruct (Hr Hret) as [H1 H2]. split; auto 10.
Qed.

(** X21: the move queue treats its queue as the copy queue does. With
    the same processes, it starts a command for the same items, each the
    copy command with the verb [move], starts and stops the same monitors,
    and ends the same way; whenever it returns, it has refreshed the source
    panel as well as the destination panel. *)
Theorem move_queue_mirrors_copy_queue (world : nat -> behaviour)
  (src dst : FilePanel) (entries : list FileEntry) :
  let moved := _do_move_operation_async world src dst entries in
  let copied := _do_copy_operation_async world src dst entries in
  snd moved = snd copied
  /\ launched (fst moved) = map as_move (launched (fst copied))
  /\ filter is_monitor_event (fst moved)
     = filter is_monitor_event (fst copied)
  /\ (snd moved = Returned ->
      In (RefreshPanel src) (fst moved) /\ In (RefreshPanel dst) (fst moved)).
Proof.
  unfold _do_move_operation_async, _do_copy_operation_async.
  pose proof (move_loop_mirrors_copy world src dst (List.length entries)
                entries 1) as H.
  destruct (move_loop world src dst (List.length entries) 1 entries)
    as [trace out].
  destruct (copy_loop world src dst (List.length entries) 1 entries)
    as [trace' out'].
  simpl in *. destruct H as (Ho & Hl & Hm & Hr).
  split; [exact Ho|]. split; [exact Hl|]. split; [exact Hm|].
  intros Hret. destruct (Hr Hret) as [H1 H2]. split; auto 10.
Qed.

Lemma move_queue_mirrors_copy_queue_witness :
  let world := fun i : nat =>
    match i with
    | 1 => Runs None 1 0
    | _ => Runs None 0 3
    end in
  let src := mkPanel "local" "/home/me" in
  let dst := mkPanel "gdrive" "backup" in
  let one := mkFileEntry "one.txt" "one.txt" 10 "" false "" in
  let two := mkFileEntry "two" "two" 0 "" true "" in
  let moved := _do_move_operation_async world src dst [one; two] in
  launched (fst moved)
  = [ ["move"; "local:/home/me/one.txt"; "gdrive:backup"];
      ["move"; "local:/home/me/two"; "gdrive:backup/two"] ]
  /\ In (RefreshPanel src) (fst moved)
  /\ In (RefreshPanel dst) (fst moved).
Proof.
  intros world src dst one two moved.
  destruct (move_queue_mirrors_copy_queue world src dst [one; two])
    as (_ & Hl & _ & Hr).
  split; [etransitivity; [exact Hl|reflexivity]|]. apply Hr. reflexivity.
Defined.

(* ------------------------------------------------------------------ *)
(** ** The delete queue *)

Section DeleteFacts.
Variable subprocess_run : list string -> result CompletedProcess.
Variable rclone_path : string.
Variable config_path : option string.
Variable extra_flags : string.
Variable panel : FilePanel.

Lemma delete_loop_halts (total : nat) (failed : FileEntry)
  (entries : list FileEntry) :
  forall i k,
    nth_error entries k = Some failed ->
    (forall e, In e (firstn k entries) ->
               delete_result subprocess_run rclone_path config_path
                 extra_flags panel e = Ok true) ->
    delete_result subprocess_run rclone_path config_path extra_flags panel
      failed <> Ok true ->
    let run := delete_loop subprocess_run rclone_path config_path
                 extra_flags panel total i entries in
    deletions (fst run) = map (delete_target panel) (firstn (S k) entries)
    /\ filter is_refresh (fst run) = []
    /\ cursor_moves (fst run) = []
    /\ match delete_result subprocess_run rclone_path config_path
               extra_flags panel failed with
       | Raise e =>
           snd run = Some (Raised e) /\ delete_statuses (fst run) = []
       | Ok _ =>
           snd run = Some Returned
           /\ delete_statuses (fst run)
              = [ ("Failed to delete " ++ name failed)%string ]
       end.
Proof.
  induction entries as [|entry rest IH]; intros i k Hk Hok Hfail.
  - destruct k; discriminate.
  - cbn [delete_loop]. destruct k as [|k].
    + injection Hk as ->. unfold delete_result, delete_target in Hfail.
      cbn [fst snd] in Hfail. unfold delete_result, delete_target.
      cbn [fst snd].
      destruct (Commands.delete_file subprocess_run rclone_path config_path
                  (build_path (remote panel) (current_path panel)
                     (name failed))
                  (is_dir failed) extra_flags) as [[|]|e].
      * contradiction.
      * simpl. repeat split.
      * simpl. repeat split.
    + pose proof (Hok entry (or_introl eq_refl)) as Hentry.
      unfold delete_result, delete_target in Hentry. cbn [fst snd] in Hentry.
      rewrite Hentry.
      destruct (IH (S i) k Hk) as (Hd & Hf & Hc & Hr).
      * intros e He. apply Hok. now right.
      * exact Hfail.
      * destruct (delete_loop subprocess_run rclone_path config_path
                    extra_flags panel total (S i) rest) as [later out].
        simpl in *. split; [|split; [|split]].
        -- now rewrite Hd.
        -- exact Hf.
        -- exact Hc.
        -- exact Hr.
Qed.

Lemma delete_loop_succeeds (total : nat) (entries : list FileEntry) :
  forall i,
    (forall e, In e entries ->
               delete_result subprocess_run rclone_path config_path
                 extra_flags panel e = Ok true) ->
    let run := delete_loop subprocess_run rclone_path config_path
                 extra_flags panel total i entries in
    snd run = None
    /\ deletions (fst run) = map (delete_target panel) entries
    /\ delete_statuses (fst run)
       = [ ("Deleted " ++ str_of_nat total ++ " item(s)")%string ]
    /\ filter is_refresh (fst run) = []
    /\ cursor_moves (fst run) = [].
Proof.
  induction entries as [|entry rest IH]; intros i Hok; cbn [delete_loop].
  - simpl. repeat split.
  - pose proof (Hok entry (or_introl eq_refl)) as Hentry.
    unfold delete_result, delete_target in Hentry. cbn [fst snd] in Hentry.
    rewrite Hentry.
    destruct (IH (S i)) as (Ho & Hd & Hs & Hr & Hc).
    { intros e He. apply Hok. now right. }
    destruct (delete_loop subprocess_run rclone_path config_path
                extra_flags panel total (S i) rest) as [later out].
    simpl in *. repeat split; auto. now rewrite Hd.
Qed.

End DeleteFacts.

(** X22: the delete queue stops at the first deletion that does not
    succeed. When the deletions of the items before item [k+1] succeed and
    that of item [k+1] fails or raises, the queue has asked for the deletion
    of the first [k+1] items and of nothing else, and has dismissed the
    modal once; on a failure it reports the failed item and returns, on an
    error it raises it. In both cases the panel is not refreshed and the
    cursor is not moved: the items already deleted stay on the screen. *)
Theorem delete_queue_halts_at_first_failure
  (subprocess_run : list string -> result CompletedProcess)
  (rclone_path : string) (config_path : option string)
  (extra_flags : string) (panel : FilePanel) (old_cursor_row row_count : Z)
  (entries : list FileEntry) (k : nat) (failed : FileEntry) :
  nth_error entries k = Some failed ->
  (forall e, In e (firstn k entries) ->
             delete_result subprocess_run rclone_path config_path
               extra_flags panel e = Ok true) ->
  delete_result subprocess_run rclone_path config_path extra_flags panel
    failed <> Ok true ->
  let run := _do_delete_operation subprocess_run rclone_path config_path
               extra_flags panel old_cursor_row row_count entries in
  deletions (fst run) = map (delete_target panel) (firstn (S k) entries)
  /\ filter is_refresh (fst run) = []
  /\ cursor_moves (fst run) = []
  /\ match delete_result subprocess_run rclone_path config_path
             extra_flags panel failed with
     | Raise e => snd run = Raised e /\ delete_statuses (fst run) = []
     | Ok _ =>
         snd run = Returned
         /\ delete_statuses (fst run)
            = [ ("Failed to delete " ++ name failed)%string ]
     end.
Proof.
  intros Hk Hok Hfail. unfold _do_delete_operation.
  pose proof (delete_loop_halts subprocess_run rclone_path config_path
                extra_flags panel (List.length entries) failed entries 1 k
                Hk Hok Hfail) as H.
  destruct (delete_loop subprocess_run rclone_path config_path extra_flags
              panel (List.length entries) 1 entries) as [trace out].
  cbn [fst snd] in H. destruct H as (Hd & Hf & Hc & Hr).
  destruct (delete_result subprocess_run rclone_path config_path
              extra_flags panel failed) as [b|e].
  - destruct Hr as [-> Hs]. simpl. auto.
  - destruct Hr as [-> Hs]. simpl. auto.
Qed.

Lemma delete_queue_halts_at_first_failure_witness :
  let subprocess_run := fun cmd : list string =>
    match cmd with
    | [_; "purge"; _] => Ok (mkCompleted 1 "" "directory not found")
    | _ => Ok (mkCompleted 0 "" "")
    end in
  let panel := mkPanel "gdrive" "backup" in
  let one := mkFileEntry "one.txt" "one.txt" 10 "" false "" in
  let two := mkFileEntry "two" "two" 0 "" true "" in
  let three := mkFileEntry "three.txt" "three.txt" 30 "" false "" in
  let run := _do_delete_operation subprocess_run "rclone" None "" panel 1 3
               [one; two; three] in
  deletions (fst run)
  = [ ("gdrive:backup/one.txt", false); ("gdrive:backup/two", true) ]
  /\ filter is_refresh (fst run) = []
  /\ cursor_moves (fst run) = []
  /\ snd run = Returned
  /\ delete_statuses (fst run) = [ "Failed to delete two" ].
Proof.
  intros subprocess_run panel one two three.
  destruct (delete_queue_halts_at_first_failure subprocess_run "rclone" None
              "" panel 1 3 [one; two; three] 1 two)
    as (Hd & Hf & Hc & Hr).
  - reflexivity.
  - intros e [<-|[]]. reflexivity.
  - discriminate.
  - intros run.
    assert (E : delete_result subprocess_run "rclone" None "" panel two
                = Ok false) by reflexivity.
    rewrite E in Hr. destruct Hr as [Ho Hs].
    split; [exact Hd|]. split; [exact Hf|]. split; [exact Hc|].
    split; [exact Ho|exact Hs].
Defined.

(** X23: when every deletion succeeds, the delete queue asks for the
    deletion of every item, in order ([purge] is asked for a directory,
    [delete] for a file), reports their number, refreshes the panel once,
    and then puts the cursor back on its old row or, when the list has
    become shorter than that, on the last row; when the list has become
    empty the cursor is not moved. A cursor that was on a row of the list
    is put on a row of the list. *)
Theorem delete_queue_completes
  (subprocess_run : list string -> result CompletedProcess)
  (rclone_path : string) (config_path : option string)
  (extra_flags : string) (panel : FilePanel) (old_cursor_row row_count : Z)
  (entries : list FileEntry) :
  (forall e, In e entries ->
             delete_result subprocess_run rclone_path config_path
               extra_flags panel e = Ok true) ->
  let run := _do_delete_operation subprocess_run rclone_path config_path
               extra_flags panel old_cursor_row row_count entries in
  snd run = Returned
  /\ deletions (fst run) = map (delete_target panel) entries
  /\ delete_statuses (fst run)
     = [ ("Deleted " ++ str_of_nat (List.length entries)
          ++ " item(s)")%string ]
  /\ filter is_refresh (fst run) = [ DRefreshPanel ]
  /\ cursor_moves (fst run)
     = (if (0 <? row_count)%Z
        then [ Z.min old_cursor_row (row_count - 1) ]
        else [])
  /\ (forall row, In row (cursor_moves (fst run)) ->
                  (0 <= old_cursor_row)%Z -> (0 <= row < row_count)%Z).
Proof.
  intros Hok. unfold _do_delete_operation.
  pose proof (delete_loop_succeeds subprocess_run rclone_path config_path
                extra_flags panel (List.length entries) entries 1 Hok) as H.
  destruct (delete_loop subprocess_run rclone_path config_path extra_flags
              panel (List.length entries) 1 entries) as [trace out].
  cbn [fst snd] in H. destruct H as (-> & Hd & Hs & Hf & Hc).
  lazy beta iota zeta delta [fst snd].
  assert (Hmoves :
    cursor_moves
      (DPushProgressModal "Deleting Files" (List.length entries)
       :: trace ++ DRefreshPanel ::
          (if (0 <? row_count)%Z
           then [ DMoveCursor (Z.min old_cursor_row (row_count - 1)) ]
           else []))
    = (if (0 <? row_count)%Z
       then [ Z.min old_cursor_row (row_count - 1) ]
       else [])).
  { unfold cursor_moves in *. cbn [flat_map app].
    rewrite flat_map_app, Hc. cbn [flat_map app].
    now destruct (0 <? row_count)%Z. }
  split; [reflexivity|]. split; [|split; [|split; [|split]]].
  - unfold deletions in *. cbn [flat_map app].
    rewrite flat_map_app, Hd. cbn [flat_map].
    destruct (0 <? row_count)%Z; cbn [flat_map app];
      now rewrite app_nil_r.
  - unfold delete_statuses in *. cbn [flat_map app].
    rewrite flat_map_app, Hs. cbn [flat_map].
    destruct (0 <? row_count)%Z; reflexivity.
  - rewrite filter_app.
    match goal with
    | |- (filter is_refresh (?a :: ?l) ++ _)%list = _ =>
        change (filter is_refresh (a :: l)) with (filter is_refresh l)
    end.
    rewrite Hf.
    destruct (0 <? row_count)%Z; reflexivity.
  - exact Hmoves.
  - intros row Hrow Hold.
    assert (Hrow' : In row (if (0 <? row_count)%Z
                            then [ Z.min old_cursor_row (row_count - 1) ]
                            else []))
      by (rewrite <- Hmoves; exact Hrow).
    destruct (0 <? row_count)%Z eqn:E; [|contradiction].
    apply Z.ltb_lt in E. destruct Hrow' as [<-|[]]. lia.
Qed.

Lemma delete_queue_completes_witness :
  let subprocess_run := fun _ : list string => Ok (mkCompleted 0 "" "") in
  let panel := mkPanel "gdrive" "backup" in
  let one := mkFileEntry "one.txt" "one.txt" 10 "" false "" in
  let two := mkFileEntry "two" "two" 0 "" true "" in
  let run := _do_delete_operation subprocess_run "rclone" None "" panel 4 3
               [one; two] in
  snd run = Returned
  /\ deletions (fst run)
     = [ ("gdrive:backup/one.txt", false); ("gdrive:backup/two", true) ]
  /\ delete_statuses (fst run) = [ "Deleted 2 item(s)" ]
  /\ cursor_moves (fst run) = [ 2%Z ].
Proof.
  intros subprocess_run panel one two.
  destruct (delete_queue_completes subprocess_run "rclone" None "" panel 4 3
              [one; two]) as (Ho & Hd & Hs & _ & Hc & _).
  - intros e He. reflexivity.
  - intros run. split; [exact Ho|]. split; [exact Hd|].
    split; [exact Hs|exact Hc].
Defined.

(* ------------------------------------------------------------------ *)
(** ** The selection *)

Lemma is_selected_remove (name n : string) (selected : list string) :
  Selection.is_selected (Selection.set_remove name selected) n
  = negb (String.eqb n name) && Selection.is_selected selected n.
Proof.
  unfold Selection.is_selected, Selection.set_remove.
  induction selected as [|x l IH]; simpl; [now rewrite andb_false_r|].
  destruct (String.eqb name x) eqn:E; simpl.
  - apply String.eqb_eq in E. subst x. rewrite IH.
    now destruct (String.eqb n name).
  - rewrite IH. destruct (String.eqb n x) eqn:E'; simpl.
    + apply String.eqb_eq in E'. subst x.
      rewrite String.eqb_sym, E. reflexivity.
    + reflexivity.
Qed.

Lemma filter_same_name (l : list FileEntry) :
  NoDup (map name l) ->
  forall i e,
    nth_error l i = Some e ->
    filter (fun x => Selection.is_selected [name e] (name x)) l = [e].
Proof.
  induction l as [|a l IH]; intros Hnd i e Hi.
  - destruct i; discriminate.
  - inversion Hnd as [|? ? Ha Hl]; subst. simpl.
    destruct i as [|i].
    + injection Hi as ->. rewrite String.eqb_refl. simpl. f_equal.
      apply filter_none. apply Forall_forall. intros x Hx.
      rewrite orb_false_r. apply String.eqb_neq. intros Heq.
      apply Ha. rewrite <- Heq. now apply in_map.
    + simpl in Hi. rewrite orb_false_r.
      replace (String.eqb (name a) (name e)) with false.
      * simpl. rewrite <- (IH Hl i e Hi). apply filter_ext. intros x.
        simpl. reflexivity.
      * symmetry. apply String.eqb_neq. intros Heq. apply Ha.
        rewrite Heq. apply in_map. eapply nth_error_In. exact Hi.
Qed.

(** X24: what the operations act on is part of the listing, and is
    never the row of the parent directory. Every entry that
    [get_selected_entries] returns is an entry of the list; with nothing
    selected it returns at most one entry, and none when the cursor is on
    the first row of a directory that has a parent or when the cursor is
    below the list. *)
Theorem selected_entries_are_listed (v : Selection.FileListView) :
  (forall e, In e (Selection.get_selected_entries v) ->
             In e (Selection.entries v))
  /\ (Selection.selected_items v = [] ->
      List.length (Selection.get_selected_entries v) <= 1
      /\ (Selection.current_path v <> "" ->
          Selection.cursor_row v = 0%Z ->
          Selection.get_selected_entries v = [])
      /\ ((Z.of_nat (List.length (Selection.entries v))
           <= Selection.cursor_row v - Selection.offset v)%Z ->
          Selection.get_selected_entries v = [])).
Proof.
  unfold Selection.get_selected_entries. split.
  - intros e. destruct (Selection.selected_items v) as [|s sel].
    + destruct (Selection.entries v) as [|a l] eqn:El; [contradiction|].
      destruct (Selection.cursor_row v <? 0)%Z; [contradiction|].
      destruct ((0 <=? Selection.cursor_row v - Selection.offset v)%Z
                && (Selection.cursor_row v - Selection.offset v
                    <? Z.of_nat (List.length (a :: l)))%Z);
        [|contradiction].
      destruct (nth_error (a :: l)
                  (Z.to_nat (Selection.cursor_row v - Selection.offset v)))
        as [entry|] eqn:En; [|contradiction].
      intros [<-|[]]. eapply nth_error_In. exact En.
    + intros H. apply filter_In in H. tauto.
  - intros ->. destruct (Selection.entries v) as [|a l] eqn:El.
    + simpl. repeat split; auto.
    + destruct (Selection.cursor_row v <? 0)%Z eqn:Hc.
      * simpl. repeat split; auto.
      * split; [|split].
        -- destruct ((0 <=? Selection.cursor_row v - Selection.offset v)%Z
                     && (Selection.cursor_row v - Selection.offset v
                         <? Z.of_nat (List.length (a :: l)))%Z);
             [|simpl; lia].
           destruct (nth_error (a :: l)
                       (Z.to_nat (Selection.cursor_row v
                                  - Selection.offset v)));
             simpl; lia.
        -- intros Hp Hrow. unfold Selection.offset. rewrite Hrow.
           destruct (Selection.current_path v); [contradiction|].
           reflexivity.
        -- intros Hbelow.
           replace (Selection.cursor_row v - Selection.offset v
                    <? Z.of_nat (List.length (a :: l)))%Z with false
             by (symmetry; apply Z.ltb_ge; exact Hbelow).
           now rewrite andb_false_r.
Qed.

Lemma selected_entries_are_listed_witness :
  let one := mkFileEntry "one.txt" "one.txt" 10 "" false "" in
  let v := Selection.mkView [one] [] 0 "photos" in
  Selection.get_selected_entries v = [].
Proof.
  intros one v.
  destruct (selected_entries_are_listed v) as [_ H].
  destruct (H eq_refl) as (_ & Hparent & _).
  apply Hparent; [discriminate|reflexivity].
Defined.

(** X25: toggling the selection twice on the same row gives back the
    selection there was: the same names are selected, and the list, the
    cursor and the path are as before. *)
Theorem toggling_twice_restores_the_selection (v : Selection.FileListView) :
  let w := Selection.toggle_selection (Selection.toggle_selection v) in
  same_names (Selection.selected_items w) (Selection.selected_items v)
  /\ Selection.entries w = Selection.entries v
  /\ Selection.cursor_row w = Selection.cursor_row v
  /\ Selection.current_path w = Selection.current_path v.
Proof.
  assert (Hsame : forall s, same_names s s) by (intros s n; reflexivity).
  unfold Selection.toggle_selection at 2.
  destruct (Selection.entries v) as [|a l] eqn:El.
  { unfold Selection.toggle_selection. rewrite El. simpl. auto. }
  destruct (Selection.cursor_row v <? 0)%Z eqn:Hc.
  { unfold Selection.toggle_selection. rewrite El, Hc. simpl. auto. }
  destruct (negb (String.eqb (Selection.current_path v) "")
            && (Selection.cursor_row v =? 0)%Z) eqn:Hp.
  { unfold Selection.toggle_selection. rewrite El, Hc, Hp. simpl. auto. }
  destruct ((Selection.cursor_row v - Selection.offset v <? 0)%Z
            || (Z.of_nat (List.length (a :: l))
                <=? Selection.cursor_row v - Selection.offset v)%Z) eqn:Hi.
  { unfold Selection.toggle_selection. rewrite El, Hc, Hp, Hi. simpl. auto. }
  destruct (nth_error (a :: l)
              (Z.to_nat (Selection.cursor_row v - Selection.offset v)))
    as [entry|] eqn:En.
  2:{ unfold Selection.toggle_selection. rewrite El, Hc, Hp, Hi, En.
      simpl. auto. }
  assert (Hagain : forall sel,
    Selection.toggle_selection (Selection.with_selected v sel)
    = if Selection.is_selected sel (name entry)
      then Selection.with_selected v (Selection.set_remove (name entry) sel)
      else Selection.with_selected v (Selection.set_add (name entry) sel)).
  { intros sel. unfold Selection.toggle_selection, Selection.with_selected,
      Selection.offset in *. cbn [Selection.entries Selection.cursor_row
      Selection.current_path Selection.selected_items] in *.
    rewrite El, Hc, Hp, Hi, En. reflexivity. }
  destruct (Selection.is_selected (Selection.selected_items v) (name entry))
    eqn:Hs; rewrite Hagain.
  - rewrite is_selected_remove, String.eqb_refl. simpl.
    repeat split; auto. intros n. simpl.
    rewrite is_selected_remove.
    destruct (String.eqb n (name entry)) eqn:E; simpl; [|reflexivity].
    apply String.eqb_eq in E. subst n. now rewrite Hs.
  - unfold Selection.set_add at 1. simpl Selection.is_selected.
    rewrite String.eqb_refl. simpl.
    repeat split; auto. intros n. simpl.
    unfold Selection.set_add.
    change (Selection.set_remove (name entry)
              (name entry :: Selection.selected_items v))
      with (if negb (String.eqb (name entry) (name entry))
            then name entry
                 :: Selection.set_remove (name entry)
                      (Selection.selected_items v)
            else Selection.set_remove (name entry)
                   (Selection.selected_items v)).
    rewrite String.eqb_refl. simpl. rewrite is_selected_remove.
    destruct (String.eqb n (name entry)) eqn:E; simpl; [|reflexivity].
    apply String.eqb_eq in E. subst n. now rewrite Hs.
Qed.

(** X26: selecting just the entry under the cursor changes nothing for
    the operations. In a list whose entries have distinct names and in
    which nothing is selected, [get_selected_entries] returns the same
    entries after [toggle_selection] as before it. *)
Theorem selecting_the_current_entry_changes_nothing
  (v : Selection.FileListView) :
  NoDup (map name (Selection.entries v)) ->
  Selection.selected_items v = [] ->
  Selection.get_selected_entries (Selection.toggle_selection v)
  = Selection.get_selected_entries v.
Proof.
  intros Hnd Hsel. unfold Selection.toggle_selection.
  destruct (Selection.entries v) as [|a l] eqn:El; [reflexivity|].
  destruct (Selection.cursor_row v <? 0)%Z eqn:Hc; [reflexivity|].
  destruct (negb (String.eqb (Selection.current_path v) "")
            && (Selection.cursor_row v =? 0)%Z) eqn:Hp; [reflexivity|].
  destruct ((Selection.cursor_row v - Selection.offset v <? 0)%Z
            || (Z.of_nat (List.length (a :: l))
                <=? Selection.cursor_row v - Selection.offset v)%Z) eqn:Hi;
    [reflexivity|].
  destruct (nth_error (a :: l)
              (Z.to_nat (Selection.cursor_row v - Selection.offset v)))
    as [entry|] eqn:En; [|reflexivity].
  rewrite Hsel. simpl Selection.is_selected. cbn iota.
  unfold Selection.get_selected_entries, Selection.with_selected,
    Selection.set_add.
  cbn [Selection.selected_items Selection.entries].
  rewrite Hsel, El, Hc. rewrite <- El in Hnd |- *.
  rewrite (filter_same_name _ Hnd _ _ ltac:(rewrite El; exact En)).
  apply orb_false_iff in Hi as [Hlo Hhi].
  apply Z.ltb_ge in Hlo. apply Z.leb_gt in Hhi.
  rewrite El.
  replace (0 <=? Selection.cursor_row v - Selection.offset v)%Z with true
    by (symmetry; apply Z.leb_le; exact Hlo).
  replace (Selection.cursor_row v - Selection.offset v
           <? Z.of_nat (List.length (a :: l)))%Z with true
    by (symmetry; apply Z.ltb_lt; exact Hhi).
  simpl andb. cbn iota. now rewrite En.
Qed.

Lemma selecting_the_current_entry_changes_nothing_witness :
  let one := mkFileEntry "one.txt" "one.txt" 10 "" false "" in
  let two := mkFileEntry "two" "two" 0 "" true "" in
  let v := Selection.mkView [one; two] [] 2 "photos" in
  Selection.get_selected_entries (Selection.toggle_selection v) = [two].
Proof.
  intros one two v.
  rewrite (selecting_the_current_entry_changes_nothing v).
  - reflexivity.
  - vm_compute. repeat (constructor; [simpl; intuition discriminate|]).
    constructor.
  - reflexivity.
Defined.

(* ------------------------------------------------------------------ *)
(** ** The partial files *)

Import Partial.

Lemma substring_whole (s : string) : substring 0 (String.length s) s = s.
Proof. induction s as [|c s IH]; simpl; congruence. Qed.

Lemma substring_split (s : string) :
  forall n,
    n <= String.length s ->
    s = (substring 0 n s ++ substring n (String.length s - n) s)%string.
Proof.
  induction s as [|c s IH]; intros n Hn.
  - destruct n; reflexivity.
  - destruct n as [|n].
    + cbn [substring append]. rewrite Nat.sub_0_r.
      change (String.length (String c s)) with (S (String.length s)).
      cbn [substring]. now rewrite substring_whole.
    + simpl in Hn. cbn [substring append String.length Nat.sub].
      f_equal. apply IH. lia.
Qed.

Lemma endswith_iff (p s : string) :
  PyStr.endswith p s = true <-> exists a, s = (a ++ p)%string.
Proof.
  split.
  - unfold PyStr.endswith. intros H. apply andb_true_iff in H as [Hl He].
    apply Nat.leb_le in Hl. apply String.eqb_eq in He.
    exists (substring 0 (String.length s - String.length p) s).
    pose proof (substring_split s (String.length s - String.length p)
                  ltac:(lia)) as Hs.
    replace (String.length s - (String.length s - String.length p))
      with (String.length p) in Hs by lia.
    rewrite He in Hs. exact Hs.
  - intros [a ->]. apply endswith_append.
Qed.

Lemma endswith_trans (a b c : string) :
  PyStr.endswith a b = true -> PyStr.endswith b c = true ->
  PyStr.endswith a c = true.
Proof.
  rewrite !endswith_iff. intros [x ->] [y ->]. exists (y ++ x)%string.
  now rewrite ReFacts.append_assoc.
Qed.

Lemma startswith_append (p s : string) :
  PyStr.startswith p (p ++ s) = true.
Proof.
  induction p as [|c p IH]; simpl; [reflexivity|].
  now rewrite Ascii.eqb_refl, IH.
Qed.

Lemma os_path_join_ends (a b : string) :
  PyStr.endswith b (os_path_join a b) = true.
Proof.
  apply endswith_iff. unfold os_path_join.
  destruct (PyStr.startswith "/" b); [now exists ""|].
  destruct a as [|c a]; [now exists ""|].
  destruct (PyStr.endswith "/" (String c a)).
  - now exists (String c a).
  - exists (String c a ++ "/")%string. now rewrite ReFacts.append_assoc.
Qed.

(** A full path built for a name under a remote. *)
Lemma full_path_shape (remote dir_path name : string) :
  let full :=
    (remote ++ ":" ++ match dir_path with
                      | String _ _ => os_path_join dir_path name
                      | EmptyString => name
                      end)%string in
  PyStr.endswith name full = true
  /\ PyStr.startswith (remote ++ ":") full = true.
Proof.
  intros full. unfold full. split.
  - apply endswith_iff.
    destruct dir_path as [|c d].
    + exists (remote ++ ":")%string. now rewrite ReFacts.append_assoc.
    + destruct (proj1 (endswith_iff _ _)
                  (os_path_join_ends (String c d) name)) as [x Hx].
      rewrite Hx. exists (remote ++ ":" ++ x)%string.
      now rewrite !ReFacts.append_assoc.
  - rewrite <- ReFacts.append_assoc. apply startswith_append.
Qed.

Lemma find_partial_sound (remote : string) :
  forall scan dir_path,
    Forall (fun found =>
              PyStr.endswith ".partial" (fst found) = true
              /\ PyStr.endswith (fst found) (snd found) = true
              /\ PyStr.startswith (remote ++ ":") (snd found) = true)
      (_find_partial_files_recursive remote dir_path scan).
Proof.
  fix IH 1. intros [e|items] dir_path; cbn [_find_partial_files_recursive].
  - constructor.
  - induction items as [|[entry sub] rest IHrest]; cbn [flat_map].
    + constructor.
    + apply Forall_app. split; [|exact IHrest].
      destruct (is_dir entry); [apply IH|].
      destruct (PyStr.endswith ".partial" (name entry)) eqn:E;
        [|constructor].
      constructor; [|constructor]. cbn [fst snd].
      destruct (full_path_shape remote dir_path (name entry)) as [H1 H2].
      auto.
Qed.

(** X27: the scan for partial files returns only files whose name ends
    in [.partial], each with a full path under the remote that ends in that
    name; and it misses no such file of the directory it is given, whatever
    errors the listings of its subdirectories give. *)
Theorem partial_files_found_are_partial (remote dir_path : string)
  (scan : listing) :
  Forall (fun found =>
            PyStr.endswith ".partial" (fst found) = true
            /\ PyStr.endswith (fst found) (snd found) = true
            /\ PyStr.startswith (remote ++ ":") (snd found) = true)
    (_find_partial_files_recursive remote dir_path scan)
  /\ (forall items entry sub,
         scan = Lists items -> In (entry, sub) items ->
         is_dir entry = false ->
         PyStr.endswith ".partial" (name entry) = true ->
         In (name entry,
             (remote ++ ":" ++ match dir_path with
                               | String _ _ =>
                                   os_path_join dir_path (name entry)
                               | EmptyString => name entry
                               end)%string)
           (_find_partial_files_recursive remote dir_path scan)).
Proof.
  split; [apply find_partial_sound|].
  intros items entry sub -> Hin Hd He. cbn [_find_partial_files_recursive].
  apply in_flat_map. exists (entry, sub). split; [exact Hin|].
  cbn iota. rewrite Hd, He. now left.
Qed.

Lemma partial_files_found_are_partial_witness :
  let part := mkFileEntry "a.mp4.4f20d3fc.partial" "" 10 "" false "" in
  let sub := mkFileEntry "sub" "" 0 "" true "" in
  In ("a.mp4.4f20d3fc.partial", "gdrive:backup/a.mp4.4f20d3fc.partial")
    (_find_partial_files_recursive "gdrive" "backup"
       (Lists [ (sub, Fails (OSError "listing failed"));
                (part, Lists []) ])).
Proof.
  intros part sub.
  destruct (partial_files_found_are_partial "gdrive" "backup"
              (Lists [ (sub, Fails (OSError "listing failed"));
                       (part, Lists []) ])) as [_ H].
  apply (H _ part (Lists []) eq_refl); [simpl; auto|reflexivity|reflexivity].
Defined.

Section CleanupFacts.
Variable subprocess_run : list string -> result CompletedProcess.
Variable json_loads : string -> result json.
Variable rclone_path : string.
Variable config_path : option string.
Variable extra_flags : string.

Lemma matching_partial_files_sound (remote dir_path filename : string)
  (entries : list ListedEntry) :
  forall found,
    matching_partial_files remote dir_path filename entries = Ok found ->
    Forall (fun f => PyStr.endswith ".partial" (snd f) = true) found.
Proof.
  induction entries as [|entry rest IH]; intros found H;
    cbn [matching_partial_files] in H.
  - injection H as <-. constructor.
  - destruct (listed_name entry) as [| | | |entry_name| |]; try discriminate.
    destruct (matching_partial_files remote dir_path filename rest)
      as [later|e]; [|discriminate].
    unfold bind in H. injection H as <-.
    apply Forall_app. split; [|now apply IH].
    destruct (PyStr.startswith (filename ++ ".") entry_name); cbn [andb];
      [|constructor].
    destruct (PyStr.endswith ".partial" entry_name) eqn:E; [|constructor].
    constructor; [|constructor]. cbn [snd].
    apply (endswith_trans _ _ _ E).
    destruct (full_path_shape remote dir_path entry_name) as [H _].
    destruct dir_path; exact H.
Qed.

Lemma partial_files_beside_sound (remote full_path filename : string)
  (found : list (string * string)) :
  partial_files_beside subprocess_run json_loads rclone_path config_path
    extra_flags remote full_path filename = Ok found ->
  Forall (fun f => PyStr.endswith ".partial" (snd f) = true) found.
Proof.
  unfold partial_files_beside.
  destruct (list_directory subprocess_run json_loads rclone_path
              config_path remote _ extra_flags) as [entries|e];
    [|discriminate].
  unfold bind. apply matching_partial_files_sound.
Qed.

Lemma handle_cleanup_loop_sound (partial_files : list (string * string)) :
  Forall (fun f => PyStr.endswith ".partial" (snd f) = true) partial_files ->
  forall deleted_count,
    let run := handle_cleanup_loop subprocess_run rclone_path config_path
                 extra_flags partial_files deleted_count in
    Forall (fun d => snd d = false
                     /\ PyStr.endswith ".partial" (fst d) = true)
      (cleaned (fst run))
    /\ confirmations (fst run) = [].
Proof.
  induction 1 as [|[n p] rest Hp Hrest IH]; intros deleted_count;
    cbn [handle_cleanup_loop].
  - simpl. split; [constructor|reflexivity].
  - destruct (Commands.delete_file subprocess_run rclone_path config_path
                p false extra_flags) as [success|e].
    + specialize (IH (if success then S deleted_count else deleted_count)).
      destruct (handle_cleanup_loop subprocess_run rclone_path config_path
                  extra_flags rest
                  (if success then S deleted_count else deleted_count))
        as [later out].
      simpl in *. destruct IH as [IH1 IH2]. split; [|exact IH2].
      constructor; [split; [reflexivity|exact Hp]|exact IH1].
    + simpl. split; [|reflexivity].
      constructor; [split; [reflexivity|exact Hp]|constructor].
Qed.

Lemma cleanup_found_sound (scan : listing) (confirmed : option bool)
  (found : list (string * string)) :
  Forall (fun f => PyStr.endswith ".partial" (snd f) = true) found ->
  found <> [] ->
  let run :=
    let (trace, out) :=
      handle_cleanup subprocess_run rclone_path config_path extra_flags
        confirmed found in
    (CPushConfirmation "Delete Partial File" (List.length found) :: trace,
     out) in
  Forall (fun d => snd d = false
                   /\ PyStr.endswith ".partial" (fst d) = true)
    (cleaned (fst run))
  /\ (confirmed <> Some true -> cleaned (fst run) = [])
  /\ confirmations (fst run) = [ List.length found ]
  /\ 0 < List.length found.
Proof.
  intros Hf Hne. unfold handle_cleanup.
  assert (Hlen : 0 < List.length found)
    by (destruct found; [contradiction|simpl; lia]).
  destruct confirmed as [[|]|].
  - pose proof (handle_cleanup_loop_sound found Hf 0) as H.
    destruct (handle_cleanup_loop subprocess_run rclone_path config_path
                extra_flags found 0) as [trace out].
    simpl in *. destruct H as [H1 H2].
    split; [exact H1|]. split; [congruence|]. split; [now rewrite H2|].
    exact Hlen.
  - simpl. split; [constructor|]. auto.
  - simpl. split; [constructor|]. auto.
Qed.

End CleanupFacts.

(** X28: the cleaner deletes nothing that is not a partial file and
    nothing without the user's consent. Every deletion it asks for is the
    deletion of a file, never the purge of a directory, of a path that ends
    in [.partial]; when the answer to the confirmation is not yes it asks
    for none; and it asks for the confirmation at most once, and only when
    it has found at least one partial file. *)
Theorem cleaner_deletes_only_confirmed_partial_files
  (subprocess_run : list string -> result CompletedProcess)
  (json_loads : string -> result json)
  (rclone_path : string) (config_path : option string)
  (extra_flags : string) (scan : listing) (confirmed : option bool)
  (file_path : option string) (filename : string) (is_directory : bool) :
  let run := _cleanup_partial_file subprocess_run json_loads rclone_path
               config_path extra_flags scan confirmed file_path filename
               is_directory in
  Forall (fun d => snd d = false
                   /\ PyStr.endswith ".partial" (fst d) = true)
    (cleaned (fst run))
  /\ (confirmed <> Some true -> cleaned (fst run) = [])
  /\ List.length (confirmations (fst run)) <= 1
  /\ Forall (fun n => 0 < n) (confirmations (fst run)).
Proof.
  assert (Hnothing :
    let run := (@nil cleanup_event, Returned) in
    Forall (fun d => snd d = false
                     /\ PyStr.endswith ".partial" (fst d) = true)
      (cleaned (fst run))
    /\ (confirmed <> Some true -> cleaned (fst run) = [])
    /\ List.length (confirmations (fst run)) <= 1
    /\ Forall (fun n => 0 < n) (confirmations (fst run))).
  { simpl. repeat split; auto. }
  unfold _cleanup_partial_file.
  destruct file_path as [[|c path]|]; [exact Hnothing| |exact Hnothing].
  destruct (PyPath.split_once ":" (String c path))
    as [|remote [|full_path [|x rest]]]; try exact Hnothing.
  assert (Hfound : forall found,
    Forall (fun f => PyStr.endswith ".partial" (snd f) = true) found ->
    let run :=
      match found with
      | [] => ([], Returned)
      | _ :: _ =>
          let (trace, out) :=
            handle_cleanup subprocess_run rclone_path config_path
              extra_flags confirmed found in
          (CPushConfirmation "Delete Partial File" (List.length found)
           :: trace, out)
      end in
    Forall (fun d => snd d = false
                     /\ PyStr.endswith ".partial" (fst d) = true)
      (cleaned (fst run))
    /\ (confirmed <> Some true -> cleaned (fst run) = [])
    /\ List.length (confirmations (fst run)) <= 1
    /\ Forall (fun n => 0 < n) (confirmations (fst run))).
  { intros found Hf. destruct found as [|f found]; [exact Hnothing|].
    destruct (cleanup_found_sound subprocess_run rclone_path config_path
                extra_flags scan confirmed (f :: found) Hf
                ltac:(discriminate)) as (H1 & H2 & H3 & H4).
    split; [exact H1|]. split; [exact H2|]. rewrite H3.
    split; [simpl; lia|]. constructor; [exact H4|constructor]. }
  destruct is_directory.
  - apply Hfound.
    eapply Forall_impl;
      [|apply (find_partial_sound remote scan full_path)].
    intros f (H1 & H2 & _). now apply (endswith_trans _ _ _ H1).
  - destruct (partial_files_beside subprocess_run json_loads rclone_path
                config_path extra_flags remote full_path filename)
      as [found|e] eqn:E; [|exact Hnothing].
    apply Hfound.
    apply (partial_files_beside_sound subprocess_run json_loads rclone_path
             config_path extra_flags remote full_path filename found E).
Qed.

Lemma cleaner_deletes_only_confirmed_partial_files_witness :
  let part := mkFileEntry "a.mp4.4f20d3fc.partial" "" 10 "" false "" in
  let run := _cleanup_partial_file (fun _ => Ok (mkCompleted 0 "" ""))
               (fun _ => Raise (JSONDecodeError "Expecting value"))
               "rclone" None ""
               (Lists [ (part, Lists []) ]) None
               (Some "gdrive:backup") "backup" true in
  cleaned (fst run) = [] /\ confirmations (fst run) = [ 1 ].
Proof.
  intros part run.
  destruct (cleaner_deletes_only_confirmed_partial_files
              (fun _ => Ok (mkCompleted 0 "" ""))
              (fun _ => Raise (JSONDecodeError "Expecting value")) "rclone"
              None "" (Lists [ (part, Lists []) ]) None
              (Some "gdrive:backup") "backup" true) as (_ & H & _).
  split; [apply H; discriminate|reflexivity].
Defined.
